(** * NeuralVision: the detection loop, the overlay geometry and the
      transfer learner of [src/components/ObjectDetector.jsx] and
      [src/components/TransferLearner.jsx]

    The development has two halves.  The first embeds the code: JavaScript
    numbers, the bounding-box overlay computed inside [predictions.map], the
    [detect] callback with the React effect that drives it, and the
    [predict]/[clearAll]/[addExample] callbacks of the transfer learner.  The
    second half states and proves the properties of the specification.

    Modelling conventions.
    - A JavaScript number is an element of a type carrying the operations the
      code uses ([JS.Number]).  Two instances are given.  [float], IEEE
      binary64, is the arithmetic of the code: what is stated for it holds of
      the program as it runs, rounding and overflow included.  [num], exact
      rationals extended with [Infinity], [-Infinity] and [NaN], has no
      rounding, no overflow and no signed zero: a statement about [num] says
      what the formulas give in exact arithmetic, and where binary64 departs
      from it, a binary64 evaluation that shows the departure stands beside
      it.
    - React is modelled at the granularity of its observable scheduling: a
      state change made by a handler, the re-render, and the re-run of the
      effect whose dependencies changed are one atomic transition; a callback
      created by a render is identified with the values it closes over.
    - An [await] splits a callback into the part run when the callback is
      invoked and the continuation run when the promise settles. *)

From Stdlib Require Import QArith Qminmax Qabs Lqa Lia ZArith List Bool String Floats Uint63.
Import ListNotations.

Set Implicit Arguments.

(* ================================================================== *)
(** * Part I: the embedding                                            *)
(* ================================================================== *)

(** ** JavaScript numbers *)

Module JS.

(** The arithmetic the overlay code performs on numbers. *)
Class Number (T : Type) : Type := {
  lit : Z -> T;                 (* an integer literal such as [10] *)
  add : T -> T -> T;            (* a + b *)
  sub : T -> T -> T;            (* a - b *)
  mul : T -> T -> T;            (* a * b *)
  div : T -> T -> T;            (* a / b *)
  math_max : T -> T -> T;       (* Math.max(a, b) *)
  math_min : T -> T -> T;       (* Math.min(a, b) *)
  lt : T -> T -> bool;          (* a < b *)
  truthy : T -> bool            (* ToBoolean(a): false on 0 and NaN *)
}.

(** A property read that may yield [undefined]: [None] is [undefined]. *)
Definition truthy_value {T} `{Number T} (v : option T) : bool :=
  match v with
  | Some x => truthy x
  | None => false
  end.

(** [a || b] on such values. *)
Definition or_else {T} `{Number T} (a b : option T) : option T :=
  if truthy_value a then a else b.

End JS.

Declare Scope js_scope.
Delimit Scope js_scope with js.
Infix "+" := JS.add : js_scope.
Infix "-" := JS.sub : js_scope.
Infix "*" := JS.mul : js_scope.
Infix "/" := JS.div : js_scope.

(** *** Exact numbers with the IEEE special values *)

Inductive num : Type :=
| Fin (q : Q)
| PosInf
| NegInf
| NaN.

Definition Qlt_bool (a b : Q) : bool := negb (Qle_bool b a).

Definition num_neg (a : num) : num :=
  match a with
  | Fin q => Fin (- q)
  | PosInf => NegInf
  | NegInf => PosInf
  | NaN => NaN
  end.

Definition num_add (a b : num) : num :=
  match a, b with
  | NaN, _ | _, NaN => NaN
  | Fin x, Fin y => Fin (x + y)
  | PosInf, NegInf | NegInf, PosInf => NaN
  | PosInf, _ | _, PosInf => PosInf
  | NegInf, _ | _, NegInf => NegInf
  end.

Definition num_sub (a b : num) : num := num_add a (num_neg b).

(** The sign of a rational as the extended number it scales an infinity to:
    [Infinity * 0] is [NaN]. *)
Definition scale_inf (inf : num) (q : Q) : num :=
  if Qeq_bool q 0 then NaN
  else if Qlt_bool 0 q then inf
  else num_neg inf.

Definition num_mul (a b : num) : num :=
  match a, b with
  | NaN, _ | _, NaN => NaN
  | Fin x, Fin y => Fin (x * y)
  | Fin x, PosInf => scale_inf PosInf x
  | Fin x, NegInf => scale_inf NegInf x
  | PosInf, Fin y => scale_inf PosInf y
  | NegInf, Fin y => scale_inf NegInf y
  | PosInf, PosInf | NegInf, NegInf => PosInf
  | PosInf, NegInf | NegInf, PosInf => NegInf
  end.

(** Division: a zero divisor gives an infinity, or [NaN] for [0/0]; the zero
    is taken as positive. *)
Definition num_div (a b : num) : num :=
  match a, b with
  | NaN, _ | _, NaN => NaN
  | Fin x, Fin y =>
      if Qeq_bool y 0
      then (if Qeq_bool x 0 then NaN
            else if Qlt_bool 0 x then PosInf else NegInf)
      else Fin (x / y)
  | Fin _, PosInf | Fin _, NegInf => Fin 0
  | PosInf, Fin y => if Qlt_bool y 0 then NegInf else PosInf
  | NegInf, Fin y => if Qlt_bool y 0 then PosInf else NegInf
  | PosInf, _ | NegInf, _ => NaN
  end.

Definition num_lt (a b : num) : bool :=
  match a, b with
  | NaN, _ | _, NaN => false
  | Fin x, Fin y => Qlt_bool x y
  | NegInf, NegInf => false
  | NegInf, _ => true
  | _, NegInf => false
  | PosInf, _ => false
  | Fin _, PosInf => true
  end.

Definition num_max (a b : num) : num :=
  match a, b with
  | NaN, _ | _, NaN => NaN
  | _, _ => if num_lt a b then b else a
  end.

Definition num_min (a b : num) : num :=
  match a, b with
  | NaN, _ | _, NaN => NaN
  | _, _ => if num_lt b a then b else a
  end.

Definition num_truthy (a : num) : bool :=
  match a with
  | Fin q => negb (Qeq_bool q 0)
  | PosInf | NegInf => true
  | NaN => false
  end.

#[export] Instance num_Number : JS.Number num := {|
  JS.lit := fun z => Fin (inject_Z z);
  JS.add := num_add;
  JS.sub := num_sub;
  JS.mul := num_mul;
  JS.div := num_div;
  JS.math_max := num_max;
  JS.math_min := num_min;
  JS.lt := num_lt;
  JS.truthy := num_truthy
|}.

(** Two exact numbers denote the same value. *)
Definition num_eq (a b : num) : Prop :=
  match a, b with
  | Fin x, Fin y => x == y
  | PosInf, PosInf | NegInf, NegInf | NaN, NaN => True
  | _, _ => False
  end.

Definition finite (a : num) : Prop :=
  match a with
  | Fin _ => True
  | _ => False
  end.

(** *** IEEE binary64 *)

Definition float_lit (z : Z) : float :=
  match z with
  | Zneg p => PrimFloat.opp (PrimFloat.of_uint63 (Uint63.of_Z (Zpos p)))
  | _ => PrimFloat.of_uint63 (Uint63.of_Z z)
  end.

(** [Math.max]: [NaN] when an argument is; [+0] is larger than [-0]. *)
Definition float_max (a b : float) : float :=
  if PrimFloat.is_nan a || PrimFloat.is_nan b then PrimFloat.nan
  else if PrimFloat.ltb a b then b
  else if PrimFloat.ltb b a then a
  else if PrimFloat.is_zero a && PrimFloat.get_sign a then b
  else a.

Definition float_min (a b : float) : float :=
  if PrimFloat.is_nan a || PrimFloat.is_nan b then PrimFloat.nan
  else if PrimFloat.ltb b a then b
  else if PrimFloat.ltb a b then a
  else if PrimFloat.is_zero a && negb (PrimFloat.get_sign a) then b
  else a.

Definition float_truthy (a : float) : bool :=
  negb (PrimFloat.is_zero a || PrimFloat.is_nan a).

#[export] Instance float_Number : JS.Number float := {|
  JS.lit := float_lit;
  JS.add := PrimFloat.add;
  JS.sub := PrimFloat.sub;
  JS.mul := PrimFloat.mul;
  JS.div := PrimFloat.div;
  JS.math_max := float_max;
  JS.math_min := float_min;
  JS.lt := PrimFloat.ltb;
  JS.truthy := float_truthy
|}.

(** ** The bounding-box overlay ([predictions.map] in ObjectDetector.jsx) *)

Inductive Mode : Type := Live | Upload.

(** What the overlay reads from the DOM.  A property that the element does not
    have (an [<img>] has no [videoWidth], a [<video>] no [naturalWidth]) reads
    as [undefined], here [None]. *)
Module DOM.

Record Container (T : Type) : Type := {
  clientWidth : T;
  clientHeight : T
}.

Record Element (T : Type) : Type := {
  videoWidth : option T;
  videoHeight : option T;
  naturalWidth : option T;
  naturalHeight : option T;
  parentElement : option (Container T)
}.

End DOM.

(** A detection as [model.detect] returns it: [bbox] is [x, y, width, height]
    in the pixels of the source. *)
Record Prediction (T : Type) : Type := {
  bbox : T * T * T * T;
  class : string;
  score : T
}.

Definition bbox0 {T} (p : Prediction T) : T := let '(x, _, _, _) := bbox p in x.
Definition bbox1 {T} (p : Prediction T) : T := let '(_, y, _, _) := bbox p in y.
Definition bbox2 {T} (p : Prediction T) : T := let '(_, _, w, _) := bbox p in w.
Definition bbox3 {T} (p : Prediction T) : T := let '(_, _, _, h) := bbox p in h.

(** Inline styles.  [maxWidth]/[maxHeight] are absent from [rawStyle]. *)
Module CSS.

Record Style (T : Type) : Type := {
  left : T;
  top : T;
  width : T;
  height : T;
  maxWidth : option T;
  maxHeight : option T
}.

End CSS.

(** What one iteration of [predictions.map] produces when it renders a box. *)
Record Overlay (T : Type) : Type := {
  scale : T;
  offsetX : T;
  offsetY : T;
  rawStyle : CSS.Style T;
  clampedStyle : CSS.Style T;
  isNearTop : bool
}.

Section OverlayCode.

Context {T : Type} `{JS.Number T}.
Local Open Scope js_scope.

(** [mode === 'live' ? webcamRef.current?.video : mediaRef.current] *)
Definition overlayElement (mode : Mode)
    (webcamVideo mediaCurrent : option (DOM.Element T)) : option (DOM.Element T) :=
  match mode with
  | Live => webcamVideo
  | Upload => mediaCurrent
  end.

Definition MARGIN : T := JS.lit 10.

(** The body of the arrow function given to [predictions.map]; [None] is the
    [return null] of its two guards. *)
Definition boundingBox (element : option (DOM.Element T)) (pred : Prediction T)
    : option (Overlay T) :=
  match element with
  | None => None
  | Some element =>
      let videoWidth := JS.or_else (DOM.videoWidth element) (DOM.naturalWidth element) in
      let videoHeight := JS.or_else (DOM.videoHeight element) (DOM.naturalHeight element) in
      let container := DOM.parentElement element in
      if negb (JS.truthy_value videoWidth) || negb (JS.truthy_value videoHeight)
      then None
      else
        match videoWidth, videoHeight, container with
        | Some videoWidth, Some videoHeight, Some container =>
            let containerWidth := DOM.clientWidth container in
            let containerHeight := DOM.clientHeight container in
            let scale := JS.math_max (containerWidth / videoWidth)
                                     (containerHeight / videoHeight) in
            let displayedWidth := videoWidth * scale in
            let displayedHeight := videoHeight * scale in
            let offsetX := (containerWidth - displayedWidth) / JS.lit 2 in
            let offsetY := (containerHeight - displayedHeight) / JS.lit 2 in
            let rawStyle := {|
              CSS.left := bbox0 pred * scale + offsetX;
              CSS.top := bbox1 pred * scale + offsetY;
              CSS.width := bbox2 pred * scale;
              CSS.height := bbox3 pred * scale;
              CSS.maxWidth := None;
              CSS.maxHeight := None
            |} in
            let left := JS.math_max MARGIN
                          (JS.math_min (CSS.left rawStyle)
                             (containerWidth - CSS.width rawStyle - MARGIN)) in
            let top := JS.math_max MARGIN
                          (JS.math_min (CSS.top rawStyle)
                             (containerHeight - CSS.height rawStyle - MARGIN)) in
            let clampedStyle := {|
              CSS.left := left;
              CSS.top := top;
              CSS.width := CSS.width rawStyle;
              CSS.height := CSS.height rawStyle;
              CSS.maxWidth := Some (containerWidth - left - MARGIN);
              CSS.maxHeight := Some (containerHeight - top - MARGIN)
            |} in
            let isNearTop := JS.lt top (JS.lit 40) in
            Some {|
              scale := scale;
              offsetX := offsetX;
              offsetY := offsetY;
              rawStyle := rawStyle;
              clampedStyle := clampedStyle;
              isNearTop := isNearTop
            |}
        | _, _, _ => None
        end
  end.

(** The overlay layer: one entry per prediction, [None] where nothing is
    rendered. *)
Definition overlays (element : option (DOM.Element T)) (predictions : list (Prediction T))
    : list (option (Overlay T)) :=
  map (boundingBox element) predictions.

End OverlayCode.

(** Inputs of the exact instance: the DOM and the model deliver finite numbers. *)
Definition finElement (e : DOM.Element Q) : DOM.Element num := {|
  DOM.videoWidth := option_map Fin (DOM.videoWidth e);
  DOM.videoHeight := option_map Fin (DOM.videoHeight e);
  DOM.naturalWidth := option_map Fin (DOM.naturalWidth e);
  DOM.naturalHeight := option_map Fin (DOM.naturalHeight e);
  DOM.parentElement :=
    option_map (fun c => {| DOM.clientWidth := Fin (DOM.clientWidth c);
                            DOM.clientHeight := Fin (DOM.clientHeight c) |})
               (DOM.parentElement e)
|}.

Definition finPrediction (p : Prediction Q) : Prediction num := {|
  bbox := (Fin (bbox0 p), Fin (bbox1 p), Fin (bbox2 p), Fin (bbox3 p));
  class := class p;
  score := Fin (score p)
|}.

(** A [<video>] element with the given intrinsic size inside a container. *)
Definition videoElement {T} (vw vh cw ch : T) : DOM.Element T := {|
  DOM.videoWidth := Some vw;
  DOM.videoHeight := Some vh;
  DOM.naturalWidth := None;
  DOM.naturalHeight := None;
  DOM.parentElement := Some {| DOM.clientWidth := cw; DOM.clientHeight := ch |}
|}.

Definition boxPrediction {T} (x y w h s : T) : Prediction T :=
  {| bbox := (x, y, w, h); class := "person"; score := s |}.

(** The cover-fit formulas as section 4.2 of the specification words them,
    over the rationals. *)
Module SpecMapper.

Definition scale (sourceWidth sourceHeight containerWidth containerHeight : Q) : Q :=
  Qmax (containerWidth / sourceWidth) (containerHeight / sourceHeight).

Definition offsetX (sourceWidth sourceHeight containerWidth containerHeight : Q) : Q :=
  (containerWidth
   - sourceWidth * scale sourceWidth sourceHeight containerWidth containerHeight) / 2.

Definition offsetY (sourceWidth sourceHeight containerWidth containerHeight : Q) : Q :=
  (containerHeight
   - sourceHeight * scale sourceWidth sourceHeight containerWidth containerHeight) / 2.

End SpecMapper.

(** The geometry of an overlay is free of [NaN] and infinities. *)
Definition finiteStyle (s : CSS.Style num) : Prop :=
  finite (CSS.left s) /\ finite (CSS.top s) /\ finite (CSS.width s) /\ finite (CSS.height s)
  /\ (forall m, CSS.maxWidth s = Some m -> finite m)
  /\ (forall m, CSS.maxHeight s = Some m -> finite m).

Definition finiteOverlay (o : Overlay num) : Prop :=
  finite (scale o) /\ finite (offsetX o) /\ finite (offsetY o)
  /\ finiteStyle (rawStyle o) /\ finiteStyle (clampedStyle o).

(** [Math.max]/[Math.min] on finite arguments. *)
Definition qmax (a b : Q) : Q := if Qlt_bool a b then b else a.
Definition qmin (a b : Q) : Q := if Qlt_bool b a then b else a.

(** The value [boundingBox] takes on finite arguments once its guards have
    passed: every operation is the rational one. *)
Definition exactOverlay (vw vh cw ch : Q) (p : Prediction Q) : Overlay num :=
  let k := qmax (cw / vw) (ch / vh) in
  let ox := (cw - vw * k) / inject_Z 2 in
  let oy := (ch - vh * k) / inject_Z 2 in
  let rl := bbox0 p * k + ox in
  let rt := bbox1 p * k + oy in
  let rw := bbox2 p * k in
  let rh := bbox3 p * k in
  let l := qmax (inject_Z 10) (qmin rl (cw - rw - inject_Z 10)) in
  let t := qmax (inject_Z 10) (qmin rt (ch - rh - inject_Z 10)) in
  {| scale := Fin k;
     offsetX := Fin ox;
     offsetY := Fin oy;
     rawStyle := {| CSS.left := Fin rl; CSS.top := Fin rt;
                    CSS.width := Fin rw; CSS.height := Fin rh;
                    CSS.maxWidth := None; CSS.maxHeight := None |};
     clampedStyle := {| CSS.left := Fin l; CSS.top := Fin t;
                        CSS.width := Fin rw; CSS.height := Fin rh;
                        CSS.maxWidth := Some (Fin (cw - l - inject_Z 10));
                        CSS.maxHeight := Some (Fin (ch - t - inject_Z 10)) |};
     isNearTop := Qlt_bool t (inject_Z 40) |}.

(** Concrete inputs: the 640x480 source in the 800x450 container of the
    specification, with the box (100,100,50,50); a box that covers the whole
    source; and a container that has not been laid out. *)
Definition specElementQ : DOM.Element Q := videoElement 640 480 800 450.
Definition specBoxQ : Prediction Q := boxPrediction 100 100 50 50 (1 # 2).
Definition fullFrameQ : Prediction Q := boxPrediction 0 0 640 480 (1 # 2).
Definition collapsedElementQ : DOM.Element Q := videoElement 640 480 0 0.

Definition specElementF : DOM.Element float :=
  videoElement 640%float 480%float 800%float 450%float.
Definition specBoxF : Prediction float :=
  boxPrediction 100%float 100%float 50%float 50%float 0.5%float.
Definition fullFrameF : Prediction float :=
  boxPrediction 0%float 0%float 640%float 480%float 0.5%float.
Definition collapsedElementF : DOM.Element float :=
  videoElement 640%float 480%float 0%float 0%float.
Definition notLoadedElementQ : DOM.Element Q := videoElement 0 0 800 450.

(** Inputs at which binary64 departs from exact arithmetic: a box at the right
    edge of a 640x480 source shown in a 516x290 container; a 1280x720 source
    in a 736x414 container, whose two ratios are both 0.575; a box of width
    2^1023 shown at scale 2; and sizes of extreme magnitude. *)
Definition roundingElementF : DOM.Element float :=
  videoElement 640%float 480%float 516%float 290%float.
Definition roundingBoxF : Prediction float :=
  boxPrediction 638%float 100%float 2%float 50%float 0.5%float.
Definition coverElementF : DOM.Element float :=
  videoElement 1280%float 720%float 736%float 414%float.
Definition doubleElementF : DOM.Element float :=
  videoElement 640%float 480%float 1280%float 960%float.
Definition hugeBoxF : Prediction float :=
  boxPrediction 0%float 0%float 0x1p1023%float 1%float 0.5%float.
Definition extremeElementF : DOM.Element float :=
  videoElement 0x1p-1000%float 0x1p-1000%float 0x1p1000%float 0x1p1000%float.
Definition unitBoxF : Prediction float :=
  boxPrediction 1%float 1%float 1%float 1%float 0.5%float.

(** *** The order of binary64 values *)

(** The place of a binary64 value in the numeric order, as a triple that is
    compared lexicographically: the class (infinities, sign, zero), then the
    exponent, then the mantissa.  Both zeros have the same place; [NaN] has
    none, its triple is never compared. *)
Definition SFkey (f : spec_float) : Z * Z * Z :=
  match f with
  | S754_zero _ => (0, 0, 0)
  | S754_infinity false => (2, 0, 0)
  | S754_infinity true => (-2, 0, 0)
  | S754_nan => (3, 0, 0)
  | S754_finite false m e => (1, e, Zpos m)
  | S754_finite true m e => (-1, - e, Zneg m)
  end%Z.

Definition key (x : float) : Z * Z * Z := SFkey (Prim2SF x).

Definition klt (a b : Z * Z * Z) : Prop :=
  let '(a1, a2, a3) := a in
  let '(b1, b2, b3) := b in
  (a1 < b1 \/ (a1 = b1 /\ (a2 < b2 \/ (a2 = b2 /\ a3 < b3))))%Z.

Definition keq (a b : Z * Z * Z) : Prop :=
  let '(a1, a2, a3) := a in
  let '(b1, b2, b3) := b in
  (a1 = b1 /\ a2 = b2 /\ a3 = b3)%Z.

Definition kcmp (a b : Z * Z * Z) : comparison :=
  let '(a1, a2, a3) := a in
  let '(b1, b2, b3) := b in
  match (a1 ?= b1)%Z with
  | Eq => match (a2 ?= b2)%Z with
          | Eq => (a3 ?= b3)%Z
          | r => r
          end
  | r => r
  end.

(** ** The detection loop ([detect] and its effect in ObjectDetector.jsx) *)

Inductive MediaType : Type := Video | Image.

(** [{ type, url }] *)
Record MediaFile : Type := {
  mediaType : MediaType;
  mediaUrl : nat
}.

Record Settings : Type := {
  minConfidence : Q;
  maxObjects : nat;
  iouThreshold : Q
}.

(** The loaded COCO-SSD model; [null] before it is loaded. *)
Inductive Model : Type := CocoSsd.

(** The callback [detect] that a render creates: [useCallback] gives a new
    function whenever one of [model, mode, mediaFile, isPaused, settings]
    changes, and the function sees the values of the render that created it. *)
Record Closure : Type := {
  c_model : option Model;
  c_mode : Mode;
  c_mediaFile : option MediaFile;
  c_isPaused : bool;
  c_settings : Settings
}.

(** What [detect] reads from the two element refs when it runs.  A [<video>]
    has [paused] and [readyState]; an [<img>] has neither. *)
Record MediaElement : Type := {
  paused : option bool;
  readyState : option nat
}.

Record Refs : Type := {
  webcamReadyState : option nat;      (* webcamRef.current?.video?.readyState *)
  mediaCurrent : option MediaElement  (* mediaRef.current *)
}.

(** The element handed to [model.detect]. *)
Inductive VideoEl : Type := WebcamVideo | MediaRefCurrent.

(** One call [model.detect(videoEl, settings.maxObjects, settings.minConfidence)]. *)
Record Call : Type := {
  callId : nat;
  callTime : Q;
  callVideoEl : VideoEl;
  callMaxObjects : nat;
  callMinConfidence : Q
}.

(** How a [model.detect] promise settles. *)
Inductive Outcome : Type :=
| Resolved (results : list (Prediction Q))
| Rejected.

Record State : Type := {
  (* React state of the component *)
  model : option Model;
  mode : Mode;
  mediaFile : option MediaFile;
  predictions : list (Prediction Q);
  fps : nat;
  isPaused : bool;
  settings : Settings;
  (* requestRef.current; [None] is undefined *)
  requestRef : option nat;
  (* fpsRef.current *)
  lastFrameTime : Q;
  lastFpsTime : Q;
  frameCount : nat;
  (* the browser: callbacks registered with requestAnimationFrame,
     timers set with setTimeout (with their due time), and model.detect
     promises not yet settled, each with the callback that awaits it *)
  animationFrames : list (nat * Closure);
  timeouts : list (nat * (Q * Closure));
  pending : list (nat * Closure);
  (* fresh handles and call numbers; the time of the last event *)
  nextHandle : nat;
  nextCall : nat;
  clock : Q;
  (* observations: every model.detect call issued, the calls whose
     results were given to setPredictions, the calls whose failure was
     given to console.error; newest first *)
  calls : list Call;
  applied : list nat;
  errors : list nat
}.

(** Field updates. *)
Definition set_model (v : option Model) (s : State) : State := {|
  model := v; mode := mode s; mediaFile := mediaFile s; predictions := predictions s;
  fps := fps s; isPaused := isPaused s; settings := settings s; requestRef := requestRef s;
  lastFrameTime := lastFrameTime s; lastFpsTime := lastFpsTime s;
  frameCount := frameCount s; animationFrames := animationFrames s; timeouts := timeouts s;
  pending := pending s; nextHandle := nextHandle s; nextCall := nextCall s;
  clock := clock s; calls := calls s; applied := applied s; errors := errors s
|}.

Definition set_mode (v : Mode) (s : State) : State := {|
  model := model s; mode := v; mediaFile := mediaFile s; predictions := predictions s;
  fps := fps s; isPaused := isPaused s; settings := settings s; requestRef := requestRef s;
  lastFrameTime := lastFrameTime s; lastFpsTime := lastFpsTime s;
  frameCount := frameCount s; animationFrames := animationFrames s; timeouts := timeouts s;
  pending := pending s; nextHandle := nextHandle s; nextCall := nextCall s;
  clock := clock s; calls := calls s; applied := applied s; errors := errors s
|}.

Definition set_mediaFile (v : option MediaFile) (s : State) : State := {|
  model := model s; mode := mode s; mediaFile := v; predictions := predictions s;
  fps := fps s; isPaused := isPaused s; settings := settings s; requestRef := requestRef s;
  lastFrameTime := lastFrameTime s; lastFpsTime := lastFpsTime s;
  frameCount := frameCount s; animationFrames := animationFrames s; timeouts := timeouts s;
  pending := pending s; nextHandle := nextHandle s; nextCall := nextCall s;
  clock := clock s; calls := calls s; applied := applied s; errors := errors s
|}.

Definition set_predictions (v : list (Prediction Q)) (s : State) : State := {|
  model := model s; mode := mode s; mediaFile := mediaFile s; predictions := v;
  fps := fps s; isPaused := isPaused s; settings := settings s; requestRef := requestRef s;
  lastFrameTime := lastFrameTime s; lastFpsTime := lastFpsTime s;
  frameCount := frameCount s; animationFrames := animationFrames s; timeouts := timeouts s;
  pending := pending s; nextHandle := nextHandle s; nextCall := nextCall s;
  clock := clock s; calls := calls s; applied := applied s; errors := errors s
|}.

Definition set_fps (v : nat) (s : State) : State := {|
  model := model s; mode := mode s; mediaFile := mediaFile s; predictions := predictions s;
  fps := v; isPaused := isPaused s; settings := settings s; requestRef := requestRef s;
  lastFrameTime := lastFrameTime s; lastFpsTime := lastFpsTime s;
  frameCount := frameCount s; animationFrames := animationFrames s; timeouts := timeouts s;
  pending := pending s; nextHandle := nextHandle s; nextCall := nextCall s;
  clock := clock s; calls := calls s; applied := applied s; errors := errors s
|}.

Definition set_isPaused (v : bool) (s : State) : State := {|
  model := model s; mode := mode s; mediaFile := mediaFile s; predictions := predictions s;
  fps := fps s; isPaused := v; settings := settings s; requestRef := requestRef s;
  lastFrameTime := lastFrameTime s; lastFpsTime := lastFpsTime s;
  frameCount := frameCount s; animationFrames := animationFrames s; timeouts := timeouts s;
  pending := pending s; nextHandle := nextHandle s; nextCall := nextCall s;
  clock := clock s; calls := calls s; applied := applied s; errors := errors s
|}.

Definition set_settings (v : Settings) (s : State) : State := {|
  model := model s; mode := mode s; mediaFile := mediaFile s; predictions := predictions s;
  fps := fps s; isPaused := isPaused s; settings := v; requestRef := requestRef s;
  lastFrameTime := lastFrameTime s; lastFpsTime := lastFpsTime s;
  frameCount := frameCount s; animationFrames := animationFrames s; timeouts := timeouts s;
  pending := pending s; nextHandle := nextHandle s; nextCall := nextCall s;
  clock := clock s; calls := calls s; applied := applied s; errors := errors s
|}.

Definition set_requestRef (v : option nat) (s : State) : State := {|
  model := model s; mode := mode s; mediaFile := mediaFile s; predictions := predictions s;
  fps := fps s; isPaused := isPaused s; settings := settings s; requestRef := v;
  lastFrameTime := lastFrameTime s; lastFpsTime := lastFpsTime s;
  frameCount := frameCount s; animationFrames := animationFrames s; timeouts := timeouts s;
  pending := pending s; nextHandle := nextHandle s; nextCall := nextCall s;
  clock := clock s; calls := calls s; applied := applied s; errors := errors s
|}.

Definition set_lastFrameTime (v : Q) (s : State) : State := {|
  model := model s; mode := mode s; mediaFile := mediaFile s; predictions := predictions s;
  fps := fps s; isPaused := isPaused s; settings := settings s; requestRef := requestRef s;
  lastFrameTime := v; lastFpsTime := lastFpsTime s; frameCount := frameCount s;
  animationFrames := animationFrames s; timeouts := timeouts s; pending := pending s;
  nextHandle := nextHandle s; nextCall := nextCall s; clock := clock s; calls := calls s;
  applied := applied s; errors := errors s
|}.

Definition set_lastFpsTime (v : Q) (s : State) : State := {|
  model := model s; mode := mode s; mediaFile := mediaFile s; predictions := predictions s;
  fps := fps s; isPaused := isPaused s; settings := settings s; requestRef := requestRef s;
  lastFrameTime := lastFrameTime s; lastFpsTime := v; frameCount := frameCount s;
  animationFrames := animationFrames s; timeouts := timeouts s; pending := pending s;
  nextHandle := nextHandle s; nextCall := nextCall s; clock := clock s; calls := calls s;
  applied := applied s; errors := errors s
|}.

Definition set_frameCount (v : nat) (s : State) : State := {|
  model := model s; mode := mode s; mediaFile := mediaFile s; predictions := predictions s;
  fps := fps s; isPaused := isPaused s; settings := settings s; requestRef := requestRef s;
  lastFrameTime := lastFrameTime s; lastFpsTime := lastFpsTime s; frameCount := v;
  animationFrames := animationFrames s; timeouts := timeouts s; pending := pending s;
  nextHandle := nextHandle s; nextCall := nextCall s; clock := clock s; calls := calls s;
  applied := applied s; errors := errors s
|}.

Definition set_animationFrames (v : list (nat * Closure)) (s : State) : State := {|
  model := model s; mode := mode s; mediaFile := mediaFile s; predictions := predictions s;
  fps := fps s; isPaused := isPaused s; settings := settings s; requestRef := requestRef s;
  lastFrameTime := lastFrameTime s; lastFpsTime := lastFpsTime s;
  frameCount := frameCount s; animationFrames := v; timeouts := timeouts s;
  pending := pending s; nextHandle := nextHandle s; nextCall := nextCall s;
  clock := clock s; calls := calls s; applied := applied s; errors := errors s
|}.

Definition set_timeouts (v : list (nat * (Q * Closure))) (s : State) : State := {|
  model := model s; mode := mode s; mediaFile := mediaFile s; predictions := predictions s;
  fps := fps s; isPaused := isPaused s; settings := settings s; requestRef := requestRef s;
  lastFrameTime := lastFrameTime s; lastFpsTime := lastFpsTime s;
  frameCount := frameCount s; animationFrames := animationFrames s; timeouts := v;
  pending := pending s; nextHandle := nextHandle s; nextCall := nextCall s;
  clock := clock s; calls := calls s; applied := applied s; errors := errors s
|}.

Definition set_pending (v : list (nat * Closure)) (s : State) : State := {|
  model := model s; mode := mode s; mediaFile := mediaFile s; predictions := predictions s;
  fps := fps s; isPaused := isPaused s; settings := settings s; requestRef := requestRef s;
  lastFrameTime := lastFrameTime s; lastFpsTime := lastFpsTime s;
  frameCount := frameCount s; animationFrames := animationFrames s; timeouts := timeouts s;
  pending := v; nextHandle := nextHandle s; nextCall := nextCall s; clock := clock s;
  calls := calls s; applied := applied s; errors := errors s
|}.

Definition set_nextHandle (v : nat) (s : State) : State := {|
  model := model s; mode := mode s; mediaFile := mediaFile s; predictions := predictions s;
  fps := fps s; isPaused := isPaused s; settings := settings s; requestRef := requestRef s;
  lastFrameTime := lastFrameTime s; lastFpsTime := lastFpsTime s;
  frameCount := frameCount s; animationFrames := animationFrames s; timeouts := timeouts s;
  pending := pending s; nextHandle := v; nextCall := nextCall s; clock := clock s;
  calls := calls s; applied := applied s; errors := errors s
|}.

Definition set_nextCall (v : nat) (s : State) : State := {|
  model := model s; mode := mode s; mediaFile := mediaFile s; predictions := predictions s;
  fps := fps s; isPaused := isPaused s; settings := settings s; requestRef := requestRef s;
  lastFrameTime := lastFrameTime s; lastFpsTime := lastFpsTime s;
  frameCount := frameCount s; animationFrames := animationFrames s; timeouts := timeouts s;
  pending := pending s; nextHandle := nextHandle s; nextCall := v; clock := clock s;
  calls := calls s; applied := applied s; errors := errors s
|}.

Definition set_clock (v : Q) (s : State) : State := {|
  model := model s; mode := mode s; mediaFile := mediaFile s; predictions := predictions s;
  fps := fps s; isPaused := isPaused s; settings := settings s; requestRef := requestRef s;
  lastFrameTime := lastFrameTime s; lastFpsTime := lastFpsTime s;
  frameCount := frameCount s; animationFrames := animationFrames s; timeouts := timeouts s;
  pending := pending s; nextHandle := nextHandle s; nextCall := nextCall s; clock := v;
  calls := calls s; applied := applied s; errors := errors s
|}.

Definition set_calls (v : list Call) (s : State) : State := {|
  model := model s; mode := mode s; mediaFile := mediaFile s; predictions := predictions s;
  fps := fps s; isPaused := isPaused s; settings := settings s; requestRef := requestRef s;
  lastFrameTime := lastFrameTime s; lastFpsTime := lastFpsTime s;
  frameCount := frameCount s; animationFrames := animationFrames s; timeouts := timeouts s;
  pending := pending s; nextHandle := nextHandle s; nextCall := nextCall s;
  clock := clock s; calls := v; applied := applied s; errors := errors s
|}.

Definition set_applied (v : list nat) (s : State) : State := {|
  model := model s; mode := mode s; mediaFile := mediaFile s; predictions := predictions s;
  fps := fps s; isPaused := isPaused s; settings := settings s; requestRef := requestRef s;
  lastFrameTime := lastFrameTime s; lastFpsTime := lastFpsTime s;
  frameCount := frameCount s; animationFrames := animationFrames s; timeouts := timeouts s;
  pending := pending s; nextHandle := nextHandle s; nextCall := nextCall s;
  clock := clock s; calls := calls s; applied := v; errors := errors s
|}.

Definition set_errors (v : list nat) (s : State) : State := {|
  model := model s; mode := mode s; mediaFile := mediaFile s; predictions := predictions s;
  fps := fps s; isPaused := isPaused s; settings := settings s; requestRef := requestRef s;
  lastFrameTime := lastFrameTime s; lastFpsTime := lastFpsTime s;
  frameCount := frameCount s; animationFrames := animationFrames s; timeouts := timeouts s;
  pending := pending s; nextHandle := nextHandle s; nextCall := nextCall s;
  clock := clock s; calls := calls s; applied := applied s; errors := v
|}.
Definition isLive (m : Mode) : bool := match m with Live => true | Upload => false end.
Definition isUpload (m : Mode) : bool := match m with Upload => true | Live => false end.

(** [mediaFile?.type === 'video'] and [mediaFile?.type === 'image'] *)
Definition isVideo (f : option MediaFile) : bool :=
  match f with
  | Some {| mediaType := Video |} => true
  | _ => false
  end.

Definition isImage (f : option MediaFile) : bool :=
  match f with
  | Some {| mediaType := Image |} => true
  | _ => false
  end.

Definition isSome {A} (o : option A) : bool :=
  match o with Some _ => true | None => false end.

(** *** The browser's queues *)

(** Takes the entry with handle [h] out of a queue. *)
Fixpoint take {A} (h : nat) (q : list (nat * A)) : option (A * list (nat * A)) :=
  match q with
  | [] => None
  | (h', a) :: rest =>
      if Nat.eqb h' h then Some (a, rest)
      else match take h rest with
           | Some (b, rest') => Some (b, (h', a) :: rest')
           | None => None
           end
  end.

Definition without {A} (h : nat) (q : list (nat * A)) : list (nat * A) :=
  filter (fun e => negb (Nat.eqb (fst e) h)) q.

(** [requestRef.current = requestAnimationFrame(detect)] *)
Definition requestAnimationFrame (c : Closure) (s : State) : State :=
  let h := nextHandle s in
  set_requestRef (Some h)
    (set_nextHandle (S h)
       (set_animationFrames (animationFrames s ++ [(h, c)]) s)).

(** [cancelAnimationFrame(requestRef.current)]; cancelling [undefined] or a
    handle that has already run does nothing. *)
Definition cancelAnimationFrame (s : State) : State :=
  match requestRef s with
  | Some h => set_animationFrames (without h (animationFrames s)) s
  | None => s
  end.

(** [setTimeout(detect, delay)]; the handle is dropped by the caller. *)
Definition setTimeout (c : Closure) (delay : Q) (s : State) : State :=
  let h := nextHandle s in
  set_nextHandle (S h)
    (set_timeouts (timeouts s ++ [(h, (clock s + delay, c))]) s).

(** *** [detect] *)

(** The choice of [videoEl]. *)
Definition selectVideoEl (c : Closure) (refs : Refs) : option VideoEl :=
  if isLive (c_mode c)
     && match webcamReadyState refs with Some 4%nat => true | _ => false end
  then Some WebcamVideo
  else if isUpload (c_mode c) && isSome (mediaCurrent refs) && isVideo (c_mediaFile c)
          && match mediaCurrent refs with
             | Some {| paused := Some true |} => false
             | _ => true
             end
  then
    match mediaCurrent refs with
    | Some {| readyState := Some r |} => if Nat.leb 2 r then Some MediaRefCurrent else None
    | _ => None
    end
  else if isUpload (c_mode c) && isSome (mediaCurrent refs) && isImage (c_mediaFile c)
  then Some MediaRefCurrent
  else None.

(** The call [model.detect(videoEl, settings.maxObjects, settings.minConfidence)]
    at which the callback suspends. *)
Definition modelDetect (c : Closure) (now : Q) (videoEl : VideoEl) (s : State) : State :=
  let k := nextCall s in
  set_nextCall (S k)
    (set_pending (pending s ++ [(k, c)])
       (set_calls ({| callId := k;
                      callTime := now;
                      callVideoEl := videoEl;
                      callMaxObjects := maxObjects (c_settings c);
                      callMinConfidence := minConfidence (c_settings c) |} :: calls s) s)).

(** The last statement of [detect]: re-arm for a live or uploaded video. *)
Definition rearm (c : Closure) (s : State) : State :=
  if isLive (c_mode c) || (isUpload (c_mode c) && isVideo (c_mediaFile c))
  then requestAnimationFrame c s
  else s.

(** [detect] from its invocation at time [now = performance.now()] up to the
    [await], or to its end when it does not call the model. *)
Definition detect (c : Closure) (now : Q) (refs : Refs) (s : State) : State :=
  if c_isPaused c || negb (isSome (c_model c)) then s
  else
    let timeSinceLastFrame := now - lastFrameTime s in
    if Qlt_bool timeSinceLastFrame 41 then requestAnimationFrame c s
    else
      let s := set_lastFrameTime now s in
      match selectVideoEl c refs with
      | Some videoEl =>
          let s := set_frameCount (S (frameCount s)) s in
          let s := if Qle_bool 1000 (now - lastFpsTime s)
                   then set_lastFpsTime now
                          (set_frameCount 0 (set_fps (frameCount s) s))
                   else s in
          modelDetect c now videoEl s
      | None => rearm c s
      end.

(** [detect] from the settling of the awaited call [k] to its end: the rest of
    the [try]/[catch], then the re-arm. *)
Definition detectResume (c : Closure) (k : nat) (o : Outcome) (s : State) : State :=
  let s := match o with
           | Resolved results => set_applied (k :: applied s) (set_predictions results s)
           | Rejected => set_errors (k :: errors s) s
           end in
  rearm c s.

(** *** The effect that triggers detection *)

(** The [detect] of the current render. *)
Definition currentDetect (s : State) : Closure := {|
  c_model := model s;
  c_mode := mode s;
  c_mediaFile := mediaFile s;
  c_isPaused := isPaused s;
  c_settings := settings s
|}.

Definition effect (s : State) : State :=
  if isUpload (mode s) && isImage (mediaFile s) && isSome (model s)
  then setTimeout (currentDetect s) 500 s
  else if negb (isPaused s) then requestAnimationFrame (currentDetect s) s
  else s.

(** A render in which a dependency of the effect changed: the clean-up of the
    previous run, then the effect. *)
Definition rerunEffect (s : State) : State := effect (cancelAnimationFrame s).

(** *** The component as a transition system *)

Inductive Action : Type :=
| AnimationFrame (handle : nat) (refs : Refs)   (* the browser runs a requested frame callback *)
| Timeout (handle : nat) (refs : Refs)          (* a timer fires *)
| Settle (call : nat) (o : Outcome)             (* a model.detect promise settles *)
| ModelLoaded                                   (* loadModel: setModel(loadedModel) *)
| ToggleMode                                    (* the mode button *)
| TogglePause                                   (* the pause button *)
| Drop (t : MediaType) (url : nat)              (* onDrop with an accepted file *)
| ClearMedia                                    (* clearMedia *)
| VideoPlay                                     (* onPlay of the uploaded video *)
| SetMinConfidence (v : Q)                      (* the confidence slider *)
| SetIouThreshold (v : Q).                      (* the IOU slider *)

(** An event is an action at a time of [performance.now()]. *)
Definition Event : Type := Q * Action.

Definition defaultSettings : Settings := {|
  minConfidence := 1 # 2;
  maxObjects := 10;
  iouThreshold := 3 # 10
|}.

(** The state of the first render, before its effects run. *)
Definition firstRender : State := {|
  model := None;
  mode := Live;
  mediaFile := None;
  predictions := [];
  fps := 0;
  isPaused := false;
  settings := defaultSettings;
  requestRef := None;
  lastFrameTime := 0;
  lastFpsTime := 0;
  frameCount := 0;
  animationFrames := [];
  timeouts := [];
  pending := [];
  nextHandle := 0;
  nextCall := 0;
  clock := 0;
  calls := [];
  applied := [];
  errors := []
|}.

(** The mounted component: the detection effect has run once. *)
Definition mounted : State := effect firstRender.

(** Does the action, taken in [s], re-run the detection effect?  It does when
    it changes [model], [mode], [mediaFile], [isPaused] or [settings]. *)
Definition rerunsEffect (s : State) (a : Action) : bool :=
  match a with
  | AnimationFrame _ _ | Timeout _ _ | Settle _ _ => false
  | VideoPlay => isPaused s
  | _ => true
  end.

(** One transition; [None] when the event cannot occur in [s]: time does not
    run backwards, only a registered callback runs, only an outstanding call
    settles, and a control acts only while it is on the page. *)
Definition step (s : State) (e : Event) : option State :=
  let (now, a) := e in
  if Qlt_bool now (clock s) then None
  else
    let s := set_clock now s in
    match a with
    | AnimationFrame h refs =>
        match take h (animationFrames s) with
        | Some (c, rest) => Some (detect c now refs (set_animationFrames rest s))
        | None => None
        end
    | Timeout h refs =>
        match take h (timeouts s) with
        | Some ((due, c), rest) =>
            if Qlt_bool now due then None
            else Some (detect c now refs (set_timeouts rest s))
        | None => None
        end
    | Settle k o =>
        match take k (pending s) with
        | Some (c, rest) => Some (detectResume c k o (set_pending rest s))
        | None => None
        end
    | ModelLoaded =>
        match model s with
        | None => Some (rerunEffect (set_model (Some CocoSsd) s))
        | Some _ => None
        end
    | ToggleMode =>
        Some (rerunEffect
                (set_predictions []
                   (set_mode (match mode s with Live => Upload | Upload => Live end) s)))
    | TogglePause =>
        Some (rerunEffect (set_isPaused (negb (isPaused s)) s))
    | Drop t url =>
        if isUpload (mode s) && negb (isSome (mediaFile s))
        then Some (rerunEffect
                     (set_predictions []
                        (set_mode Upload
                           (set_mediaFile (Some {| mediaType := t; mediaUrl := url |}) s))))
        else None
    | ClearMedia =>
        if isUpload (mode s) && isSome (mediaFile s)
        then Some (rerunEffect
                     (set_predictions [] (set_mode Live (set_mediaFile None s))))
        else None
    | VideoPlay =>
        if isUpload (mode s) && isVideo (mediaFile s)
        then Some (if isPaused s then rerunEffect (set_isPaused false s) else s)
        else None
    | SetMinConfidence v =>
        Some (rerunEffect
                (set_settings {| minConfidence := v;
                                 maxObjects := maxObjects (settings s);
                                 iouThreshold := iouThreshold (settings s) |} s))
    | SetIouThreshold v =>
        Some (rerunEffect
                (set_settings {| minConfidence := minConfidence (settings s);
                                 maxObjects := maxObjects (settings s);
                                 iouThreshold := v |} s))
    end.

Fixpoint run (s : State) (trace : list Event) : option State :=
  match trace with
  | [] => Some s
  | e :: rest =>
      match step s e with
      | Some s' => run s' rest
      | None => None
      end
  end.

(** A trace is calm when no render re-runs the detection effect while a
    [model.detect] call is outstanding or a one-shot timer is set. *)
Definition calm (s : State) (a : Action) : bool :=
  if rerunsEffect s a
  then match pending s, timeouts s with
       | [], [] => true
       | _, _ => false
       end
  else true.

Fixpoint runCalm (s : State) (trace : list Event) : option State :=
  match trace with
  | [] => Some s
  | e :: rest =>
      if calm s (snd e)
      then match step s e with
           | Some s' => runCalm s' rest
           | None => None
           end
      else None
  end.

(** *** Vocabulary of the properties *)

(** A source switch: a change of mode or of the uploaded media. *)
Definition isSourceSwitch (a : Action) : bool :=
  match a with
  | ToggleMode | Drop _ _ | ClearMedia => true
  | _ => false
  end.

(** The callback keeps the loop going: it closes over a live mode or an
    uploaded video. *)
Definition continuous (c : Closure) : bool :=
  isLive (c_mode c) || (isUpload (c_mode c) && isVideo (c_mediaFile c)).

(** Nothing is scheduled and nothing is awaited. *)
Definition idle (s : State) : Prop :=
  animationFrames s = [] /\ timeouts s = [] /\ pending s = [].

(** At most one continuation of the loop exists, and a requested frame
    callback is the one [requestRef] names. *)
Definition singleFlow (s : State) : Prop :=
  (List.length (animationFrames s) + List.length (timeouts s) + List.length (pending s) <= 1)%nat
  /\ (forall h c, In (h, c) (animationFrames s) -> requestRef s = Some h).

(** The issued calls lie in the past of [lastFrameTime], newest first and at
    least 41 ms apart. *)
Definition paced (s : State) : Prop :=
  ForallOrdPairs (fun later earlier => 41 <= callTime later - callTime earlier) (calls s)
  /\ Forall (fun call => callTime call <= lastFrameTime s) (calls s)
  /\ lastFrameTime s <= clock s.

(** Handles and call numbers in use are below the next fresh one, and a
    callback awaiting a call saw a loaded model and no pause. *)
Definition wellFormed (s : State) : Prop :=
  Forall (fun e => (fst e < nextHandle s)%nat) (animationFrames s)
  /\ Forall (fun e => (fst e < nextHandle s)%nat) (timeouts s)
  /\ Forall (fun e => (fst e < nextCall s)%nat
                      /\ c_isPaused (snd e) = false
                      /\ isSome (c_model (snd e)) = true) (pending s).

(** [s'] differs from [s] at most in what is scheduled: the requested frame
    callbacks, the timers, [requestRef] and the next handle. *)
Definition reschedules (s s' : State) : Prop :=
  model s' = model s /\ mode s' = mode s /\ mediaFile s' = mediaFile s
  /\ predictions s' = predictions s /\ fps s' = fps s /\ isPaused s' = isPaused s
  /\ settings s' = settings s
  /\ lastFrameTime s' = lastFrameTime s /\ lastFpsTime s' = lastFpsTime s
  /\ frameCount s' = frameCount s
  /\ pending s' = pending s /\ nextCall s' = nextCall s /\ clock s' = clock s
  /\ calls s' = calls s /\ applied s' = applied s /\ errors s' = errors s.

(** *** Concrete scenarios *)

(** The webcam delivers frames; nothing is uploaded. *)
Definition webcamReady : Refs := {| webcamReadyState := Some 4%nat; mediaCurrent := None |}.

(** The webcam has no frame yet. *)
Definition webcamNotReady : Refs := {| webcamReadyState := None; mediaCurrent := None |}.

(** An uploaded image is mounted. *)
Definition imageMounted : Refs :=
  {| webcamReadyState := None;
     mediaCurrent := Some {| paused := None; readyState := None |} |}.

(** A detection the model may return. *)
Definition person : Prediction Q := boxPrediction 100 100 50 50 (9 # 10).

(** The model finishes loading two seconds after the page; the first frame
    callback afterwards finds the webcam ready and calls the model. *)
Definition firstCall : list Event :=
  [ (16, AnimationFrame 0 webcamReady);
    (2000, ModelLoaded);
    (2016, AnimationFrame 1 webcamReady) ].

(** The confidence slider is moved while call 0 is outstanding; the frame
    callback the re-run effect requested then runs. *)
Definition sliderDuringCall : list Event :=
  firstCall ++
  [ (2030, SetMinConfidence (3 # 5));
    (2066, AnimationFrame 2 webcamReady) ].

(** An image is uploaded and the confidence slider is moved within the half
    second before the one-shot timer fires: the effect sets a second timer,
    and both timers fire. *)
Definition sliderBeforeTimer : list Event :=
  [ (2000, ModelLoaded);
    (2016, AnimationFrame 1 webcamNotReady);
    (2500, ToggleMode);
    (2516, AnimationFrame 3 webcamNotReady);
    (3000, Drop Image 7);
    (3100, SetMinConfidence (3 # 5));
    (3500, Timeout 4 imageMounted);
    (3600, Timeout 5 imageMounted) ].

(** Call 0 resolves and the re-armed callback runs 41.5 ms after call 0 was
    issued. *)
Definition backToBack : list Event :=
  firstCall ++
  [ (2040, Settle 0 (Resolved [person]));
    (4115 # 2, AnimationFrame 2 webcamReady) ].

(** The mode button is pressed while call 0 is outstanding, and the call
    resolves afterwards. *)
Definition switchDuringCall : list Event :=
  firstCall ++
  [ (2030, ToggleMode);
    (2080, Settle 0 (Resolved [person])) ].

(** Call 0 fails. *)
Definition failedCall : list Event :=
  firstCall ++ [ (2100, Settle 0 Rejected) ].

(** Call 0 resolves with a detection; the loop goes on, and call 1 fails. *)
Definition failureAfterSuccess : list Event :=
  firstCall ++
  [ (2036, Settle 0 (Resolved [person]));
    (2080, AnimationFrame 2 webcamReady);
    (2100, Settle 1 Rejected) ].

(** An image is uploaded; its one inference fails. *)
Definition failedImage : list Event :=
  [ (2000, ModelLoaded);
    (2500, ToggleMode);
    (2600, Drop Image 7);
    (3100, Timeout 3 imageMounted);
    (3200, Settle 0 Rejected) ].

(** The pause button is pressed while call 0 is outstanding; the call
    resolves, and the next frame callback runs. *)
Definition pauseDuringCall : list Event :=
  firstCall ++
  [ (2030, TogglePause);
    (2080, Settle 0 (Resolved [person])) ].

Definition pauseDuringCallThenFrame : list Event :=
  pauseDuringCall ++ [ (2100, AnimationFrame 2 webcamReady) ].

(** ** The transfer learner ([predict], [addExample], [clearAll] in
       TransferLearner.jsx) *)

Module Learner.

(** [String.fromCharCode(n)]: the string of the one UTF-16 code unit
    [n mod 2^16].  Strings are held in UTF-8, as the source file holds them;
    a code unit takes one, two or three bytes. *)
Definition fromCharCode (n : nat) : string :=
  let u := (N.of_nat n mod 65536)%N in
  if (u <? 128)%N then String (Ascii.ascii_of_N u) EmptyString
  else if (u <? 2048)%N then
    String (Ascii.ascii_of_N (192 + u / 64))
      (String (Ascii.ascii_of_N (128 + u mod 64)) EmptyString)
  else
    String (Ascii.ascii_of_N (224 + u / 4096))
      (String (Ascii.ascii_of_N (128 + (u / 64) mod 64))
         (String (Ascii.ascii_of_N (128 + u mod 64)) EmptyString)).

Section Code.

(** Tensors returned by [net.infer], and the object [predictClass] resolves
    to ([{ label, classIndex, confidences }]); both are opaque here. *)
Variable Activation : Type.
Variable Result : Type.

(** The loaded MobileNet, and the reference to the KNN classifier object. *)
Inductive Net : Type := MobileNet.
Inductive Classifier : Type := Knn.

(** Modelled from the spec: the KNN classifier of the package
    @tensorflow-models/knn-classifier, which the component only calls.  It is
    the ExemplarStore of section 4.3: [addExample] appends a labelled vector,
    [clearAllClasses] empties every class, and a class exists in the store
    while it has at least one example, so [getNumClasses] counts the labels
    that occur. *)
Definition Dataset : Type := list (nat * Activation).

Definition knnCreate : Dataset := [].

Definition knnAddExample (activation : Activation) (classId : nat) (d : Dataset) : Dataset :=
  d ++ [(classId, activation)].

Definition knnClearAllClasses (d : Dataset) : Dataset := [].

Definition knnGetNumClasses (d : Dataset) : nat :=
  List.length (nodup Nat.eq_dec (map fst d)).

(** The examples a class holds, and the examples held in all. *)
Definition examplesOf (classId : nat) (d : Dataset) : list Activation :=
  map snd (filter (fun e => Nat.eqb (fst e) classId) d).

Definition numExamples (d : Dataset) : nat := List.length d.

(** How a [predictClass] promise settles. *)
Inductive Outcome : Type :=
| Resolved (r : Result)
| Rejected.

(** A row of the [classes] state. *)
Record ClassRow : Type := {
  id : nat;
  name : string;
  count : nat;
  color : string
}.

(** The callback [predict] of a render: [useCallback] with dependencies
    [classifier, net]. *)
Record Closure : Type := {
  p_classifier : option Classifier;
  p_net : option Net
}.

Record State : Type := {
  (* React state of the component *)
  net : option Net;
  classifier : option Classifier;
  classes : list ClassRow;
  result : option Result;
  (* the examples held by the classifier object that [classifier] refers to *)
  knn : Dataset;
  (* requestRef.current *)
  requestRef : option nat;
  (* the browser: requested frame callbacks; classifier.predictClass
     promises not yet settled, with the callback awaiting each *)
  animationFrames : list (nat * Closure);
  pending : list (nat * Closure);
  nextHandle : nat;
  nextCall : nat
}.

(** Field updates. *)
Definition set_net (v : option Net) (s : State) : State := {|
  net := v; classifier := classifier s; classes := classes s; result := result s;
  knn := knn s; requestRef := requestRef s; animationFrames := animationFrames s;
  pending := pending s; nextHandle := nextHandle s; nextCall := nextCall s
|}.

Definition set_classifier (v : option Classifier) (s : State) : State := {|
  net := net s; classifier := v; classes := classes s; result := result s; knn := knn s;
  requestRef := requestRef s; animationFrames := animationFrames s; pending := pending s;
  nextHandle := nextHandle s; nextCall := nextCall s
|}.

Definition set_classes (v : list ClassRow) (s : State) : State := {|
  net := net s; classifier := classifier s; classes := v; result := result s; knn := knn s;
  requestRef := requestRef s; animationFrames := animationFrames s; pending := pending s;
  nextHandle := nextHandle s; nextCall := nextCall s
|}.

Definition set_result (v : option Result) (s : State) : State := {|
  net := net s; classifier := classifier s; classes := classes s; result := v;
  knn := knn s; requestRef := requestRef s; animationFrames := animationFrames s;
  pending := pending s; nextHandle := nextHandle s; nextCall := nextCall s
|}.

Definition set_knn (v : Dataset) (s : State) : State := {|
  net := net s; classifier := classifier s; classes := classes s; result := result s;
  knn := v; requestRef := requestRef s; animationFrames := animationFrames s;
  pending := pending s; nextHandle := nextHandle s; nextCall := nextCall s
|}.

Definition set_requestRef (v : option nat) (s : State) : State := {|
  net := net s; classifier := classifier s; classes := classes s; result := result s;
  knn := knn s; requestRef := v; animationFrames := animationFrames s;
  pending := pending s; nextHandle := nextHandle s; nextCall := nextCall s
|}.

Definition set_animationFrames (v : list (nat * Closure)) (s : State) : State := {|
  net := net s; classifier := classifier s; classes := classes s; result := result s;
  knn := knn s; requestRef := requestRef s; animationFrames := v; pending := pending s;
  nextHandle := nextHandle s; nextCall := nextCall s
|}.

Definition set_pending (v : list (nat * Closure)) (s : State) : State := {|
  net := net s; classifier := classifier s; classes := classes s; result := result s;
  knn := knn s; requestRef := requestRef s; animationFrames := animationFrames s;
  pending := v; nextHandle := nextHandle s; nextCall := nextCall s
|}.

Definition set_nextHandle (v : nat) (s : State) : State := {|
  net := net s; classifier := classifier s; classes := classes s; result := result s;
  knn := knn s; requestRef := requestRef s; animationFrames := animationFrames s;
  pending := pending s; nextHandle := v; nextCall := nextCall s
|}.

Definition set_nextCall (v : nat) (s : State) : State := {|
  net := net s; classifier := classifier s; classes := classes s; result := result s;
  knn := knn s; requestRef := requestRef s; animationFrames := animationFrames s;
  pending := pending s; nextHandle := nextHandle s; nextCall := v
|}.
Definition requestAnimationFrame (c : Closure) (s : State) : State :=
  let h := nextHandle s in
  set_requestRef (Some h)
    (set_nextHandle (S h)
       (set_animationFrames (animationFrames s ++ [(h, c)]) s)).

Definition cancelAnimationFrame (s : State) : State :=
  match requestRef s with
  | Some h => set_animationFrames (without h (animationFrames s)) s
  | None => s
  end.

(** [webcamRef.current?.video?.readyState === 4] *)
Definition webcamIsReady (readyState : option nat) : bool :=
  match readyState with
  | Some 4%nat => true
  | _ => false
  end.

(** [predict] from its invocation up to the [await], or to its end when it
    skips the prediction.  [activation] is what [net.infer] returns for the
    frame the webcam shows. *)
Definition predict (c : Closure) (readyState : option nat) (activation : Activation)
    (s : State) : State :=
  if isSome (p_classifier c) && isSome (p_net c) && webcamIsReady readyState
     && Nat.ltb 0 (knnGetNumClasses (knn s))
  then
    let k := nextCall s in
    set_nextCall (S k) (set_pending (pending s ++ [(k, c)]) s)
  else requestAnimationFrame c s.

(** [predict] from the settling of the awaited [predictClass] to its end: a
    rejection is swallowed by the empty [catch]. *)
Definition predictResume (c : Closure) (o : Outcome) (s : State) : State :=
  let s := match o with
           | Resolved r => set_result (Some r) s
           | Rejected => s
           end in
  requestAnimationFrame c s.

Definition addExample (classId : nat) (readyState : option nat) (activation : Activation)
    (s : State) : State :=
  if isSome (net s) && isSome (classifier s) && webcamIsReady readyState
  then
    set_classes
      (map (fun c => if Nat.eqb (id c) classId
                     then {| id := id c; name := name c; count := S (count c); color := color c |}
                     else c)
           (classes s))
      (set_knn (knnAddExample activation classId (knn s)) s)
  else s.

Definition clearAll (s : State) : State :=
  if isSome (classifier s)
  then
    set_result None
      (set_classes
         (map (fun c => {| id := id c; name := name c; count := 0; color := color c |})
              (classes s))
         (set_knn (knnClearAllClasses (knn s)) s))
  else s.

Definition addClass (randomColor : string) (s : State) : State :=
  let newId := List.length (classes s) in
  set_classes
    (classes s ++ [{| id := newId;
                      name := String.append "Class " (fromCharCode (65 + newId));
                      count := 0;
                      color := randomColor |}])
    s.

Definition currentPredict (s : State) : Closure :=
  {| p_classifier := classifier s; p_net := net s |}.

Definition effect (s : State) : State := requestAnimationFrame (currentPredict s) s.

Definition rerunEffect (s : State) : State := effect (cancelAnimationFrame s).

Inductive Action : Type :=
| AnimationFrame (handle : nat) (readyState : option nat) (activation : Activation)
| Settle (call : nat) (o : Outcome)
| Initialised                                    (* init: setNet, setClassifier *)
| Train (classId : nat) (readyState : option nat) (activation : Activation)
| Reset                                          (* the Reset button: clearAll *)
| AddClass (randomColor : string).

Definition firstRender : State := {|
  net := None;
  classifier := None;
  classes := [ {| id := 0; name := "Class A (e.g. Thumbs Up)"; count := 0;
                  color := "bg-emerald-500" |};
               {| id := 1; name := "Class B (e.g. Open Palm)"; count := 0;
                  color := "bg-indigo-500" |};
               {| id := 2; name := "Background (Nothing)"; count := 0;
                  color := "bg-gray-500" |} ];
  result := None;
  knn := knnCreate;
  requestRef := None;
  animationFrames := [];
  pending := [];
  nextHandle := 0;
  nextCall := 0
|}.

Definition mounted : State := effect firstRender.

Definition step (s : State) (a : Action) : option State :=
  match a with
  | AnimationFrame h readyState activation =>
      match take h (animationFrames s) with
      | Some (c, rest) => Some (predict c readyState activation (set_animationFrames rest s))
      | None => None
      end
  | Settle k o =>
      match take k (pending s) with
      | Some (c, rest) => Some (predictResume c o (set_pending rest s))
      | None => None
      end
  | Initialised =>
      match classifier s with
      | None =>
          Some (rerunEffect
                  (set_knn knnCreate
                     (set_classifier (Some Knn) (set_net (Some MobileNet) s))))
      | Some _ => None
      end
  | Train classId readyState activation => Some (addExample classId readyState activation s)
  | Reset => Some (clearAll s)
  | AddClass randomColor => Some (addClass randomColor s)
  end.

Fixpoint run (s : State) (trace : list Action) : option State :=
  match trace with
  | [] => Some s
  | a :: rest =>
      match step s a with
      | Some s' => run s' rest
      | None => None
      end
  end.

(** The action is a press of a Train button. *)
Definition isTrain (a : Action) : bool :=
  match a with
  | Train _ _ _ => true
  | _ => false
  end.

End Code.

End Learner.

(** Before initialisation nothing has been trained or predicted, and no
    callback that has the classifier exists. *)
Definition untouched {Activation Result : Type} (s : Learner.State Activation Result) : Prop :=
  Learner.classifier s = None ->
  Learner.knn s = []
  /\ Forall (fun row => Learner.count row = 0%nat) (Learner.classes s)
  /\ Learner.result s = None
  /\ Learner.pending s = []
  /\ Forall (fun e => Learner.p_classifier (snd e) = None) (Learner.animationFrames s).

(** A session of the learner over vectors of rationals: initialisation, two
    examples for class 0, a reset. *)
Definition trainThenReset : list (Learner.Action (list Q) nat) :=
  [ Learner.Initialised (list Q) nat;
    Learner.Train nat 0 (Some 4%nat) [1; 0];
    Learner.Train nat 0 (Some 4%nat) [0; 1];
    Learner.Reset (list Q) nat ].

(** One example is trained and a prediction is requested; the Reset button
    is pressed while the [predictClass] call is outstanding; the call
    resolves to the result 7, and the next frame predicts on the emptied
    store. *)
Definition resetDuringPrediction : list (Learner.Action (list Q) nat) :=
  [ Learner.Initialised (list Q) nat;
    Learner.Train nat 0 (Some 4%nat) [1; 0];
    Learner.AnimationFrame nat 1 (Some 4%nat) [1; 0];
    Learner.Reset (list Q) nat;
    Learner.Settle (list Q) 0 (Learner.Resolved 7%nat);
    Learner.AnimationFrame nat 2 (Some 4%nat) [0; 1] ].

(** What follows a reset: frames, and a new class. *)
Definition afterReset : list (Learner.Action (list Q) nat) :=
  [ Learner.AnimationFrame nat 1 (Some 4%nat) [1; 0];
    Learner.AddClass (list Q) nat "bg-pink-500";
    Learner.AnimationFrame nat 2 (Some 4%nat) [0; 1] ].

From Stdlib Require Import Permutation Sorted.

(** ** Further vocabulary for the detection loop *)

(** The component is unmounted (the tab is left, App.jsx): React runs the
    clean-up of the detection effect. *)
Definition unmount (s : State) : State := cancelAnimationFrame s.

Definition natQ (n : nat) : Q := inject_Z (Z.of_nat n).

(** The frame counter is backed by time: since the last publication of the
    rate at least 41 ms have passed per counted frame. *)
Definition metered (s : State) : Prop :=
  lastFpsTime s <= lastFrameTime s
  /\ 41 * natQ (frameCount s) <= lastFrameTime s - lastFpsTime s
  /\ (frameCount s <= 24)%nat
  /\ (fps s <= 25)%nat.

(** Every call issued is outstanding, applied or logged as failed. *)
Definition accounted (s : State) : Prop :=
  Permutation (map callId (calls s)) (map fst (pending s) ++ applied s ++ errors s)
  /\ Forall (fun call => (callId call < nextCall s)%nat) (calls s)
  /\ NoDup (map callId (calls s)).

(** What every callback in the browser's hands closes over: no model unless
    the component has one, and the initial [maxObjects]. *)
Definition tracked (s : State) (c : Closure) : Prop :=
  (model s = None -> c_model c = None)
  /\ maxObjects (c_settings c) = 10%nat.

Definition closuresTracked (s : State) : Prop :=
  maxObjects (settings s) = 10%nat
  /\ Forall (fun e => tracked s (snd e)) (animationFrames s)
  /\ Forall (fun e => tracked s (snd (snd e))) (timeouts s)
  /\ Forall (fun e => tracked s (snd e)) (pending s)
  /\ Forall (fun call => callMaxObjects call = 10%nat) (calls s)
  /\ (model s = None ->
      calls s = [] /\ pending s = [] /\ predictions s = [] /\ fps s = 0%nat).

(** Twenty-five calls in a row, 41 ms apart, each resolving 20 ms after it
    was issued: cycle [i] runs the callback with handle [i + 2] at
    [t0 + 41 i] and settles call [i + 1]. *)
Fixpoint cycles (n : nat) (i : nat) (t0 : Q) : list Event :=
  match n with
  | O => []
  | S n' =>
      (t0 + 41 * natQ i, AnimationFrame (i + 2) webcamReady)
      :: (t0 + 41 * natQ i + 20, Settle (i + 1) (Resolved [person]))
      :: cycles n' (S i) t0
  end.

Definition fullSpeed : list Event :=
  firstCall ++ [ (2036, Settle 0 (Resolved [person])) ] ++ cycles 25 0 2057.

(** One complete cycle after the model has loaded. *)
Definition oneCycle : list Event :=
  firstCall ++ [ (2040, Settle 0 (Resolved [person])) ].

(** The callback created by the render that follows the drop of an image
    with the given URL. *)
Definition imageDetect (s : State) (url : nat) : Closure := {|
  c_model := model s;
  c_mode := Upload;
  c_mediaFile := Some {| mediaType := Image; mediaUrl := url |};
  c_isPaused := isPaused s;
  c_settings := settings s
|}.

(** The mode button, then a dropped image, half a second of waiting, and the
    one inference of the image. *)
Definition imageSession : list Event :=
  [ (2000, ModelLoaded);
    (2016, AnimationFrame 1 webcamNotReady);
    (2500, ToggleMode);
    (2516, AnimationFrame 3 webcamNotReady) ].

(** The actions that end a pause: the pause button, and [onPlay] of the
    uploaded video with its [setIsPaused(false)]. *)
Definition resumes (a : Action) : bool :=
  match a with
  | TogglePause | VideoPlay => true
  | _ => false
  end.

(** The loop stands still: the component is paused, no frame callback is
    requested, no call is outstanding, and a timer that is set holds a
    callback that closes over the pause. *)
Definition halted (s : State) : Prop :=
  isPaused s = true /\ animationFrames s = [] /\ pending s = []
  /\ Forall (fun e => c_isPaused (snd (snd e)) = true) (timeouts s).

(** One call and its result, a pause, then the sliders and the mode button. *)
Definition pausedSession : list Event :=
  [ (2100, SetMinConfidence (7 # 10));
    (2200, ToggleMode);
    (2300, SetIouThreshold (1 # 2)) ].

(** Every callback that the browser holds or that awaits a call is the
    [detect] of the current render. *)
Definition upToDate (s : State) : Prop :=
  Forall (fun e => snd e = currentDetect s) (animationFrames s)
  /\ Forall (fun e => snd (snd e) = currentDetect s) (timeouts s)
  /\ Forall (fun e => snd e = currentDetect s) (pending s).

(** The model loads and the confidence slider is moved to 0.7. *)
Definition sliderThenFrame : list Event :=
  [ (2000, ModelLoaded);
    (2010, SetMinConfidence (7 # 10)) ].

(** ** The page of the transfer learner *)

Module LearnerUI.

Section Code.

Variable Activation : Type.
Variable Result : Type.

(** The [onChange] of a class name input. *)
Definition rename (classId : nat) (value : string)
    (s : Learner.State Activation Result) : Learner.State Activation Result :=
  Learner.set_classes
    (map (fun c => if Nat.eqb (Learner.id c) classId
                   then {| Learner.id := Learner.id c; Learner.name := value;
                           Learner.count := Learner.count c;
                           Learner.color := Learner.color c |}
                   else c)
         (Learner.classes s))
    s.

(** What can happen on the page: the actions of the component, and the
    renaming of a class. *)
Inductive Gesture : Type :=
| Core (a : Learner.Action Activation Result)
| Rename (classId : nat) (value : string).

(** A Train button and a name input exist only in the row of a class. *)
Definition hasRow (classId : nat) (s : Learner.State Activation Result) : bool :=
  existsb (fun c => Nat.eqb (Learner.id c) classId) (Learner.classes s).

Definition onPage (s : Learner.State Activation Result) (g : Gesture) : bool :=
  match g with
  | Core (Learner.Train _ classId _ _) => hasRow classId s
  | Rename classId _ => hasRow classId s
  | Core _ => true
  end.

Definition step (s : Learner.State Activation Result) (g : Gesture)
    : option (Learner.State Activation Result) :=
  if onPage s g
  then match g with
       | Core a => Learner.step s a
       | Rename classId value => Some (rename classId value s)
       end
  else None.

Fixpoint run (s : Learner.State Activation Result) (trace : list Gesture)
    : option (Learner.State Activation Result) :=
  match trace with
  | [] => Some s
  | g :: rest =>
      match step s g with
      | Some s' => run s' rest
      | None => None
      end
  end.

Definition isTrain (g : Gesture) : bool :=
  match g with
  | Core (Learner.Train _ _ _ _) => true
  | _ => false
  end.

(** The rows and the store agree: the id of a row is its position, every
    stored label is the id of a row, and a row counts the examples stored
    under its id. *)
Definition consistent (s : Learner.State Activation Result) : Prop :=
  map Learner.id (Learner.classes s) = seq 0 (List.length (Learner.classes s))
  /\ Forall (fun e => (fst e < List.length (Learner.classes s))%nat) (Learner.knn s)
  /\ Forall (fun row => Learner.count row
                        = List.length (Learner.examplesOf (Learner.id row) (Learner.knn s)))
            (Learner.classes s).

(** The prediction loop has one continuation, and a requested frame
    callback is the one [requestRef] names. *)
Definition oneLoop (s : Learner.State Activation Result) : Prop :=
  (List.length (Learner.animationFrames s) + List.length (Learner.pending s) = 1)%nat
  /\ (forall h c, In (h, c) (Learner.animationFrames s) -> Learner.requestRef s = Some h).

End Code.

(** *** The list of live predictions *)

(** An entry of [Object.entries(result.confidences)] as an object
    [{ label, confidence }]. *)
Record Item : Type := {
  label : nat;
  confidence : Q
}.

(** [item.confidence > 0.05] *)
Definition aboveFivePercent (item : Item) : bool := Qlt_bool (5 # 100) (confidence item).

(** [.sort((a, b) => b.confidence - a.confidence)].  [Array.prototype.sort]
    is a built-in of the language, which ECMAScript requires to be stable;
    it is modelled by insertion: [x] stays in front of the first [y] for
    which the comparator [y.confidence - x.confidence] is not positive. *)
Fixpoint insertItem (x : Item) (l : list Item) : list Item :=
  match l with
  | [] => [x]
  | y :: l' =>
      if Qle_bool (confidence y - confidence x) 0
      then x :: y :: l'
      else y :: insertItem x l'
  end.

Definition sortByConfidence (l : list Item) : list Item := fold_right insertItem [] l.

(** [a] may stand in front of [b] in a list sorted with that comparator. *)
Definition byConfidence (a b : Item) : Prop := confidence b <= confidence a.

(** The items rendered under Live Predictions. *)
Definition resultsList (entries : list (nat * Q)) : list Item :=
  sortByConfidence
    (filter aboveFivePercent
       (map (fun e => {| label := fst e; confidence := snd e |}) entries)).

(** [classes[item.label]?.name || `Class ${item.label}`]: an empty name is
    falsy. *)
Definition displayName (classes : list Learner.ClassRow) (fallback : string) (label : nat)
    : string :=
  match nth_error classes label with
  | Some row => if String.eqb (Learner.name row) "" then fallback else Learner.name row
  | None => fallback
  end.

End LearnerUI.

(** A session on the page: two examples for class 0, one for class 2, a new
    class, a renaming. *)
Definition teaching : list (LearnerUI.Gesture (list Q) nat) :=
  [ LearnerUI.Core (Learner.Initialised (list Q) nat);
    LearnerUI.Core (Learner.Train nat 0 (Some 4%nat) [1; 0]);
    LearnerUI.Core (Learner.Train nat 0 (Some 4%nat) [0; 1]);
    LearnerUI.Core (Learner.Train nat 2 (Some 4%nat) [1; 1]);
    LearnerUI.Core (Learner.AddClass (list Q) nat "bg-pink-500");
    LearnerUI.Rename (list Q) nat 3 "Fist" ].

Definition browsing : list (LearnerUI.Gesture (list Q) nat) :=
  [ LearnerUI.Core (Learner.AnimationFrame nat 0 (Some 4%nat) [1; 0]);
    LearnerUI.Core (Learner.Initialised (list Q) nat);
    LearnerUI.Core (Learner.AnimationFrame nat 2 (Some 4%nat) [1; 0]);
    LearnerUI.Core (Learner.Reset (list Q) nat);
    LearnerUI.Core (Learner.AddClass (list Q) nat "bg-pink-500") ].

(* ================================================================== *)
(** * Part II: properties                                              *)
(* ================================================================== *)

(** ** Comparisons on the rationals *)

Lemma Qlt_bool_true (a b : Q) : Qlt_bool a b = true -> a < b.
Proof.
  unfold Qlt_bool. intros E. apply negb_true_iff in E.
  apply Qnot_le_lt. intros L. apply Qle_bool_iff in L. congruence.
Qed.

Lemma Qlt_bool_false (a b : Q) : Qlt_bool a b = false -> b <= a.
Proof.
  unfold Qlt_bool. intros E. apply negb_false_iff in E.
  now apply Qle_bool_iff.
Qed.

Lemma Qeq_bool_false (a b : Q) : Qeq_bool a b = false -> ~ a == b.
Proof. intros E. now apply Qeq_bool_neq. Qed.

Lemma Qeq_bool_true (a b : Q) : Qeq_bool a b = true -> a == b.
Proof. apply Qeq_bool_eq. Qed.

Lemma Qeq_bool_nonzero (a : Q) : ~ a == 0 -> Qeq_bool a 0 = false.
Proof.
  intros N. destruct (Qeq_bool a 0) eqn:E; [|reflexivity].
  apply Qeq_bool_true in E. contradiction.
Qed.

(** Turns the boolean tests met in a goal into facts [lra] can use. *)
Ltac qcases :=
  repeat match goal with
  | |- context [Qlt_bool ?a ?b] =>
      let E := fresh "E" in
      destruct (Qlt_bool a b) eqn:E;
      [apply Qlt_bool_true in E | apply Qlt_bool_false in E]
  | |- context [Qeq_bool ?a ?b] =>
      let E := fresh "E" in
      destruct (Qeq_bool a b) eqn:E;
      [apply Qeq_bool_true in E | apply Qeq_bool_false in E]
  end.

(** ** Comparisons in binary64 *)

Lemma SFcompare_key (f1 f2 : spec_float) :
  f1 <> S754_nan -> f2 <> S754_nan ->
  SFcompare f1 f2 = Some (kcmp (SFkey f1) (SFkey f2)).
Proof.
  intros N1 N2.
  destruct f1 as [s1|s1| |s1 m1 e1], f2 as [s2|s2| |s2 m2 e2];
    try (now contradiction N1); try (now contradiction N2);
    try destruct s1; try destruct s2; try reflexivity.
  cbn. rewrite Z.compare_opp. rewrite (Z.compare_antisym e1 e2).
  destruct (e1 ?= e2)%Z; reflexivity.
Qed.

Lemma kcmp_lt (a b : Z * Z * Z) : kcmp a b = Lt <-> klt a b.
Proof.
  destruct a as [[a1 a2] a3], b as [[b1 b2] b3]. unfold kcmp, klt.
  destruct (Z.compare_spec a1 b1); [destruct (Z.compare_spec a2 b2);
    [destruct (Z.compare_spec a3 b3)|..]|..]; split; intros; try discriminate; try lia; auto.
Qed.

Lemma kcmp_eq (a b : Z * Z * Z) : kcmp a b = Eq <-> keq a b.
Proof.
  destruct a as [[a1 a2] a3], b as [[b1 b2] b3]. unfold kcmp, keq.
  destruct (Z.compare_spec a1 b1); [destruct (Z.compare_spec a2 b2);
    [destruct (Z.compare_spec a3 b3)|..]|..]; split; intros; try discriminate; try lia; auto.
Qed.

Lemma kcmp_gt (a b : Z * Z * Z) : kcmp a b = Gt <-> klt b a.
Proof.
  destruct a as [[a1 a2] a3], b as [[b1 b2] b3]. unfold kcmp, klt.
  destruct (Z.compare_spec a1 b1); [destruct (Z.compare_spec a2 b2);
    [destruct (Z.compare_spec a3 b3)|..]|..]; split; intros; try discriminate; try lia; auto.
Qed.

Lemma is_nan_spec (x : float) : PrimFloat.is_nan x = false <-> Prim2SF x <> S754_nan.
Proof.
  unfold PrimFloat.is_nan. rewrite FloatAxioms.eqb_spec. unfold SFeqb. split.
  - intros E N. rewrite N in E. discriminate E.
  - intros N. rewrite (@SFcompare_key _ _ N N).
    assert (H : kcmp (SFkey (Prim2SF x)) (SFkey (Prim2SF x)) = Eq).
    { apply kcmp_eq. destruct (SFkey (Prim2SF x)) as [[a b] c]. cbn. lia. }
    now rewrite H.
Qed.

(** [x < y], [x <= y] and [x === y] on numbers that are not [NaN] are the
    comparisons of their places in the order. *)
Lemma ltb_klt (x y : float) :
  PrimFloat.is_nan x = false -> PrimFloat.is_nan y = false ->
  (PrimFloat.ltb x y = true <-> klt (key x) (key y)).
Proof.
  intros Nx Ny. apply is_nan_spec in Nx. apply is_nan_spec in Ny.
  rewrite FloatAxioms.ltb_spec. unfold SFltb, key. rewrite (@SFcompare_key _ _ Nx Ny).
  rewrite <- kcmp_lt. destruct (kcmp _ _); split; intros; congruence.
Qed.

Lemma ltb_false_klt (x y : float) :
  PrimFloat.is_nan x = false -> PrimFloat.is_nan y = false ->
  (PrimFloat.ltb x y = false <-> ~ klt (key x) (key y)).
Proof.
  intros Nx Ny. rewrite <- (@ltb_klt x y Nx Ny).
  destruct (PrimFloat.ltb x y); split; intros; congruence.
Qed.

Lemma leb_klt (x y : float) :
  PrimFloat.is_nan x = false -> PrimFloat.is_nan y = false ->
  (PrimFloat.leb x y = true <-> ~ klt (key y) (key x)).
Proof.
  intros Nx Ny. apply is_nan_spec in Nx. apply is_nan_spec in Ny.
  rewrite FloatAxioms.leb_spec. unfold SFleb, key. rewrite (@SFcompare_key _ _ Nx Ny).
  rewrite <- kcmp_gt. destruct (kcmp _ _); split; intros; congruence.
Qed.

Lemma leb_false_klt (x y : float) :
  PrimFloat.is_nan x = false -> PrimFloat.is_nan y = false ->
  (PrimFloat.leb x y = false <-> klt (key y) (key x)).
Proof.
  intros Nx Ny. apply is_nan_spec in Nx. apply is_nan_spec in Ny.
  rewrite FloatAxioms.leb_spec. unfold SFleb, key. rewrite (@SFcompare_key _ _ Nx Ny).
  rewrite <- kcmp_gt. destruct (kcmp _ _); split; intros; congruence.
Qed.

Lemma eqb_keq (x y : float) :
  PrimFloat.is_nan x = false -> PrimFloat.is_nan y = false ->
  (PrimFloat.eqb x y = true <-> keq (key x) (key y)).
Proof.
  intros Nx Ny. apply is_nan_spec in Nx. apply is_nan_spec in Ny.
  rewrite FloatAxioms.eqb_spec. unfold SFeqb, key. rewrite (@SFcompare_key _ _ Nx Ny).
  rewrite <- kcmp_eq. destruct (kcmp _ _); split; intros; congruence.
Qed.

(** Turns the binary64 comparisons of the context and of the goal into
    facts about places in the order. *)
Ltac to_keys :=
  repeat match goal with
  | H : PrimFloat.ltb ?x ?y = true |- _ =>
      apply (proj1 (@ltb_klt x y ltac:(assumption) ltac:(assumption))) in H
  | H : PrimFloat.ltb ?x ?y = false |- _ =>
      apply (proj1 (@ltb_false_klt x y ltac:(assumption) ltac:(assumption))) in H
  | H : PrimFloat.leb ?x ?y = true |- _ =>
      apply (proj1 (@leb_klt x y ltac:(assumption) ltac:(assumption))) in H
  | H : PrimFloat.leb ?x ?y = false |- _ =>
      apply (proj1 (@leb_false_klt x y ltac:(assumption) ltac:(assumption))) in H
  | H : PrimFloat.eqb ?x ?y = true |- _ =>
      apply (proj1 (@eqb_keq x y ltac:(assumption) ltac:(assumption))) in H
  | |- PrimFloat.ltb ?x ?y = true =>
      apply (proj2 (@ltb_klt x y ltac:(assumption) ltac:(assumption)))
  | |- PrimFloat.ltb ?x ?y = false =>
      apply (proj2 (@ltb_false_klt x y ltac:(assumption) ltac:(assumption)))
  | |- PrimFloat.leb ?x ?y = true =>
      apply (proj2 (@leb_klt x y ltac:(assumption) ltac:(assumption)))
  | |- PrimFloat.leb ?x ?y = false =>
      apply (proj2 (@leb_false_klt x y ltac:(assumption) ltac:(assumption)))
  | |- PrimFloat.eqb ?x ?y = true =>
      apply (proj2 (@eqb_keq x y ltac:(assumption) ltac:(assumption)))
  end.

Ltac key_lia :=
  repeat match goal with
  | |- context [key ?x] =>
      let k := fresh "k" in set (k := key x) in *; clearbody k; destruct k as [[? ?] ?]
  | H : context [key ?x] |- _ =>
      let k := fresh "k" in set (k := key x) in *; clearbody k; destruct k as [[? ?] ?]
  end;
  unfold klt, keq in *; lia.

(** [Math.max] and [Math.min] of two numbers return one of them, the one
    that is not below, respectively not above, the other. *)
Lemma float_max_spec (a b : float) :
  PrimFloat.is_nan a = false -> PrimFloat.is_nan b = false ->
  (float_max a b = a \/ float_max a b = b)
  /\ PrimFloat.is_nan (float_max a b) = false
  /\ ~ klt (key (float_max a b)) (key a)
  /\ ~ klt (key (float_max a b)) (key b).
Proof.
  intros Na Nb. unfold float_max. rewrite Na, Nb. cbn [orb].
  destruct (PrimFloat.ltb a b) eqn:E1; [|destruct (PrimFloat.ltb b a) eqn:E2;
    [|destruct (PrimFloat.is_zero a && PrimFloat.get_sign a)]];
    to_keys; (split; [auto|]); (split; [assumption|]); key_lia.
Qed.

Lemma float_min_spec (a b : float) :
  PrimFloat.is_nan a = false -> PrimFloat.is_nan b = false ->
  (float_min a b = a \/ float_min a b = b)
  /\ PrimFloat.is_nan (float_min a b) = false
  /\ ~ klt (key a) (key (float_min a b))
  /\ ~ klt (key b) (key (float_min a b)).
Proof.
  intros Na Nb. unfold float_min. rewrite Na, Nb. cbn [orb].
  destruct (PrimFloat.ltb b a) eqn:E1; [|destruct (PrimFloat.ltb a b) eqn:E2;
    [|destruct (PrimFloat.is_zero a && negb (PrimFloat.get_sign a))]];
    to_keys; (split; [auto|]); (split; [assumption|]); key_lia.
Qed.

(** [Math.max(M, Math.min(r, B))] in binary64, for numbers [M], [r], [B]. *)
Lemma float_clamp (M r B : float) :
  PrimFloat.is_nan M = false -> PrimFloat.is_nan r = false -> PrimFloat.is_nan B = false ->
  let l := float_max M (float_min r B) in
  PrimFloat.is_nan l = false
  /\ PrimFloat.leb M l = true
  /\ (PrimFloat.leb l B = true <-> PrimFloat.leb M B = true)
  /\ (PrimFloat.ltb B M = true -> l = M)
  /\ (PrimFloat.leb M r = true -> PrimFloat.leb r B = true -> PrimFloat.eqb l r = true)
  /\ (PrimFloat.leb r M = true -> PrimFloat.eqb l M = true)
  /\ (PrimFloat.leb B r = true -> PrimFloat.leb M B = true -> PrimFloat.eqb l B = true).
Proof.
  intros NM Nr NB l.
  destruct (@float_min_spec r B Nr NB) as (Hm & Nm & Hm1 & Hm2).
  destruct (@float_max_spec M (float_min r B) NM Nm) as (Hl & Nl & Hl1 & Hl2).
  fold l in Hl, Nl, Hl1, Hl2.
  set (m := float_min r B) in *.
  split; [exact Nl|].
  split; [to_keys; key_lia|].
  split.
  { split; intros E; to_keys;
      destruct Hl as [Hl|Hl]; rewrite Hl in *;
      destruct Hm as [Hm|Hm]; try rewrite Hm in *; key_lia. }
  split.
  { intros E. to_keys. subst l. unfold float_max. rewrite NM, Nm. cbn [orb].
    assert (E1 : PrimFloat.ltb M m = false) by (to_keys; key_lia).
    assert (E2 : PrimFloat.ltb m M = true) by (to_keys; key_lia).
    now rewrite E1, E2. }
  split.
  { intros E1 E2. to_keys.
    destruct Hl as [Hl|Hl]; rewrite Hl in *;
      destruct Hm as [Hm|Hm]; try rewrite Hm in *; key_lia. }
  split.
  { intros E1. to_keys.
    destruct Hl as [Hl|Hl]; rewrite Hl in *;
      destruct Hm as [Hm|Hm]; try rewrite Hm in *; key_lia. }
  { intros E1 E2. to_keys.
    destruct Hl as [Hl|Hl]; rewrite Hl in *;
      destruct Hm as [Hm|Hm]; try rewrite Hm in *; key_lia. }
Qed.

(** ** The exact instance on finite arguments *)

Lemma qmax_Qmax (a b : Q) : qmax a b == Qmax a b.
Proof.
  unfold qmax. qcases.
  - symmetry. apply Q.max_r. lra.
  - symmetry. apply Q.max_l. lra.
Qed.

Lemma qmin_Qmin (a b : Q) : qmin a b == Qmin a b.
Proof.
  unfold qmin. qcases.
  - symmetry. apply Q.min_r. lra.
  - symmetry. apply Q.min_l. lra.
Qed.

Lemma num_add_fin (a b : Q) : num_add (Fin a) (Fin b) = Fin (a + b).
Proof. reflexivity. Qed.

Lemma num_sub_fin (a b : Q) : num_sub (Fin a) (Fin b) = Fin (a - b).
Proof. reflexivity. Qed.

Lemma num_mul_fin (a b : Q) : num_mul (Fin a) (Fin b) = Fin (a * b).
Proof. reflexivity. Qed.

Lemma num_div_fin (a b : Q) : Qeq_bool b 0 = false -> num_div (Fin a) (Fin b) = Fin (a / b).
Proof. intros E. simpl. now rewrite E. Qed.

Lemma num_max_fin (a b : Q) : num_max (Fin a) (Fin b) = Fin (qmax a b).
Proof. unfold num_max, qmax, num_lt. now destruct (Qlt_bool a b). Qed.

Lemma num_min_fin (a b : Q) : num_min (Fin a) (Fin b) = Fin (qmin a b).
Proof. unfold num_min, qmin, num_lt. now destruct (Qlt_bool b a). Qed.

Lemma num_lt_fin (a b : Q) : num_lt (Fin a) (Fin b) = Qlt_bool a b.
Proof. reflexivity. Qed.

Lemma two_nonzero : Qeq_bool (inject_Z 2) 0 = false.
Proof. reflexivity. Qed.

Ltac exact_ops :=
  cbn -[num_div num_max num_min num_mul num_add num_sub num_lt
        Qeq_bool Qlt_bool Qdiv Qmult Qplus Qminus inject_Z].

Lemma or_else_fin (x y : option Q) :
  exists z, JS.or_else (option_map Fin x) (option_map Fin y) = option_map Fin z.
Proof.
  unfold JS.or_else. destruct (JS.truthy_value (option_map Fin x)).
  - now exists x.
  - now exists y.
Qed.

(** On finite arguments whose source size reads are non-zero, [boundingBox]
    is [exactOverlay]. *)
Lemma boundingBox_exact (e : DOM.Element Q) (p : Prediction Q) (vw vh : Q) (c : DOM.Container Q) :
  JS.or_else (DOM.videoWidth (finElement e)) (DOM.naturalWidth (finElement e)) = Some (Fin vw) ->
  JS.or_else (DOM.videoHeight (finElement e)) (DOM.naturalHeight (finElement e)) = Some (Fin vh) ->
  ~ vw == 0 -> ~ vh == 0 ->
  DOM.parentElement e = Some c ->
  boundingBox (Some (finElement e)) (finPrediction p)
  = Some (exactOverlay vw vh (DOM.clientWidth c) (DOM.clientHeight c) p).
Proof.
  intros Hw Hh Nw Nh Hc. unfold boundingBox. rewrite Hw, Hh.
  unfold JS.truthy_value. exact_ops.
  rewrite !Qeq_bool_nonzero by assumption.
  destruct e as [a b c' d par]. cbn in Hc. subst par. exact_ops.
  repeat (rewrite ?num_div_fin, ?num_max_fin, ?num_min_fin, ?num_mul_fin,
            ?num_sub_fin, ?num_add_fin, ?num_lt_fin
            by (apply two_nonzero || (apply Qeq_bool_nonzero; assumption))).
  reflexivity.
Qed.

(** Conversely a rendered box comes from non-zero source size reads and an
    existing container. *)
Lemma boundingBox_inv (e : DOM.Element Q) (p : Prediction Q) (o : Overlay num) :
  boundingBox (Some (finElement e)) (finPrediction p) = Some o ->
  exists vw vh c,
    JS.or_else (DOM.videoWidth (finElement e)) (DOM.naturalWidth (finElement e)) = Some (Fin vw)
    /\ JS.or_else (DOM.videoHeight (finElement e)) (DOM.naturalHeight (finElement e)) = Some (Fin vh)
    /\ ~ vw == 0 /\ ~ vh == 0
    /\ DOM.parentElement e = Some c
    /\ o = exactOverlay vw vh (DOM.clientWidth c) (DOM.clientHeight c) p.
Proof.
  intros Hb.
  destruct (or_else_fin (DOM.videoWidth e) (DOM.naturalWidth e)) as [zw Hw].
  destruct (or_else_fin (DOM.videoHeight e) (DOM.naturalHeight e)) as [zh Hh].
  assert (Hw' : JS.or_else (DOM.videoWidth (finElement e)) (DOM.naturalWidth (finElement e))
                = option_map Fin zw) by (destruct e; exact Hw).
  assert (Hh' : JS.or_else (DOM.videoHeight (finElement e)) (DOM.naturalHeight (finElement e))
                = option_map Fin zh) by (destruct e; exact Hh).
  pose proof Hb as Hb0.
  unfold boundingBox in Hb. rewrite Hw', Hh' in Hb.
  destruct zw as [vw|]; [|discriminate Hb].
  destruct zh as [vh|];
    [|cbn [option_map JS.truthy_value negb orb] in Hb;
      rewrite orb_true_r in Hb; discriminate Hb].
  cbn [option_map JS.truthy_value JS.truthy num_Number num_truthy] in Hb.
  destruct (Qeq_bool vw 0) eqn:Ew; [discriminate Hb|].
  destruct (Qeq_bool vh 0) eqn:Eh; [discriminate Hb|].
  apply Qeq_bool_false in Ew. apply Qeq_bool_false in Eh.
  destruct (DOM.parentElement e) as [c|] eqn:Ec.
  - exists vw, vh, c. repeat split; try assumption.
    rewrite (boundingBox_exact e p Hw' Hh' Ew Eh Ec) in Hb0. congruence.
  - exfalso. destruct e as [a b c' d par]. cbn in Ec. subst par.
    cbn in Hb. discriminate Hb.
Qed.

(** ** What a rendered box holds, in any number type *)

Lemma truthy_value_some {T} `{JS.Number T} (v : option T) :
  JS.truthy_value v = true -> exists x, v = Some x /\ JS.truthy x = true.
Proof. destruct v as [x|]; cbn; [eauto | discriminate]. Qed.

Section Shape.

Context {T : Type} `{JS.Number T}.
Local Open Scope js_scope.

(** A box is rendered only past the guards, and its fields are the
    expressions of the source. *)
Lemma boundingBox_shape (element : DOM.Element T) (p : Prediction T) (o : Overlay T) :
  boundingBox (Some element) p = Some o ->
  exists vw vh c,
    JS.or_else (DOM.videoWidth element) (DOM.naturalWidth element) = Some vw
    /\ JS.truthy vw = true
    /\ JS.or_else (DOM.videoHeight element) (DOM.naturalHeight element) = Some vh
    /\ JS.truthy vh = true
    /\ DOM.parentElement element = Some c
    /\ scale o = JS.math_max (DOM.clientWidth c / vw) (DOM.clientHeight c / vh)
    /\ offsetX o = (DOM.clientWidth c - vw * scale o) / JS.lit 2
    /\ offsetY o = (DOM.clientHeight c - vh * scale o) / JS.lit 2
    /\ CSS.left (rawStyle o) = bbox0 p * scale o + offsetX o
    /\ CSS.top (rawStyle o) = bbox1 p * scale o + offsetY o
    /\ CSS.width (rawStyle o) = bbox2 p * scale o
    /\ CSS.height (rawStyle o) = bbox3 p * scale o
    /\ CSS.left (clampedStyle o)
       = JS.math_max MARGIN
           (JS.math_min (CSS.left (rawStyle o))
              (DOM.clientWidth c - CSS.width (rawStyle o) - MARGIN))
    /\ CSS.top (clampedStyle o)
       = JS.math_max MARGIN
           (JS.math_min (CSS.top (rawStyle o))
              (DOM.clientHeight c - CSS.height (rawStyle o) - MARGIN))
    /\ CSS.width (clampedStyle o) = CSS.width (rawStyle o)
    /\ CSS.height (clampedStyle o) = CSS.height (rawStyle o)
    /\ CSS.maxWidth (clampedStyle o)
       = Some (DOM.clientWidth c - CSS.left (clampedStyle o) - MARGIN)
    /\ CSS.maxHeight (clampedStyle o)
       = Some (DOM.clientHeight c - CSS.top (clampedStyle o) - MARGIN)
    /\ isNearTop o = JS.lt (CSS.top (clampedStyle o)) (JS.lit 40).
Proof.
  unfold boundingBox. intros Hb.
  destruct (JS.truthy_value (JS.or_else (DOM.videoWidth element) (DOM.naturalWidth element)))
    eqn:Ew; cbn [negb orb] in Hb; [|discriminate Hb].
  destruct (JS.truthy_value (JS.or_else (DOM.videoHeight element) (DOM.naturalHeight element)))
    eqn:Eh; cbn [negb orb] in Hb; [|discriminate Hb].
  apply truthy_value_some in Ew. destruct Ew as (vw & Ew & Tw).
  apply truthy_value_some in Eh. destruct Eh as (vh & Eh & Th).
  rewrite Ew, Eh in Hb.
  destruct (DOM.parentElement element) as [c|]; [|discriminate Hb].
  injection Hb as <-. exists vw, vh, c. cbn.
  repeat split; assumption.
Qed.

End Shape.

(** The clamped style in binary64, where [MARGIN] is the double 10. *)
Lemma float_clamp_of (element : DOM.Element float) (p : Prediction float)
    (c : DOM.Container float) (o : Overlay float) :
  boundingBox (Some element) p = Some o ->
  DOM.parentElement element = Some c ->
  CSS.left (clampedStyle o)
  = float_max 10 (float_min (CSS.left (rawStyle o))
                    (DOM.clientWidth c - CSS.width (rawStyle o) - 10)%float)
  /\ CSS.top (clampedStyle o)
     = float_max 10 (float_min (CSS.top (rawStyle o))
                       (DOM.clientHeight c - CSS.height (rawStyle o) - 10)%float)
  /\ CSS.width (clampedStyle o) = CSS.width (rawStyle o)
  /\ CSS.height (clampedStyle o) = CSS.height (rawStyle o)
  /\ CSS.maxWidth (clampedStyle o)
     = Some (DOM.clientWidth c - CSS.left (clampedStyle o) - 10)%float
  /\ CSS.maxHeight (clampedStyle o)
     = Some (DOM.clientHeight c - CSS.top (clampedStyle o) - 10)%float.
Proof.
  intros Hb Hc.
  destruct (@boundingBox_shape _ _ element p o Hb)
    as (vw & vh & c' & _ & _ & _ & _ & Hc' & _ & _ & _ & _ & _ & _ & _
        & Hl & Ht & Hw & Hh & Hmw & Hmh & _).
  assert (c' = c) by congruence. subst c'.
  repeat split; assumption.
Qed.

(** ** The cover-fit transform *)

(** C4.  For every detection box and every source and container size with
    non-zero source dimensions, the overlay code computes the raw display box
    by the cover-fit formula of the specification: [scale] is the larger of
    the two container/source ratios, the offsets centre the scaled source,
    and the raw box is the detection box scaled and shifted.  For the 640x480
    source in the 800x450 container the scale is 1.25 and the box
    (100,100,50,50) has raw left 125 + offsetX (the offset being 0), both in
    exact arithmetic and in binary64. *)
Theorem cover_fit_formula :
  (forall (e : DOM.Element Q) (p : Prediction Q) (vw vh : Q) (c : DOM.Container Q),
      JS.or_else (DOM.videoWidth (finElement e)) (DOM.naturalWidth (finElement e))
        = Some (Fin vw) ->
      JS.or_else (DOM.videoHeight (finElement e)) (DOM.naturalHeight (finElement e))
        = Some (Fin vh) ->
      ~ vw == 0 -> ~ vh == 0 ->
      DOM.parentElement e = Some c ->
      let cw := DOM.clientWidth c in
      let ch := DOM.clientHeight c in
      let k := SpecMapper.scale vw vh cw ch in
      let ox := SpecMapper.offsetX vw vh cw ch in
      let oy := SpecMapper.offsetY vw vh cw ch in
      exists o,
        boundingBox (Some (finElement e)) (finPrediction p) = Some o
        /\ num_eq (scale o) (Fin k)
        /\ num_eq (offsetX o) (Fin ox)
        /\ num_eq (offsetY o) (Fin oy)
        /\ num_eq (CSS.left (rawStyle o)) (Fin (bbox0 p * k + ox))
        /\ num_eq (CSS.top (rawStyle o)) (Fin (bbox1 p * k + oy))
        /\ num_eq (CSS.width (rawStyle o)) (Fin (bbox2 p * k))
        /\ num_eq (CSS.height (rawStyle o)) (Fin (bbox3 p * k)))
  /\ (exists o,
        boundingBox (Some (finElement specElementQ)) (finPrediction specBoxQ) = Some o
        /\ num_eq (scale o) (Fin (5 # 4))
        /\ num_eq (offsetX o) (Fin 0)
        /\ num_eq (CSS.left (rawStyle o)) (num_add (Fin 125) (offsetX o))
        /\ num_eq (CSS.left (rawStyle o)) (Fin 125))
  /\ (exists o,
        boundingBox (Some specElementF) specBoxF = Some o
        /\ scale o = 1.25%float
        /\ offsetX o = 0%float
        /\ CSS.left (rawStyle o) = PrimFloat.add 125%float (offsetX o)
        /\ CSS.left (rawStyle o) = 125%float).
Proof.
  split; [|split].
  - intros e p vw vh c Hw Hh Nw Nh Hc cw ch k ox oy.
    eexists. split; [exact (boundingBox_exact e p Hw Hh Nw Nh Hc)|].
    subst k ox oy cw ch.
    unfold SpecMapper.offsetX, SpecMapper.offsetY, SpecMapper.scale.
    cbn [exactOverlay scale offsetX offsetY rawStyle CSS.left CSS.top CSS.width CSS.height num_eq].
    change (inject_Z 2) with 2.
    repeat split; rewrite ?qmax_Qmax; reflexivity.
  - eexists. split; [reflexivity|]. cbn. repeat split; reflexivity.
  - eexists. split; [reflexivity|]. cbn. repeat split; reflexivity.
Qed.

Lemma cover_fit_formula_witness :
  exists o,
    boundingBox (Some (finElement specElementQ)) (finPrediction specBoxQ) = Some o
    /\ num_eq (scale o) (Fin (SpecMapper.scale 640 480 800 450))
    /\ num_eq (CSS.left (rawStyle o))
         (Fin (100 * SpecMapper.scale 640 480 800 450 + SpecMapper.offsetX 640 480 800 450)).
Proof.
  destruct (proj1 cover_fit_formula specElementQ specBoxQ 640 480
              {| DOM.clientWidth := 800; DOM.clientHeight := 450 |})
    as [o (Ho & Hk & _ & _ & Hl & _)];
    try reflexivity; try (intros E; vm_compute in E; discriminate E).
  exists o. repeat split; assumption.
Defined.

(** ** Clamping *)

(** The claim C5 as stated fails on a box wider than the container less its
    two margins: the detection covering the whole 640x480 source, shown in
    the 800x450 container, is 800 wide at left 10, so that left + width is
    810 and exceeds 800 - 10; the same values come out in binary64. *)
Lemma clamp_right_edge_counterexample :
  (exists o l w,
      boundingBox (Some (finElement specElementQ)) (finPrediction fullFrameQ) = Some o
      /\ CSS.left (clampedStyle o) = Fin l
      /\ CSS.width (clampedStyle o) = Fin w
      /\ l == 10 /\ w == 800
      /\ ~ l + w <= 800 - 10)
  /\ (exists o,
        boundingBox (Some specElementF) fullFrameF = Some o
        /\ CSS.left (clampedStyle o) = 10%float
        /\ CSS.width (clampedStyle o) = 800%float
        /\ PrimFloat.leb (PrimFloat.add (CSS.left (clampedStyle o)) (CSS.width (clampedStyle o)))
                         (PrimFloat.sub 800 10) = false).
Proof.
  split.
  - do 3 eexists. split; [reflexivity|]. cbn.
    split; [reflexivity|]. split; [reflexivity|].
    split; [reflexivity|]. split; [reflexivity|].
    intros L. vm_compute in L. now apply L.
  - eexists. split; [reflexivity|]. cbn. repeat split; reflexivity.
Qed.

(** The clamp in exact arithmetic. *)
Lemma clamp_exact (e : DOM.Element Q) (p : Prediction Q) (c : DOM.Container Q)
    (o : Overlay num) :
  boundingBox (Some (finElement e)) (finPrediction p) = Some o ->
  DOM.parentElement e = Some c ->
  let cw := DOM.clientWidth c in
  let ch := DOM.clientHeight c in
  exists M l t w h mw mh,
    MARGIN = Fin M /\ M == 10
    /\ CSS.left (clampedStyle o) = Fin l
    /\ CSS.top (clampedStyle o) = Fin t
    /\ CSS.width (clampedStyle o) = Fin w
    /\ CSS.height (clampedStyle o) = Fin h
    /\ CSS.maxWidth (clampedStyle o) = Some (Fin mw)
    /\ CSS.maxHeight (clampedStyle o) = Some (Fin mh)
    /\ M <= l /\ M <= t
    /\ (l + w <= cw - M <-> w <= cw - 2 * M)
    /\ (t + h <= ch - M <-> h <= ch - 2 * M)
    /\ l + mw == cw - M
    /\ t + mh == ch - M.
Proof.
  intros Hb Hc cw ch.
  destruct (boundingBox_inv e p Hb) as (vw & vh & c' & _ & _ & _ & _ & Hc' & ->).
  assert (c' = c) by congruence. subst c'.
  do 7 eexists.
  cbn [exactOverlay clampedStyle CSS.left CSS.top CSS.width CSS.height
       CSS.maxWidth CSS.maxHeight].
  do 8 (split; [reflexivity|]).
  subst cw ch.
  generalize (DOM.clientWidth c) (DOM.clientHeight c). intros cw ch.
  change (inject_Z 10) with 10. change (inject_Z 2) with 2.
  set (k := qmax (cw / vw) (ch / vh)).
  set (ox := (cw - vw * k) / 2). set (oy := (ch - vh * k) / 2).
  set (w := bbox2 p * k). set (h := bbox3 p * k).
  set (rl := bbox0 p * k + ox). set (rt := bbox1 p * k + oy).
  clearbody w h rl rt.
  unfold qmax, qmin.
  repeat split; qcases; lra.
Qed.

(** C5 (amended).  In binary64, the arithmetic of the code, for every box
    that is rendered and whose raw left and far bound
    [containerWidth - width - 10], as the code computes it, are numbers:
    10 <= left, and left is at most the far bound exactly when the far bound
    is at least 10; likewise for top with the height; width and height are the
    raw ones, and the caps are [containerWidth - left - 10] and
    [containerHeight - top - 10].  In exact arithmetic this reads:
    left + width <= containerWidth - 10 exactly when the raw width is at most
    containerWidth - 20, and left + maxWidth = containerWidth - 10.  In
    binary64 the far bound and the sum are rounded, so that left + width can
    exceed containerWidth - 10 although the width is at most containerWidth -
    20: for the box (638,100,2,50) of a 640x480 source in a 516x290
    container, left + width is 506.00000000000006. *)
Theorem clamp_within_margins :
  (forall (element : DOM.Element float) (p : Prediction float) (c : DOM.Container float)
          (o : Overlay float),
      boundingBox (Some element) p = Some o ->
      DOM.parentElement element = Some c ->
      let farLeft := (DOM.clientWidth c - CSS.width (rawStyle o) - 10)%float in
      let farTop := (DOM.clientHeight c - CSS.height (rawStyle o) - 10)%float in
      (PrimFloat.is_nan (CSS.left (rawStyle o)) = false ->
       PrimFloat.is_nan farLeft = false ->
       PrimFloat.leb 10 (CSS.left (clampedStyle o)) = true
       /\ (PrimFloat.leb (CSS.left (clampedStyle o)) farLeft = true
           <-> PrimFloat.leb 10 farLeft = true))
      /\ (PrimFloat.is_nan (CSS.top (rawStyle o)) = false ->
          PrimFloat.is_nan farTop = false ->
          PrimFloat.leb 10 (CSS.top (clampedStyle o)) = true
          /\ (PrimFloat.leb (CSS.top (clampedStyle o)) farTop = true
              <-> PrimFloat.leb 10 farTop = true))
      /\ CSS.width (clampedStyle o) = CSS.width (rawStyle o)
      /\ CSS.height (clampedStyle o) = CSS.height (rawStyle o)
      /\ CSS.maxWidth (clampedStyle o)
         = Some (DOM.clientWidth c - CSS.left (clampedStyle o) - 10)%float
      /\ CSS.maxHeight (clampedStyle o)
         = Some (DOM.clientHeight c - CSS.top (clampedStyle o) - 10)%float)
  /\ (forall (e : DOM.Element Q) (p : Prediction Q) (c : DOM.Container Q) (o : Overlay num),
        boundingBox (Some (finElement e)) (finPrediction p) = Some o ->
        DOM.parentElement e = Some c ->
        let cw := DOM.clientWidth c in
        let ch := DOM.clientHeight c in
        exists M l t w h mw mh,
          MARGIN = Fin M /\ M == 10
          /\ CSS.left (clampedStyle o) = Fin l
          /\ CSS.top (clampedStyle o) = Fin t
          /\ CSS.width (clampedStyle o) = Fin w
          /\ CSS.height (clampedStyle o) = Fin h
          /\ CSS.maxWidth (clampedStyle o) = Some (Fin mw)
          /\ CSS.maxHeight (clampedStyle o) = Some (Fin mh)
          /\ M <= l /\ M <= t
          /\ (l + w <= cw - M <-> w <= cw - 2 * M)
          /\ (t + h <= ch - M <-> h <= ch - 2 * M)
          /\ l + mw == cw - M
          /\ t + mh == ch - M)
  /\ (exists o,
        boundingBox (Some roundingElementF) roundingBoxF = Some o
        /\ PrimFloat.leb (CSS.width (clampedStyle o)) (516 - 2 * 10)%float = true
        /\ PrimFloat.leb (CSS.left (clampedStyle o) + CSS.width (clampedStyle o))%float
                         (516 - 10)%float = false).
Proof.
  split; [|split].
  - intros element p c o Hb Hc farLeft farTop.
    destruct (@float_clamp_of element p c o Hb Hc) as (Hl & Ht & Hw & Hh & Hmw & Hmh).
    split; [|split; [|now repeat split]].
    + intros N1 N2. rewrite Hl. fold farLeft.
      destruct (@float_clamp 10 (CSS.left (rawStyle o)) farLeft eq_refl N1 N2)
        as (_ & H1 & H2 & _).
      split; assumption.
    + intros N1 N2. rewrite Ht. fold farTop.
      destruct (@float_clamp 10 (CSS.top (rawStyle o)) farTop eq_refl N1 N2)
        as (_ & H1 & H2 & _).
      split; assumption.
  - intros e p c o Hb Hc. exact (@clamp_exact e p c o Hb Hc).
  - eexists. split; [reflexivity|]. split; reflexivity.
Qed.

Lemma clamp_within_margins_witness :
  exists o,
    boundingBox (Some roundingElementF) roundingBoxF = Some o
    /\ PrimFloat.leb 10 (CSS.left (clampedStyle o)) = true
    /\ PrimFloat.leb (CSS.left (clampedStyle o))
                     (516 - CSS.width (rawStyle o) - 10)%float = true
    /\ PrimFloat.leb 10 (CSS.top (clampedStyle o)) = true.
Proof.
  destruct (boundingBox (Some roundingElementF) roundingBoxF) as [o|] eqn:E;
    [|vm_compute in E; discriminate E].
  exists o. split; [reflexivity|].
  destruct (proj1 clamp_within_margins roundingElementF roundingBoxF
              {| DOM.clientWidth := 516%float; DOM.clientHeight := 290%float |} o E eq_refl)
    as (Hx & Hy & _).
  assert (N : PrimFloat.is_nan (CSS.left (rawStyle o)) = false
              /\ PrimFloat.is_nan (516 - CSS.width (rawStyle o) - 10)%float = false
              /\ PrimFloat.is_nan (CSS.top (rawStyle o)) = false
              /\ PrimFloat.is_nan (290 - CSS.height (rawStyle o) - 10)%float = false
              /\ PrimFloat.leb 10 (516 - CSS.width (rawStyle o) - 10)%float = true).
  { pose proof E as E'. vm_compute in E'. injection E' as <-. repeat split; reflexivity. }
  destruct N as (N1 & N2 & N3 & N4 & L).
  destruct (Hx N1 N2) as [H1 H2]. destruct (Hy N3 N4) as [H3 _].
  split; [exact H1|]. split; [apply H2; exact L | exact H3].
Defined.

(** ** Unavailable geometry *)

(** The claim C8 as stated fails for a container that exists but has not been
    laid out: with client size 0x0 the code does not return null, it renders
    a degenerate box pinned at the margin. *)
Lemma collapsed_container_counterexample :
  (exists o,
      boundingBox (Some (finElement collapsedElementQ)) (finPrediction specBoxQ) = Some o)
  /\ (exists o,
        boundingBox (Some collapsedElementF) specBoxF = Some o
        /\ CSS.left (clampedStyle o) = 10%float
        /\ CSS.width (clampedStyle o) = 0%float
        /\ CSS.maxWidth (clampedStyle o) = Some (-20)%float).
Proof.
  split.
  - eexists. reflexivity.
  - eexists. split; [reflexivity|]. cbn. repeat split; reflexivity.
Qed.

Lemma exactOverlay_finite (vw vh cw ch : Q) (p : Prediction Q) :
  finiteOverlay (exactOverlay vw vh cw ch p).
Proof.
  unfold finiteOverlay, finiteStyle. cbn.
  repeat split; try exact I; intros m E; try discriminate E;
    injection E as <-; exact I.
Qed.

(** C8 (amended).  For every detection, in any number type: when the element
    is missing, the mapper returns null; for an existing element it returns
    null exactly when a source dimension read ([videoWidth || naturalWidth],
    [videoHeight || naturalHeight]) is zero, NaN or undefined, or the
    element has no container; returning null skips that detection in this
    render only, since every render maps the current prediction list afresh.
    The size of an existing container is not tested.  When a box is produced,
    both divisors of the scale are numbers other than zero and NaN: no
    division by zero occurs.  In exact arithmetic the geometry of a box
    produced from finite inputs is finite.  In binary64 it need not be: a box
    of width 2^1023 shown at scale 2 has width Infinity, and a source of size
    2^-1000 in a container of size 2^1000 gives scale Infinity and a NaN
    position. *)
Theorem unavailable_dimensions_skip :
  (forall (T : Type) (N : JS.Number T) (p : Prediction T), boundingBox None p = None)
  /\ (forall (T : Type) (N : JS.Number T) (element : DOM.Element T) (p : Prediction T),
        boundingBox (Some element) p = None
        <-> (JS.truthy_value (JS.or_else (DOM.videoWidth element) (DOM.naturalWidth element))
              = false
             \/ JS.truthy_value (JS.or_else (DOM.videoHeight element) (DOM.naturalHeight element))
                = false
             \/ DOM.parentElement element = None))
  /\ (forall (T : Type) (N : JS.Number T) (element : DOM.Element T) (ps : list (Prediction T)),
        JS.truthy_value (JS.or_else (DOM.videoWidth element) (DOM.naturalWidth element)) = false
        \/ JS.truthy_value (JS.or_else (DOM.videoHeight element) (DOM.naturalHeight element))
           = false
        \/ DOM.parentElement element = None ->
        Forall (fun r => r = None) (overlays (Some element) ps))
  /\ (forall (T : Type) (N : JS.Number T) (element : DOM.Element T) (p : Prediction T)
             (o : Overlay T),
        boundingBox (Some element) p = Some o ->
        exists vw vh c,
          JS.or_else (DOM.videoWidth element) (DOM.naturalWidth element) = Some vw
          /\ JS.truthy vw = true
          /\ JS.or_else (DOM.videoHeight element) (DOM.naturalHeight element) = Some vh
          /\ JS.truthy vh = true
          /\ DOM.parentElement element = Some c
          /\ scale o = JS.math_max (JS.div (DOM.clientWidth c) vw)
                                   (JS.div (DOM.clientHeight c) vh))
  /\ (forall (e : DOM.Element Q) (p : Prediction Q) (o : Overlay num),
        boundingBox (Some (finElement e)) (finPrediction p) = Some o -> finiteOverlay o)
  /\ (exists o,
        boundingBox (Some doubleElementF) hugeBoxF = Some o
        /\ PrimFloat.is_finite (bbox2 hugeBoxF) = true
        /\ scale o = 2%float
        /\ CSS.width (rawStyle o) = infinity)
  /\ (exists o,
        boundingBox (Some extremeElementF) unitBoxF = Some o
        /\ scale o = infinity
        /\ PrimFloat.is_nan (CSS.left (clampedStyle o)) = true).
Proof.
  assert (G : forall (T : Type) (N : JS.Number T) (element : DOM.Element T) (p : Prediction T),
        boundingBox (Some element) p = None
        <-> (JS.truthy_value (JS.or_else (DOM.videoWidth element) (DOM.naturalWidth element))
              = false
             \/ JS.truthy_value (JS.or_else (DOM.videoHeight element) (DOM.naturalHeight element))
                = false
             \/ DOM.parentElement element = None)).
  { intros T N element p. unfold boundingBox.
    destruct (JS.truthy_value (JS.or_else (DOM.videoWidth element) (DOM.naturalWidth element)))
      eqn:Ew; cbn [negb orb].
    2:{ split; auto. }
    destruct (JS.truthy_value (JS.or_else (DOM.videoHeight element) (DOM.naturalHeight element)))
      eqn:Eh; cbn [negb orb].
    2:{ split; auto. }
    apply truthy_value_some in Ew. destruct Ew as (w & -> & _).
    apply truthy_value_some in Eh. destruct Eh as (h & -> & _).
    destruct (DOM.parentElement element) as [c|].
    - split; [discriminate|]. intros [E|[E|E]]; discriminate E.
    - split; auto. }
  split; [reflexivity|]. split; [exact G|]. split; [|split; [|split; [|split]]].
  - intros T N element ps Hn.
    unfold overlays. apply Forall_forall. intros r Hr.
    apply in_map_iff in Hr. destruct Hr as (p & <- & _). now apply G.
  - intros T N element p o Hb.
    destruct (@boundingBox_shape T N element p o Hb)
      as (vw & vh & c & Hw & Tw & Hh & Th & Hc & Hs & _).
    exists vw, vh, c. repeat split; assumption.
  - intros e p o Hb.
    destruct (boundingBox_inv e p Hb) as (vw & vh & c & _ & _ & _ & _ & _ & ->).
    apply exactOverlay_finite.
  - eexists. split; [reflexivity|]. repeat split; reflexivity.
  - eexists. split; [reflexivity|]. repeat split; reflexivity.
Qed.

Lemma unavailable_dimensions_skip_witness :
  boundingBox (Some (finElement notLoadedElementQ)) (finPrediction specBoxQ) = None.
Proof.
  apply (proj1 (proj2 unavailable_dimensions_skip)).
  left. reflexivity.
Defined.

(** ** The browser's queues *)

Lemma take_length {A} (h : nat) (q : list (nat * A)) (a : A) (rest : list (nat * A)) :
  take h q = Some (a, rest) -> List.length q = S (List.length rest).
Proof.
  revert rest. induction q as [|[h' b] q IH]; intros rest E; cbn in E.
  - discriminate E.
  - destruct (Nat.eqb h' h).
    + injection E as <- <-. reflexivity.
    + destruct (take h q) as [[b' rest']|]; [|discriminate E].
      injection E as <- <-. cbn. f_equal. now apply IH.
Qed.

Lemma take_incl {A} (h : nat) (q : list (nat * A)) (a : A) (rest : list (nat * A)) :
  take h q = Some (a, rest) -> In (h, a) q /\ incl rest q.
Proof.
  revert rest. induction q as [|[h' b] q IH]; intros rest E; cbn in E.
  - discriminate E.
  - destruct (Nat.eqb h' h) eqn:Eh.
    + injection E as <- <-. apply Nat.eqb_eq in Eh. subst h'.
      split; [now left | apply incl_tl, incl_refl].
    + destruct (take h q) as [[b' rest']|]; [|discriminate E].
      injection E as <- <-. destruct (IH rest' eq_refl) as [Hin Hincl].
      split; [now right|]. intros x [<-|Hx]; [now left | right; now apply Hincl].
Qed.

Lemma take_fresh {A} (h : nat) (q : list (nat * A)) (a : A) :
  Forall (fun e => fst e <> h) q -> take h (q ++ [(h, a)]) = Some (a, q).
Proof.
  induction 1 as [|[h' b] q Hne _ IH]; cbn.
  - now rewrite Nat.eqb_refl.
  - cbn in Hne. apply Nat.eqb_neq in Hne. now rewrite Hne, IH.
Qed.

Lemma without_named {A} (h : nat) (q : list (nat * A)) :
  (forall h' a, In (h', a) q -> h' = h) -> without h q = [].
Proof.
  induction q as [|[h' a] q IH]; intros Hall; [reflexivity|]. cbn.
  rewrite (Hall h' a (or_introl eq_refl)), Nat.eqb_refl. cbn.
  apply IH. intros h'' b Hin. apply (Hall h'' b). now right.
Qed.

(** ** Non-overlap *)

(** The claim C1 as stated fails: moving the confidence slider while call 0
    is outstanding re-runs the effect, whose new callback issues call 1 at
    2066 ms before call 0 has settled. *)
Lemma overlap_counterexample :
  exists s c0 c1,
    run mounted sliderDuringCall = Some s
    /\ pending s = [(0%nat, c0); (1%nat, c1)]
    /\ map callId (calls s) = [1%nat; 0%nat]
    /\ applied s = [] /\ errors s = [].
Proof. do 3 eexists. vm_compute. repeat split; reflexivity. Qed.

(** A timer is not cancelled by the clean-up of the effect either: two
    one-shot timers set by two runs of the effect both fire, and the second
    callback calls the model while the call of the first is outstanding. *)
Lemma overlap_by_timers :
  exists s c0 c1,
    run mounted sliderBeforeTimer = Some s
    /\ pending s = [(0%nat, c0); (1%nat, c1)]
    /\ map callTime (calls s) = [3600; 3500].
Proof. do 3 eexists. vm_compute. repeat split; reflexivity. Qed.

Lemma idle_requestAnimationFrame (c : Closure) (s : State) :
  idle s -> singleFlow (requestAnimationFrame c s).
Proof.
  intros (Ha & Ht & Hp). unfold singleFlow, requestAnimationFrame. cbn.
  rewrite Ha, Ht, Hp. cbn. split; [lia|].
  intros h c' [E|[]]. now injection E as <- <-.
Qed.

Lemma idle_singleFlow (s : State) : idle s -> singleFlow s.
Proof.
  intros (Ha & Ht & Hp). unfold singleFlow. rewrite Ha, Ht, Hp. cbn.
  split; [lia | intros h c []].
Qed.

Lemma idle_rearm (c : Closure) (s : State) : idle s -> singleFlow (rearm c s).
Proof.
  intros Hi. unfold rearm.
  destruct (isLive (c_mode c) || (isUpload (c_mode c) && isVideo (c_mediaFile c))).
  - now apply idle_requestAnimationFrame.
  - now apply idle_singleFlow.
Qed.

Lemma idle_detect (c : Closure) (now : Q) (refs : Refs) (s : State) :
  idle s -> singleFlow (detect c now refs s).
Proof.
  intros Hi. unfold detect.
  destruct (c_isPaused c || negb (isSome (c_model c))); [now apply idle_singleFlow|].
  destruct (Qlt_bool (now - lastFrameTime s) 41); [now apply idle_requestAnimationFrame|].
  destruct (selectVideoEl c refs) as [videoEl|].
  - destruct Hi as (Ha & Ht & Hp).
    unfold singleFlow, modelDetect.
    destruct (Qle_bool 1000 _); cbn; rewrite Ha, Ht, Hp; cbn;
      (split; [lia | intros h c' []]).
  - apply idle_rearm. exact Hi.
Qed.

Lemma idle_detectResume (c : Closure) (k : nat) (o : Outcome) (s : State) :
  idle s -> singleFlow (detectResume c k o s).
Proof.
  intros Hi. unfold detectResume. apply idle_rearm. destruct o; exact Hi.
Qed.

Lemma idle_effect (s : State) : idle s -> singleFlow (effect s).
Proof.
  intros Hi. unfold effect.
  destruct (isUpload (mode s) && isImage (mediaFile s) && isSome (model s)).
  - destruct Hi as (Ha & Ht & Hp). unfold singleFlow, setTimeout. cbn.
    rewrite Ha, Ht, Hp. cbn. split; [lia | intros h c []].
  - destruct (negb (isPaused s)).
    + now apply idle_requestAnimationFrame.
    + now apply idle_singleFlow.
Qed.

(** The clean-up of the effect removes the only requested callback when no
    call is outstanding and no timer is set. *)
Lemma quiet_cancel (s : State) :
  singleFlow s -> pending s = [] -> timeouts s = [] -> idle (cancelAnimationFrame s).
Proof.
  intros [Hlen Hreq] Hp Ht. unfold idle, cancelAnimationFrame.
  destruct (requestRef s) as [h|] eqn:Er; cbn.
  - repeat split; try assumption.
    apply without_named. intros h' a Hin.
    specialize (Hreq h' a Hin). congruence.
  - repeat split; try assumption.
    destruct (animationFrames s) as [|[h a] q]; [reflexivity|].
    specialize (Hreq h a (or_introl eq_refl)). discriminate Hreq.
Qed.

Lemma singleFlow_took_frame (s s0 : State) (h : nat) (c : Closure) (rest : list (nat * Closure)) :
  singleFlow s ->
  take h (animationFrames s) = Some (c, rest) ->
  animationFrames s0 = rest -> timeouts s0 = timeouts s -> pending s0 = pending s ->
  idle s0.
Proof.
  intros [Hlen _] Ht Ea Et Ep. apply take_length in Ht.
  unfold idle. rewrite Ea, Et, Ep.
  destruct rest; [|cbn in Ht; lia].
  destruct (timeouts s); [|cbn in Hlen; lia].
  destruct (pending s); [|cbn in Hlen; lia].
  auto.
Qed.

Lemma singleFlow_took_timeout (s s0 : State) (h : nat) (x : Q * Closure)
    (rest : list (nat * (Q * Closure))) :
  singleFlow s ->
  take h (timeouts s) = Some (x, rest) ->
  animationFrames s0 = animationFrames s -> timeouts s0 = rest -> pending s0 = pending s ->
  idle s0.
Proof.
  intros [Hlen _] Ht Ea Et Ep. apply take_length in Ht.
  unfold idle. rewrite Ea, Et, Ep.
  destruct rest; [|cbn in Ht; lia].
  destruct (animationFrames s); [|cbn in Hlen; lia].
  destruct (pending s); [|cbn in Hlen; lia].
  auto.
Qed.

Lemma singleFlow_took_call (s s0 : State) (k : nat) (c : Closure) (rest : list (nat * Closure)) :
  singleFlow s ->
  take k (pending s) = Some (c, rest) ->
  animationFrames s0 = animationFrames s -> timeouts s0 = timeouts s -> pending s0 = rest ->
  idle s0.
Proof.
  intros [Hlen _] Ht Ea Et Ep. apply take_length in Ht.
  unfold idle. rewrite Ea, Et, Ep.
  destruct rest; [|cbn in Ht; lia].
  destruct (animationFrames s); [|cbn in Hlen; lia].
  destruct (timeouts s); [|cbn in Hlen; lia].
  auto.
Qed.

(** A re-render that keeps the queues and [requestRef] and is followed by the
    effect keeps the flow single, when it happens in a quiet state. *)
Lemma quiet_rerunEffect (s s0 : State) :
  singleFlow s -> pending s = [] -> timeouts s = [] ->
  animationFrames s0 = animationFrames s -> timeouts s0 = timeouts s ->
  pending s0 = pending s -> requestRef s0 = requestRef s ->
  singleFlow (rerunEffect s0).
Proof.
  intros Hs Hp Ht Ea Et Ep Er. unfold rerunEffect. apply idle_effect.
  apply quiet_cancel.
  - unfold singleFlow. rewrite Ea, Et, Ep, Er. exact Hs.
  - congruence.
  - congruence.
Qed.

Lemma calm_quiet (s : State) (a : Action) :
  calm s a = true -> rerunsEffect s a = true -> pending s = [] /\ timeouts s = [].
Proof.
  unfold calm. intros Hc Hr. rewrite Hr in Hc.
  destruct (pending s); [|discriminate Hc].
  destruct (timeouts s); [|discriminate Hc]. auto.
Qed.

Lemma step_singleFlow (s s' : State) (e : Event) :
  singleFlow s -> calm s (snd e) = true -> step s e = Some s' -> singleFlow s'.
Proof.
  intros Hs Hcalm Hstep. destruct e as [now a]. cbn [snd] in Hcalm.
  unfold step in Hstep.
  destruct (Qlt_bool now (clock s)); [discriminate Hstep|].
  destruct a as [h refs|h refs|k o| | | |t url| | |v|v].
  - cbn in Hstep. destruct (take h (animationFrames s)) as [[c rest]|] eqn:Et;
      [|discriminate Hstep].
    injection Hstep as <-. apply idle_detect.
    eapply singleFlow_took_frame; eauto.
  - cbn in Hstep. destruct (take h (timeouts s)) as [[[due c] rest]|] eqn:Et;
      [|discriminate Hstep].
    destruct (Qlt_bool now due); [discriminate Hstep|].
    injection Hstep as <-. apply idle_detect.
    eapply singleFlow_took_timeout; eauto.
  - cbn in Hstep. destruct (take k (pending s)) as [[c rest]|] eqn:Et;
      [|discriminate Hstep].
    injection Hstep as <-. apply idle_detectResume.
    eapply singleFlow_took_call; eauto.
  - destruct (calm_quiet s ModelLoaded Hcalm eq_refl) as [Hp Ht].
    cbn in Hstep. destruct (model s); [discriminate Hstep|].
    injection Hstep as <-. eapply quiet_rerunEffect; [exact Hs | exact Hp | exact Ht | reflexivity ..].
  - destruct (calm_quiet s ToggleMode Hcalm eq_refl) as [Hp Ht].
    injection Hstep as <-. eapply quiet_rerunEffect; [exact Hs | exact Hp | exact Ht | reflexivity ..].
  - destruct (calm_quiet s TogglePause Hcalm eq_refl) as [Hp Ht].
    injection Hstep as <-. eapply quiet_rerunEffect; [exact Hs | exact Hp | exact Ht | reflexivity ..].
  - destruct (calm_quiet s (Drop t url) Hcalm eq_refl) as [Hp Ht].
    cbn in Hstep.
    destruct (isUpload (mode s) && negb (isSome (mediaFile s))); [|discriminate Hstep].
    injection Hstep as <-. eapply quiet_rerunEffect; [exact Hs | exact Hp | exact Ht | reflexivity ..].
  - destruct (calm_quiet s ClearMedia Hcalm eq_refl) as [Hp Ht].
    cbn in Hstep.
    destruct (isUpload (mode s) && isSome (mediaFile s)); [|discriminate Hstep].
    injection Hstep as <-. eapply quiet_rerunEffect; [exact Hs | exact Hp | exact Ht | reflexivity ..].
  - cbn in Hstep.
    destruct (isUpload (mode s) && isVideo (mediaFile s)); [|discriminate Hstep].
    destruct (isPaused s) eqn:Ep.
    + assert (Hr : rerunsEffect s VideoPlay = true) by exact Ep.
      destruct (calm_quiet s VideoPlay Hcalm Hr) as [Hp Ht].
      injection Hstep as <-. eapply quiet_rerunEffect; [exact Hs | exact Hp | exact Ht | reflexivity ..].
    + injection Hstep as <-. exact Hs.
  - destruct (calm_quiet s (SetMinConfidence v) Hcalm eq_refl) as [Hp Ht].
    injection Hstep as <-. eapply quiet_rerunEffect; [exact Hs | exact Hp | exact Ht | reflexivity ..].
  - destruct (calm_quiet s (SetIouThreshold v) Hcalm eq_refl) as [Hp Ht].
    injection Hstep as <-. eapply quiet_rerunEffect; [exact Hs | exact Hp | exact Ht | reflexivity ..].
Qed.

Lemma runCalm_singleFlow (trace : list Event) (s s' : State) :
  singleFlow s -> runCalm s trace = Some s' -> singleFlow s'.
Proof.
  revert s. induction trace as [|e trace IH]; intros s Hs Hrun; cbn in Hrun.
  - now injection Hrun as <-.
  - destruct (calm s (snd e)) eqn:Hc; [|discriminate Hrun].
    destruct (step s e) as [s1|] eqn:Hstep; [|discriminate Hrun].
    apply (IH s1); [|exact Hrun]. eapply step_singleFlow; eauto.
Qed.

Lemma mounted_singleFlow : singleFlow mounted.
Proof.
  unfold singleFlow. cbn. split; [lia|].
  intros h c [E|[]]. now injection E as <- <-.
Qed.

Lemma runCalm_run (trace : list Event) (s s' : State) :
  runCalm s trace = Some s' -> run s trace = Some s'.
Proof.
  revert s. induction trace as [|e trace IH]; intros s Hrun; cbn in *; [exact Hrun|].
  destruct (calm s (snd e)); [|discriminate Hrun].
  destruct (step s e) as [s1|]; [|discriminate Hrun]. now apply IH.
Qed.

(** C1 (amended).  A step of [detect] that issues a call neither requests a
    frame callback nor sets a timer: the re-arm is left to the continuation
    that runs when the call settles.  Hence, in every execution in which no
    render re-runs the detection effect while a call is outstanding or a
    one-shot timer is set, at most one inference call is outstanding at any
    time, and while it is outstanding no callback is scheduled that could
    issue a second one. *)
Theorem one_call_outstanding_when_calm :
  forall (trace : list Event) (s : State),
    runCalm mounted trace = Some s ->
    (List.length (pending s) <= 1)%nat
    /\ (pending s <> [] -> animationFrames s = [] /\ timeouts s = [])
    /\ (forall c now refs,
          pending (detect c now refs s) <> pending s ->
          animationFrames (detect c now refs s) = animationFrames s
          /\ timeouts (detect c now refs s) = timeouts s).
Proof.
  intros trace s Hrun.
  destruct (runCalm_singleFlow trace mounted_singleFlow Hrun) as [Hlen _].
  split; [lia|]. split.
  - intros Hne. destruct (pending s); [contradiction|]. cbn in Hlen.
    destruct (animationFrames s); [|cbn in Hlen; lia].
    destruct (timeouts s); [|cbn in Hlen; lia]. auto.
  - intros c now refs Hne. unfold detect in *.
    destruct (c_isPaused c || negb (isSome (c_model c))); [contradiction|].
    destruct (Qlt_bool (now - lastFrameTime s) 41); [cbn in Hne; contradiction|].
    destruct (selectVideoEl c refs) as [videoEl|].
    + unfold modelDetect. destruct (Qle_bool 1000 _); cbn; auto.
    + unfold rearm in *. destruct (isLive (c_mode c) || _); cbn in Hne; contradiction.
Qed.

Lemma one_call_outstanding_when_calm_witness :
  exists s, runCalm mounted backToBack = Some s /\ (List.length (pending s) <= 1)%nat.
Proof.
  eexists. split; [vm_compute; reflexivity|].
  apply (one_call_outstanding_when_calm backToBack). vm_compute. reflexivity.
Defined.

(** ** What scheduling leaves alone *)

Ltac split_all := repeat match goal with |- _ /\ _ => split end.

Lemma reschedules_refl (s : State) : reschedules s s.
Proof. unfold reschedules. split_all; reflexivity. Qed.

Lemma reschedules_requestAnimationFrame (c : Closure) (s : State) :
  reschedules s (requestAnimationFrame c s).
Proof. unfold reschedules. split_all; reflexivity. Qed.

Lemma reschedules_rearm (c : Closure) (s : State) : reschedules s (rearm c s).
Proof.
  unfold rearm. destruct (isLive (c_mode c) || _).
  - apply reschedules_requestAnimationFrame.
  - apply reschedules_refl.
Qed.

Lemma reschedules_rerunEffect (s : State) : reschedules s (rerunEffect s).
Proof.
  unfold rerunEffect, effect, cancelAnimationFrame, setTimeout, requestAnimationFrame,
         reschedules.
  destruct (requestRef s); cbn;
    destruct (isUpload (mode s) && isImage (mediaFile s) && isSome (model s)); cbn;
    try (split_all; reflexivity);
    destruct (negb (isPaused s)); cbn; split_all; reflexivity.
Qed.

(** ** The frame cap *)

(** The claim C2 as stated fails: the test in [detect] is against 41 ms, not
    against 1000/24 ms, so the re-armed callback that runs 41.5 ms after call
    0 was issued issues call 1. *)
Lemma frame_cap_counterexample :
  exists s call1 call0,
    run mounted backToBack = Some s
    /\ calls s = [call1; call0]
    /\ callTime call1 - callTime call0 == 83 # 2
    /\ callTime call1 - callTime call0 < 1000 / 24.
Proof.
  do 3 eexists. split; [vm_compute; reflexivity|].
  split; [reflexivity|]. split; reflexivity.
Qed.

Lemma paced_ext (s s' : State) :
  calls s' = calls s -> lastFrameTime s' = lastFrameTime s -> clock s' = clock s ->
  paced s -> paced s'.
Proof. unfold paced. intros -> -> ->. auto. Qed.

Lemma paced_reschedules (s s' : State) : reschedules s s' -> paced s -> paced s'.
Proof.
  intros R. apply paced_ext; apply R.
Qed.

Lemma paced_tick (s : State) (now : Q) :
  paced s -> clock s <= now -> paced (set_clock now s).
Proof.
  unfold paced. cbn. intros (Hp & Hf & Hc) Hnow.
  repeat split; try assumption. lra.
Qed.

Lemma paced_detect (c : Closure) (now : Q) (refs : Refs) (s : State) :
  paced s -> clock s = now -> paced (detect c now refs s).
Proof.
  intros Hp Hnow. unfold detect.
  destruct (c_isPaused c || negb (isSome (c_model c))); [exact Hp|].
  destruct (Qlt_bool (now - lastFrameTime s) 41) eqn:Ethrottle.
  - exact (paced_reschedules (reschedules_requestAnimationFrame c s) Hp).
  - apply Qlt_bool_false in Ethrottle.
    destruct Hp as (Hpairs & Hpast & Hclock).
    assert (Hpast' : Forall (fun call => callTime call <= now) (calls s)).
    { eapply Forall_impl; [|exact Hpast]. cbn. intros call Hcall. lra. }
    destruct (selectVideoEl c refs) as [videoEl|].
    + assert (Hnew : paced (modelDetect c now videoEl (set_lastFrameTime now s))).
      { unfold paced, modelDetect. cbn. split; [|split].
        - constructor; [|exact Hpairs].
          eapply Forall_impl; [|exact Hpast]. cbn. intros call Hcall. lra.
        - constructor; [cbn; lra | exact Hpast'].
        - rewrite Hnow. lra. }
      revert Hnew. apply paced_ext; unfold modelDetect;
        destruct (Qle_bool 1000 _); reflexivity.
    + apply (paced_reschedules (reschedules_rearm c (set_lastFrameTime now s))).
      unfold paced. cbn. split; [exact Hpairs|]. split; [exact Hpast'|].
      rewrite Hnow. lra.
Qed.

Lemma paced_detectResume (c : Closure) (k : nat) (o : Outcome) (s : State) :
  paced s -> paced (detectResume c k o s).
Proof.
  intros Hp. unfold detectResume.
  eapply paced_reschedules; [apply reschedules_rearm|].
  destruct o; revert Hp; apply paced_ext; reflexivity.
Qed.

(** A handler's state changes followed by the effect. *)
Lemma paced_rerender (s s0 : State) :
  calls s0 = calls s -> lastFrameTime s0 = lastFrameTime s -> clock s0 = clock s ->
  paced s -> paced (rerunEffect s0).
Proof.
  intros Ec El Ek Hp.
  apply (paced_reschedules (reschedules_rerunEffect s0)).
  revert Hp. now apply paced_ext.
Qed.

Lemma step_paced (s s' : State) (e : Event) :
  paced s -> step s e = Some s' -> paced s'.
Proof.
  intros Hp Hstep. destruct e as [now a]. unfold step in Hstep.
  destruct (Qlt_bool now (clock s)) eqn:Etime; [discriminate Hstep|].
  apply Qlt_bool_false in Etime.
  pose proof (paced_tick Hp Etime) as Hp0.
  destruct a as [h refs|h refs|k o| | | |t url| | |v|v]; cbn in Hstep.
  - destruct (take h (animationFrames s)) as [[c rest]|]; [|discriminate Hstep].
    injection Hstep as <-. apply paced_detect; [|reflexivity].
    revert Hp0. apply paced_ext; reflexivity.
  - destruct (take h (timeouts s)) as [[[due c] rest]|]; [|discriminate Hstep].
    destruct (Qlt_bool now due); [discriminate Hstep|].
    injection Hstep as <-. apply paced_detect; [|reflexivity].
    revert Hp0. apply paced_ext; reflexivity.
  - destruct (take k (pending s)) as [[c rest]|]; [|discriminate Hstep].
    injection Hstep as <-. apply paced_detectResume.
    revert Hp0. apply paced_ext; reflexivity.
  - destruct (model s); [discriminate Hstep|].
    injection Hstep as <-. revert Hp0. apply paced_rerender; reflexivity.
  - injection Hstep as <-. revert Hp0. apply paced_rerender; reflexivity.
  - injection Hstep as <-. revert Hp0. apply paced_rerender; reflexivity.
  - destruct (isUpload (mode s) && negb (isSome (mediaFile s))); [|discriminate Hstep].
    injection Hstep as <-. revert Hp0. apply paced_rerender; reflexivity.
  - destruct (isUpload (mode s) && isSome (mediaFile s)); [|discriminate Hstep].
    injection Hstep as <-. revert Hp0. apply paced_rerender; reflexivity.
  - destruct (isUpload (mode s) && isVideo (mediaFile s)); [|discriminate Hstep].
    destruct (isPaused s); injection Hstep as <-.
    + revert Hp0. apply paced_rerender; reflexivity.
    + exact Hp0.
  - injection Hstep as <-. revert Hp0. apply paced_rerender; reflexivity.
  - injection Hstep as <-. revert Hp0. apply paced_rerender; reflexivity.
Qed.

Lemma run_paced (trace : list Event) (s s' : State) :
  paced s -> run s trace = Some s' -> paced s'.
Proof.
  revert s. induction trace as [|e trace IH]; intros s Hp Hrun; cbn in Hrun.
  - now injection Hrun as <-.
  - destruct (step s e) as [s1|] eqn:Hstep; [|discriminate Hrun].
    apply (IH s1); [|exact Hrun]. eapply step_paced; eauto.
Qed.

Lemma mounted_paced : paced mounted.
Proof.
  unfold paced. cbn. split; [constructor|]. split; [constructor|]. lra.
Qed.

(** C2 (amended).  In every execution, any two inference calls are issued at
    least 41 ms apart: 41 is the constant the code tests against, 1000/24
    rounded down.  Whenever a step of a callback that is not paused and has
    the model finds that [now] minus [lastFrameTime] is below 41, it performs
    no inference work and only re-arms itself for the next tick. *)
Theorem calls_at_least_41ms_apart :
  forall (trace : list Event) (s : State),
    run mounted trace = Some s ->
    ForallOrdPairs (fun later earlier => 41 <= callTime later - callTime earlier) (calls s)
    /\ (forall c now refs,
          c_isPaused c = false -> isSome (c_model c) = true ->
          now - lastFrameTime s < 41 ->
          detect c now refs s = requestAnimationFrame c s).
Proof.
  intros trace s Hrun. split.
  - exact (proj1 (run_paced trace mounted_paced Hrun)).
  - intros c now refs Hpause Hmodel Hlt. unfold detect.
    rewrite Hpause, Hmodel. cbn [negb orb].
    destruct (Qlt_bool (now - lastFrameTime s) 41) eqn:E; [reflexivity|].
    apply Qlt_bool_false in E. lra.
Qed.

Lemma calls_at_least_41ms_apart_witness :
  exists s,
    run mounted backToBack = Some s
    /\ ForallOrdPairs (fun later earlier => 41 <= callTime later - callTime earlier) (calls s).
Proof.
  eexists. split; [vm_compute; reflexivity|].
  apply (calls_at_least_41ms_apart backToBack). vm_compute. reflexivity.
Defined.

(** ** Source switches *)

(** The claim C3 as stated fails: call 0 is issued in live mode at 2016 ms,
    the mode button switches to upload at 2030 ms, and when call 0 resolves at
    2080 ms its result becomes the predictions of the component, now in
    upload mode. *)
Lemma stale_result_counterexample :
  exists s0 c s,
    run mounted firstCall = Some s0
    /\ mode s0 = Live /\ pending s0 = [(0%nat, c)]
    /\ run mounted switchDuringCall = Some s
    /\ mode s = Upload /\ predictions s = [person] /\ applied s = [0%nat].
Proof. do 3 eexists. vm_compute. repeat split; reflexivity. Qed.

Lemma clock_rerunEffect (s : State) : clock (rerunEffect s) = clock s.
Proof. apply (reschedules_rerunEffect s). Qed.

Lemma clock_rearm (c : Closure) (s : State) : clock (rearm c s) = clock s.
Proof. apply (reschedules_rearm c s). Qed.

Lemma step_clock (s s' : State) (now : Q) (a : Action) :
  step s (now, a) = Some s' -> clock s' = now.
Proof.
  intros Hstep. unfold step in Hstep.
  destruct (Qlt_bool now (clock s)); [discriminate Hstep|].
  destruct a as [h refs|h refs|k o| | | |t url| | |v|v]; cbn in Hstep.
  - destruct (take h (animationFrames s)) as [[c rest]|]; [|discriminate Hstep].
    injection Hstep as <-. unfold detect.
    destruct (c_isPaused c || _); [reflexivity|].
    destruct (Qlt_bool _ 41); [reflexivity|].
    destruct (selectVideoEl c refs).
    + unfold modelDetect. destruct (Qle_bool 1000 _); reflexivity.
    + now rewrite clock_rearm.
  - destruct (take h (timeouts s)) as [[[due c] rest]|]; [|discriminate Hstep].
    destruct (Qlt_bool now due); [discriminate Hstep|].
    injection Hstep as <-. unfold detect.
    destruct (c_isPaused c || _); [reflexivity|].
    destruct (Qlt_bool _ 41); [reflexivity|].
    destruct (selectVideoEl c refs).
    + unfold modelDetect. destruct (Qle_bool 1000 _); reflexivity.
    + now rewrite clock_rearm.
  - destruct (take k (pending s)) as [[c rest]|]; [|discriminate Hstep].
    injection Hstep as <-. unfold detectResume.
    rewrite clock_rearm. now destruct o.
  - destruct (model s); [discriminate Hstep|].
    injection Hstep as <-. now rewrite clock_rerunEffect.
  - injection Hstep as <-. now rewrite clock_rerunEffect.
  - injection Hstep as <-. now rewrite clock_rerunEffect.
  - destruct (isUpload (mode s) && negb (isSome (mediaFile s))); [|discriminate Hstep].
    injection Hstep as <-. now rewrite clock_rerunEffect.
  - destruct (isUpload (mode s) && isSome (mediaFile s)); [|discriminate Hstep].
    injection Hstep as <-. now rewrite clock_rerunEffect.
  - destruct (isUpload (mode s) && isVideo (mediaFile s)); [|discriminate Hstep].
    destruct (isPaused s); injection Hstep as <-.
    + now rewrite clock_rerunEffect.
    + reflexivity.
  - injection Hstep as <-. now rewrite clock_rerunEffect.
  - injection Hstep as <-. now rewrite clock_rerunEffect.
Qed.

(** The settling of an outstanding call is always possible once time has
    come, and a resolved call sets the predictions. *)
Lemma settle_resolved (s : State) (k : nat) (c : Closure) (rest : list (nat * Closure))
    (results : list (Prediction Q)) (now : Q) :
  take k (pending s) = Some (c, rest) -> clock s <= now ->
  exists s',
    step s (now, Settle k (Resolved results)) = Some s'
    /\ s' = rearm c (set_applied (k :: applied s)
                       (set_predictions results (set_pending rest (set_clock now s))))
    /\ predictions s' = results
    /\ applied s' = k :: applied s
    /\ errors s' = errors s.
Proof.
  intros Ht Hnow. unfold step.
  destruct (Qlt_bool now (clock s)) eqn:E; [apply Qlt_bool_true in E; lra|].
  cbn. rewrite Ht. eexists. split; [reflexivity|]. split; [reflexivity|].
  unfold detectResume.
  pose proof (reschedules_rearm c
                (set_applied (k :: applied s)
                   (set_predictions results (set_pending rest (set_clock now s))))) as R.
  repeat split; apply R.
Qed.

Lemma settle_rejected (s : State) (k : nat) (c : Closure) (rest : list (nat * Closure))
    (now : Q) :
  take k (pending s) = Some (c, rest) -> clock s <= now ->
  exists s',
    step s (now, Settle k Rejected) = Some s'
    /\ s' = rearm c (set_errors (k :: errors s) (set_pending rest (set_clock now s)))
    /\ predictions s' = predictions s
    /\ applied s' = applied s
    /\ errors s' = k :: errors s.
Proof.
  intros Ht Hnow. unfold step.
  destruct (Qlt_bool now (clock s)) eqn:E; [apply Qlt_bool_true in E; lra|].
  cbn. rewrite Ht. eexists. split; [reflexivity|]. split; [reflexivity|].
  unfold detectResume.
  pose proof (reschedules_rearm c
                (set_errors (k :: errors s) (set_pending rest (set_clock now s)))) as R.
  repeat split; apply R.
Qed.

(** C3 (amended).  A source switch (the mode button, a dropped file, the
    clear button) empties the predictions at the moment of the switch and
    leaves every outstanding call outstanding; a call issued before the
    switch that resolves after it is not discarded: on arrival its result
    becomes the predictions of the component. *)
Theorem stale_result_is_applied :
  forall (s s1 : State) (a : Action) (now now' : Q) (k : nat) (c : Closure)
         (rest : list (nat * Closure)) (results : list (Prediction Q)),
    isSourceSwitch a = true ->
    take k (pending s) = Some (c, rest) ->
    step s (now, a) = Some s1 ->
    now <= now' ->
    predictions s1 = []
    /\ pending s1 = pending s
    /\ exists s2,
         step s1 (now', Settle k (Resolved results)) = Some s2
         /\ predictions s2 = results
         /\ applied s2 = k :: applied s.
Proof.
  intros s s1 a now now' k c rest results Hsw Ht Hstep Hnow.
  pose proof (@step_clock _ _ _ _ Hstep) as Hclock.
  assert (H1 : predictions s1 = [] /\ pending s1 = pending s /\ applied s1 = applied s).
  { unfold step in Hstep.
    destruct (Qlt_bool now (clock s)); [discriminate Hstep|].
    destruct a as [h refs|h refs|k' o| | | |t url| | |v|v]; try discriminate Hsw;
      cbn in Hstep.
    - injection Hstep as <-.
      pose proof (reschedules_rerunEffect
                    (set_predictions []
                       (set_mode match mode s with Live => Upload | Upload => Live end
                          (set_clock now s)))) as R.
      repeat split; apply R.
    - destruct (isUpload (mode s) && negb (isSome (mediaFile s))); [|discriminate Hstep].
      injection Hstep as <-.
      pose proof (reschedules_rerunEffect
                    (set_predictions []
                       (set_mode Upload
                          (set_mediaFile (Some {| mediaType := t; mediaUrl := url |})
                             (set_clock now s))))) as R.
      repeat split; apply R.
    - destruct (isUpload (mode s) && isSome (mediaFile s)); [|discriminate Hstep].
      injection Hstep as <-.
      pose proof (reschedules_rerunEffect
                    (set_predictions []
                       (set_mode Live (set_mediaFile None (set_clock now s))))) as R.
      repeat split; apply R. }
  destruct H1 as (Hpred & Hpend & Happ).
  split; [exact Hpred|]. split; [exact Hpend|].
  rewrite <- Hpend in Ht.
  destruct (@settle_resolved s1 k c rest results now' Ht) as (s2 & Hs2 & _ & Hp2 & Ha2 & _).
  - rewrite Hclock. exact Hnow.
  - exists s2. split; [exact Hs2|]. split; [exact Hp2|]. now rewrite Ha2, Happ.
Qed.

Lemma stale_result_is_applied_witness :
  exists s0 s1 s2,
    run mounted firstCall = Some s0
    /\ step s0 (2030, ToggleMode) = Some s1
    /\ step s1 (2080, Settle 0 (Resolved [person])) = Some s2
    /\ predictions s1 = [] /\ predictions s2 = [person].
Proof.
  destruct (run mounted firstCall) as [s0|] eqn:E0; [|vm_compute in E0; discriminate E0].
  destruct (step s0 (2030, ToggleMode)) as [s1|] eqn:E1;
    [|vm_compute in E0; injection E0 as <-; vm_compute in E1; discriminate E1].
  assert (Hc : exists c, take 0 (pending s0) = Some (c, [])).
  { vm_compute in E0. injection E0 as <-. eexists. vm_compute. reflexivity. }
  destruct Hc as [c Hc].
  destruct (@stale_result_is_applied s0 s1 ToggleMode 2030 2080 0%nat c [] [person]
              eq_refl Hc E1) as (Hp1 & _ & s2 & Hs2 & Hp2 & _).
  - vm_compute. discriminate.
  - exists s0, s1, s2. repeat split; assumption.
Defined.

(** ** Handles and outstanding calls *)

Lemma Forall_below_S {A} (n : nat) (q : list (nat * A)) :
  Forall (fun e => (fst e < n)%nat) q -> Forall (fun e => (fst e < S n)%nat) q.
Proof. apply Forall_impl. intros e He. lia. Qed.

Lemma take_Forall {A} (P : nat * A -> Prop) (h : nat) (q : list (nat * A)) (a : A)
    (rest : list (nat * A)) :
  take h q = Some (a, rest) -> Forall P q -> P (h, a) /\ Forall P rest.
Proof.
  intros Ht Hall. destruct (take_incl _ _ Ht) as [Hin Hincl].
  rewrite Forall_forall in Hall. split; [now apply Hall|].
  apply Forall_forall. intros x Hx. apply Hall. now apply Hincl.
Qed.

Lemma wellFormed_ext (s s' : State) :
  animationFrames s' = animationFrames s -> timeouts s' = timeouts s ->
  pending s' = pending s -> nextHandle s' = nextHandle s -> nextCall s' = nextCall s ->
  wellFormed s -> wellFormed s'.
Proof. unfold wellFormed. intros -> -> -> -> ->. auto. Qed.

Lemma wellFormed_requestAnimationFrame (c : Closure) (s : State) :
  wellFormed s -> wellFormed (requestAnimationFrame c s).
Proof.
  intros (Ha & Ht & Hp). unfold wellFormed, requestAnimationFrame. cbn.
  split; [|split].
  - apply Forall_app. split; [now apply Forall_below_S|].
    constructor; [cbn; lia | constructor].
  - now apply Forall_below_S.
  - exact Hp.
Qed.

Lemma wellFormed_setTimeout (c : Closure) (delay : Q) (s : State) :
  wellFormed s -> wellFormed (setTimeout c delay s).
Proof.
  intros (Ha & Ht & Hp). unfold wellFormed, setTimeout. cbn.
  split; [|split].
  - now apply Forall_below_S.
  - apply Forall_app. split; [now apply Forall_below_S|].
    constructor; [cbn; lia | constructor].
  - exact Hp.
Qed.

Lemma wellFormed_cancelAnimationFrame (s : State) :
  wellFormed s -> wellFormed (cancelAnimationFrame s).
Proof.
  intros (Ha & Ht & Hp). unfold cancelAnimationFrame.
  destruct (requestRef s) as [h|]; [|now repeat split].
  unfold wellFormed. cbn. repeat split; try assumption.
  unfold without. apply Forall_forall. intros x Hx.
  apply filter_In in Hx. rewrite Forall_forall in Ha. now apply Ha.
Qed.

Lemma wellFormed_rearm (c : Closure) (s : State) : wellFormed s -> wellFormed (rearm c s).
Proof.
  intros Hw. unfold rearm. destruct (isLive (c_mode c) || _); [|exact Hw].
  now apply wellFormed_requestAnimationFrame.
Qed.

Lemma wellFormed_rerunEffect (s : State) : wellFormed s -> wellFormed (rerunEffect s).
Proof.
  intros Hw. unfold rerunEffect, effect.
  apply wellFormed_cancelAnimationFrame in Hw.
  destruct (isUpload _ && isImage _ && isSome _).
  - now apply wellFormed_setTimeout.
  - destruct (negb _); [|exact Hw]. now apply wellFormed_requestAnimationFrame.
Qed.

Lemma wellFormed_modelDetect (c : Closure) (now : Q) (videoEl : VideoEl) (s : State) :
  c_isPaused c = false -> isSome (c_model c) = true ->
  wellFormed s -> wellFormed (modelDetect c now videoEl s).
Proof.
  intros Hpause Hmodel (Ha & Ht & Hp). unfold wellFormed, modelDetect. cbn.
  repeat split; try assumption.
  apply Forall_app. split.
  - eapply Forall_impl; [|exact Hp]. cbn. intros e (He & Hrest). split; [lia | exact Hrest].
  - constructor; [cbn; repeat split; (lia || assumption) | constructor].
Qed.

Lemma wellFormed_detect (c : Closure) (now : Q) (refs : Refs) (s : State) :
  wellFormed s -> wellFormed (detect c now refs s).
Proof.
  intros Hw. unfold detect.
  destruct (c_isPaused c) eqn:Hpause; [exact Hw|].
  destruct (isSome (c_model c)) eqn:Hmodel; [|exact Hw]. cbn [negb orb].
  destruct (Qlt_bool _ 41); [now apply wellFormed_requestAnimationFrame|].
  destruct (selectVideoEl c refs) as [videoEl|].
  - apply wellFormed_modelDetect; try assumption.
    destruct (Qle_bool 1000 _); revert Hw; apply wellFormed_ext; reflexivity.
  - apply wellFormed_rearm. revert Hw. apply wellFormed_ext; reflexivity.
Qed.

Lemma wellFormed_detectResume (c : Closure) (k : nat) (o : Outcome) (s : State) :
  wellFormed s -> wellFormed (detectResume c k o s).
Proof.
  intros Hw. unfold detectResume. apply wellFormed_rearm.
  destruct o; revert Hw; apply wellFormed_ext; reflexivity.
Qed.

Lemma wellFormed_rerender (s s0 : State) :
  animationFrames s0 = animationFrames s -> timeouts s0 = timeouts s ->
  pending s0 = pending s -> nextHandle s0 = nextHandle s -> nextCall s0 = nextCall s ->
  wellFormed s -> wellFormed (rerunEffect s0).
Proof.
  intros E1 E2 E3 E4 E5 Hw. apply wellFormed_rerunEffect.
  revert Hw. now apply wellFormed_ext.
Qed.

Lemma step_wellFormed (s s' : State) (e : Event) :
  wellFormed s -> step s e = Some s' -> wellFormed s'.
Proof.
  intros Hw Hstep. destruct e as [now a]. unfold step in Hstep.
  destruct (Qlt_bool now (clock s)); [discriminate Hstep|].
  destruct a as [h refs|h refs|k o| | | |t url| | |v|v]; cbn in Hstep.
  - destruct (take h (animationFrames s)) as [[c rest]|] eqn:Et; [|discriminate Hstep].
    injection Hstep as <-. apply wellFormed_detect.
    destruct Hw as (Ha & Hrest). destruct (@take_Forall _ _ _ _ _ _ Et Ha) as [_ Ha'].
    unfold wellFormed. cbn. now split.
  - destruct (take h (timeouts s)) as [[[due c] rest]|] eqn:Et; [|discriminate Hstep].
    destruct (Qlt_bool now due); [discriminate Hstep|].
    injection Hstep as <-. apply wellFormed_detect.
    destruct Hw as (Ha & Hto & Hp). destruct (@take_Forall _ _ _ _ _ _ Et Hto) as [_ Hto'].
    unfold wellFormed. cbn. now repeat split.
  - destruct (take k (pending s)) as [[c rest]|] eqn:Et; [|discriminate Hstep].
    injection Hstep as <-. apply wellFormed_detectResume.
    destruct Hw as (Ha & Hto & Hp). destruct (@take_Forall _ _ _ _ _ _ Et Hp) as [_ Hp'].
    unfold wellFormed. cbn. now repeat split.
  - destruct (model s); [discriminate Hstep|].
    injection Hstep as <-. revert Hw. apply wellFormed_rerender; reflexivity.
  - injection Hstep as <-. revert Hw. apply wellFormed_rerender; reflexivity.
  - injection Hstep as <-. revert Hw. apply wellFormed_rerender; reflexivity.
  - destruct (isUpload (mode s) && negb (isSome (mediaFile s))); [|discriminate Hstep].
    injection Hstep as <-. revert Hw. apply wellFormed_rerender; reflexivity.
  - destruct (isUpload (mode s) && isSome (mediaFile s)); [|discriminate Hstep].
    injection Hstep as <-. revert Hw. apply wellFormed_rerender; reflexivity.
  - destruct (isUpload (mode s) && isVideo (mediaFile s)); [|discriminate Hstep].
    destruct (isPaused s); injection Hstep as <-.
    + revert Hw. apply wellFormed_rerender; reflexivity.
    + revert Hw. apply wellFormed_ext; reflexivity.
  - injection Hstep as <-. revert Hw. apply wellFormed_rerender; reflexivity.
  - injection Hstep as <-. revert Hw. apply wellFormed_rerender; reflexivity.
Qed.

Lemma run_wellFormed (trace : list Event) (s s' : State) :
  wellFormed s -> run s trace = Some s' -> wellFormed s'.
Proof.
  revert s. induction trace as [|e trace IH]; intros s Hw Hrun; cbn in Hrun.
  - now injection Hrun as <-.
  - destruct (step s e) as [s1|] eqn:Hstep; [|discriminate Hrun].
    apply (IH s1); [|exact Hrun]. eapply step_wellFormed; eauto.
Qed.

Lemma mounted_wellFormed : wellFormed mounted.
Proof.
  unfold wellFormed. cbn. repeat split; repeat constructor.
Qed.

(** ** Failed inference *)

Lemma Qlt_bool_ge (a b : Q) : b <= a -> Qlt_bool a b = false.
Proof.
  intros Hle. destruct (Qlt_bool a b) eqn:E; [|reflexivity].
  apply Qlt_bool_true in E. lra.
Qed.

(** A re-armed callback that runs after at least 41 ms and finds a usable
    frame calls the model. *)
Lemma rearmed_callback_calls_model (c : Closure) (s : State) (now : Q) (refs : Refs)
    (videoEl : VideoEl) :
  wellFormed s ->
  c_isPaused c = false -> isSome (c_model c) = true ->
  clock s <= now -> 41 <= now - lastFrameTime s ->
  selectVideoEl c refs = Some videoEl ->
  exists s',
    step (requestAnimationFrame c s) (now, AnimationFrame (nextHandle s) refs) = Some s'
    /\ In (nextCall s, c) (pending s')
    /\ exists call, calls s' = call :: calls s /\ callTime call = now.
Proof.
  intros (Ha & _ & _) Hpause Hmodel Hclock Helapsed Hsel.
  unfold step. change (clock (requestAnimationFrame c s)) with (clock s).
  rewrite (Qlt_bool_ge Hclock).
  cbn [set_clock animationFrames requestAnimationFrame set_requestRef set_nextHandle
       set_animationFrames].
  rewrite take_fresh.
  2:{ eapply Forall_impl; [|exact Ha]. cbn. intros e He. lia. }
  eexists. split; [reflexivity|].
  unfold detect. rewrite Hpause, Hmodel. cbn -[Qlt_bool Qle_bool Qminus].
  rewrite (Qlt_bool_ge Helapsed), Hsel.
  unfold modelDetect.
  destruct (Qle_bool 1000 _); cbn; (split; [apply in_or_app; right; now left | eauto]).
Qed.

(** The claim C7 as stated fails in two respects.  A failed cycle is not
    treated as a cycle without detections: after call 0 has resolved with a
    detection and call 1 has failed, the predictions are still those of call
    0.  And the loop goes on only for a live or uploaded-video source: after
    the one inference of an uploaded image has failed, nothing is scheduled
    and the image is never tried again. *)
Lemma failed_inference_counterexample :
  (exists s,
      run mounted failureAfterSuccess = Some s
      /\ errors s = [1%nat] /\ applied s = [0%nat]
      /\ predictions s = [person])
  /\ (exists s,
        run mounted failedImage = Some s
        /\ errors s = [0%nat] /\ predictions s = []
        /\ animationFrames s = [] /\ timeouts s = [] /\ pending s = []).
Proof.
  split; eexists; (split; [vm_compute; reflexivity|]); repeat split; reflexivity.
Qed.

(** C7 (amended).  In every cycle in which the inference call fails, the
    failure is caught (the continuation runs to its end) and logged with
    console.error, and setPredictions is not called: the predictions keep
    the value they had, the detections of the last call that resolved, and
    are not emptied.  The continuation then re-arms exactly as it does after
    a successful call: for a live or uploaded-video source the callback is
    requested again and, at its next tick with 41 ms elapsed and a usable
    frame, calls the model again; for an uploaded image nothing is scheduled,
    the failed inference is not tried again. *)
Theorem failed_inference_keeps_loop_running :
  forall (trace : list Event) (s : State) (k : nat) (c : Closure)
         (rest : list (nat * Closure)) (now : Q),
    run mounted trace = Some s ->
    take k (pending s) = Some (c, rest) ->
    clock s <= now ->
    exists s',
      step s (now, Settle k Rejected) = Some s'
      /\ errors s' = k :: errors s
      /\ predictions s' = predictions s
      /\ applied s' = applied s
      /\ (forall results, exists s'',
            step s (now, Settle k (Resolved results)) = Some s''
            /\ animationFrames s'' = animationFrames s'
            /\ timeouts s'' = timeouts s'
            /\ requestRef s'' = requestRef s'
            /\ pending s'' = pending s')
      /\ (continuous c = true ->
          animationFrames s' = animationFrames s ++ [(nextHandle s, c)]
          /\ requestRef s' = Some (nextHandle s)
          /\ forall now' refs videoEl,
               now <= now' -> 41 <= now' - lastFrameTime s' ->
               selectVideoEl c refs = Some videoEl ->
               exists s'',
                 step s' (now', AnimationFrame (nextHandle s) refs) = Some s''
                 /\ In (nextCall s, c) (pending s'')
                 /\ exists call, calls s'' = call :: calls s' /\ callTime call = now')
      /\ (continuous c = false ->
          animationFrames s' = animationFrames s
          /\ timeouts s' = timeouts s
          /\ pending s' = rest
          /\ requestRef s' = requestRef s).
Proof.
  intros trace s k c rest now Hrun Ht Hnow.
  pose proof (run_wellFormed trace mounted_wellFormed Hrun) as Hw.
  destruct (@settle_rejected s k c rest now Ht Hnow) as (s' & Hstep & Hs' & Hpred & Happ & Herr).
  exists s'. split; [exact Hstep|]. split; [exact Herr|]. split; [exact Hpred|].
  split; [exact Happ|]. split; [|split].
  - intros results.
    destruct (@settle_resolved s k c rest results now Ht Hnow) as (s'' & Hstep' & Hs'' & _).
    exists s''. split; [exact Hstep'|]. subst s' s''. unfold rearm.
    destruct (isLive (c_mode c) || _); repeat split; reflexivity.
  - intros Hcont. unfold continuous in Hcont.
    assert (Hs'2 : s' = requestAnimationFrame c
                          (set_errors (k :: errors s) (set_pending rest (set_clock now s)))).
    { rewrite Hs'. unfold rearm. now rewrite Hcont. }
    split; [now rewrite Hs'2|]. split; [now rewrite Hs'2|].
    intros now' refs videoEl Hnow' Helapsed Hsel.
    destruct Hw as (Ha & Hto & Hp).
    destruct (@take_Forall _ _ _ _ _ _ Ht Hp) as [(_ & Hpause & Hmodel) Hp'].
    cbn [snd] in Hpause, Hmodel.
    assert (Hw0 : wellFormed (set_errors (k :: errors s) (set_pending rest (set_clock now s)))).
    { unfold wellFormed. cbn. now repeat split. }
    assert (Hel : 41 <= now' - lastFrameTime
                                 (set_errors (k :: errors s) (set_pending rest (set_clock now s)))).
    { rewrite Hs'2 in Helapsed. exact Helapsed. }
    destruct (@rearmed_callback_calls_model c
                (set_errors (k :: errors s) (set_pending rest (set_clock now s)))
                now' refs videoEl Hw0 Hpause Hmodel Hnow' Hel Hsel)
      as (s'' & Hstep'' & Hin & call & Hcalls & Htime).
    change (nextHandle (set_errors (k :: errors s) (set_pending rest (set_clock now s))))
      with (nextHandle s) in Hstep''.
    change (nextCall (set_errors (k :: errors s) (set_pending rest (set_clock now s))))
      with (nextCall s) in Hin.
    rewrite <- Hs'2 in Hstep''.
    exists s''. split; [exact Hstep''|]. split; [exact Hin|].
    exists call. split; [|exact Htime].
    rewrite Hcalls, Hs'2. reflexivity.
  - intros Hcont. unfold continuous in Hcont.
    rewrite Hs'. unfold rearm. rewrite Hcont. now repeat split.
Qed.

Lemma failed_inference_keeps_loop_running_witness :
  exists s s',
    run mounted firstCall = Some s
    /\ step s (2100, Settle 0 Rejected) = Some s'
    /\ errors s' = [0%nat]
    /\ predictions s' = []
    /\ List.length (animationFrames s') = 1%nat.
Proof.
  destruct (run mounted firstCall) as [s|] eqn:E0; [|vm_compute in E0; discriminate E0].
  assert (Hc : exists c, take 0 (pending s) = Some (c, []) /\ continuous c = true
                         /\ clock s <= 2100 /\ errors s = [] /\ predictions s = []
                         /\ animationFrames s = []).
  { vm_compute in E0. injection E0 as <-. eexists. vm_compute.
    repeat split; try reflexivity. discriminate. }
  destruct Hc as (c & Hc & Hcont & Hclock & Herr & Hpred & Hfr).
  destruct (@failed_inference_keeps_loop_running firstCall s 0%nat c [] 2100 E0 Hc Hclock)
    as (s' & Hstep & He & Hp & _ & _ & Hloop & _).
  destruct (Hloop Hcont) as (Hfr' & _).
  exists s, s'. repeat split; try assumption; try congruence.
  rewrite Hfr', Hfr. reflexivity.
Defined.

(** ** Throughput measurement *)

(** C9 at the failing scenario.  The first call is counted, and the rate 1 is
    published, when the call is issued: the call is still outstanding.  When
    it then fails, the published rate and the counter stay as they are, so
    the rate 1 stands for a second in which no inference completed. *)
Theorem rate_counts_issued_calls :
  exists s0 c s,
    run mounted firstCall = Some s0
    /\ fps s0 = 1%nat /\ frameCount s0 = 0%nat /\ lastFpsTime s0 == 2016
    /\ pending s0 = [(0%nat, c)] /\ applied s0 = []
    /\ run mounted failedCall = Some s
    /\ fps s = 1%nat /\ frameCount s = 0%nat
    /\ applied s = [] /\ errors s = [0%nat].
Proof. do 3 eexists. vm_compute. repeat split; reflexivity. Qed.

(** The part of [detect] that runs before the call counts the frame and, when
    a second has passed since the last publication, publishes the counter
    and resets it; the call it then issues is outstanding. *)
Lemma detect_counts_at_issue (c : Closure) (now : Q) (refs : Refs) (videoEl : VideoEl)
    (s : State) :
  c_isPaused c = false -> isSome (c_model c) = true ->
  41 <= now - lastFrameTime s ->
  selectVideoEl c refs = Some videoEl ->
  pending (detect c now refs s) = pending s ++ [(nextCall s, c)]
  /\ applied (detect c now refs s) = applied s
  /\ (1000 <= now - lastFpsTime s ->
      fps (detect c now refs s) = S (frameCount s)
      /\ frameCount (detect c now refs s) = 0%nat
      /\ lastFpsTime (detect c now refs s) = now)
  /\ (now - lastFpsTime s < 1000 ->
      fps (detect c now refs s) = fps s
      /\ frameCount (detect c now refs s) = S (frameCount s)
      /\ lastFpsTime (detect c now refs s) = lastFpsTime s).
Proof.
  intros Hpause Hmodel Helapsed Hsel. unfold detect.
  rewrite Hpause, Hmodel, (Qlt_bool_ge Helapsed), Hsel. cbn [negb orb].
  unfold modelDetect. cbn -[Qle_bool Qminus].
  destruct (Qle_bool 1000 (now - lastFpsTime s)) eqn:E; cbn.
  - split; [reflexivity|]. split; [reflexivity|]. split; [auto|].
    apply Qle_bool_iff in E. intros Hlt. lra.
  - split; [reflexivity|]. split; [reflexivity|]. split; [|auto].
    intros Hle. apply Qle_bool_iff in Hle. congruence.
Qed.

(** The counter moves only in the part of [detect] that runs before the
    call: whether and how the call settles does not change it. *)
Lemma settle_leaves_counter (s s' : State) (now : Q) (k : nat) (o : Outcome) :
  step s (now, Settle k o) = Some s' ->
  frameCount s' = frameCount s /\ fps s' = fps s /\ lastFpsTime s' = lastFpsTime s.
Proof.
  intros Hstep. unfold step in Hstep.
  destruct (Qlt_bool now (clock s)); [discriminate Hstep|]. cbn in Hstep.
  destruct (take k (pending s)) as [[c rest]|]; [|discriminate Hstep].
  injection Hstep as <-. unfold detectResume.
  destruct o.
  - pose proof (reschedules_rearm c
        (set_applied (k :: applied s)
           (set_predictions results (set_pending rest (set_clock now s))))) as R.
    repeat split; apply R.
  - pose proof (reschedules_rearm c
        (set_errors (k :: errors s) (set_pending rest (set_clock now s)))) as R.
    repeat split; apply R.
Qed.

(** ** Pause *)

(** C10 at the failing scenario.  The pause button is pressed while call 0 is
    outstanding.  The result of call 0 is applied when it resolves, as the
    claim says; but the continuation then re-arms the callback of the render
    before the pause, which does not see the pause, and at the next tick that
    callback issues call 1 while the component is paused. *)
Theorem pause_during_call_keeps_looping :
  exists s1 c s2 c',
    run mounted pauseDuringCall = Some s1
    /\ isPaused s1 = true
    /\ predictions s1 = [person] /\ applied s1 = [0%nat]
    /\ animationFrames s1 = [(2%nat, c)] /\ c_isPaused c = false
    /\ run mounted pauseDuringCallThenFrame = Some s2
    /\ isPaused s2 = true
    /\ map callId (calls s2) = [1%nat; 0%nat]
    /\ map callTime (calls s2) = [2100; 2016]
    /\ pending s2 = [(1%nat, c')].
Proof. do 4 eexists. vm_compute. repeat split; reflexivity. Qed.

(** In general: whenever the pause button is pressed while a call of a live
    or uploaded-video callback is outstanding, the result is applied when the
    call resolves and the callback from before the pause is requested again,
    with the component paused. *)
Lemma pause_during_call_rearms (trace : list Event) (s s1 : State) (k : nat) (c : Closure)
    (rest : list (nat * Closure)) (results : list (Prediction Q)) (now now' : Q) :
  run mounted trace = Some s ->
  take k (pending s) = Some (c, rest) ->
  isPaused s = false ->
  step s (now, TogglePause) = Some s1 ->
  now <= now' ->
  exists s2,
    step s1 (now', Settle k (Resolved results)) = Some s2
    /\ isPaused s2 = true
    /\ predictions s2 = results
    /\ c_isPaused c = false
    /\ (continuous c = true -> In (nextHandle s1, c) (animationFrames s2)).
Proof.
  intros Hrun Ht Hpause Hstep Hnow.
  pose proof (run_wellFormed trace mounted_wellFormed Hrun) as (_ & _ & Hp).
  destruct (@take_Forall _ _ _ _ _ _ Ht Hp) as [(_ & Hcp & _) _]. cbn [snd] in Hcp.
  pose proof (@step_clock _ _ _ _ Hstep) as Hclock.
  assert (H1 : pending s1 = pending s /\ isPaused s1 = true).
  { unfold step in Hstep. destruct (Qlt_bool now (clock s)); [discriminate Hstep|].
    injection Hstep as <-.
    pose proof (reschedules_rerunEffect (set_isPaused (negb (isPaused s)) (set_clock now s)))
      as R.
    split; [apply R|].
    transitivity (isPaused (set_isPaused (negb (isPaused s)) (set_clock now s))); [apply R|].
    cbn. now rewrite Hpause. }
  destruct H1 as [Hpend Hp1]. rewrite <- Hpend in Ht.
  destruct (@settle_resolved s1 k c rest results now' Ht) as (s2 & Hs2 & Heq & Hpred & _).
  { rewrite Hclock. exact Hnow. }
  exists s2. split; [exact Hs2|]. split; [|split; [exact Hpred|split; [exact Hcp|]]].
  - rewrite Heq. transitivity (isPaused s1); [|exact Hp1].
    apply (reschedules_rearm c
             (set_applied (k :: applied s1)
                (set_predictions results (set_pending rest (set_clock now' s1))))).
  - intros Hcont. unfold continuous in Hcont. rewrite Heq. unfold rearm. rewrite Hcont.
    unfold requestAnimationFrame. cbn. apply in_or_app. right. now left.
Qed.

(** Pausing does stop the loop when it finds the callback requested and no
    call outstanding: the clean-up cancels the request. *)
Lemma pause_between_calls_stops (trace : list Event) (s s' : State) (now : Q) :
  runCalm mounted trace = Some s ->
  pending s = [] -> timeouts s = [] -> isPaused s = false ->
  mode s = Live ->
  step s (now, TogglePause) = Some s' ->
  idle s'.
Proof.
  intros Hrun Hp Ht Hpause Hmode Hstep.
  pose proof (runCalm_singleFlow trace mounted_singleFlow Hrun) as Hs.
  unfold step in Hstep. destruct (Qlt_bool now (clock s)); [discriminate Hstep|].
  injection Hstep as <-.
  unfold rerunEffect, effect.
  assert (Hi : idle (cancelAnimationFrame (set_isPaused (negb (isPaused s)) (set_clock now s)))).
  { apply quiet_cancel; [exact Hs | exact Hp | exact Ht]. }
  assert (Em : mode (cancelAnimationFrame (set_isPaused (negb (isPaused s)) (set_clock now s)))
               = Live).
  { unfold cancelAnimationFrame. cbn. now destruct (requestRef s). }
  assert (Ep : isPaused (cancelAnimationFrame (set_isPaused (negb (isPaused s)) (set_clock now s)))
               = true).
  { unfold cancelAnimationFrame. cbn. rewrite Hpause. now destruct (requestRef s). }
  rewrite Em, Ep. cbn [isUpload andb negb]. exact Hi.
Qed.

(** ** The transfer learner *)

Section LearnerProperties.

Variables Activation Result : Type.

Lemma knnGetNumClasses_empty (d : Learner.Dataset Activation) :
  Learner.numExamples d = 0%nat -> Learner.knnGetNumClasses d = 0%nat.
Proof.
  unfold Learner.numExamples. destruct d; [reflexivity | discriminate].
Qed.

(** The store has no class exactly when it holds no example. *)
Lemma knnGetNumClasses_zero (d : Learner.Dataset Activation) :
  Learner.knnGetNumClasses d = 0%nat <-> Learner.numExamples d = 0%nat.
Proof.
  split; [|apply knnGetNumClasses_empty].
  unfold Learner.knnGetNumClasses, Learner.numExamples.
  destruct d as [|[l a] d]; [reflexivity|]. intros Hn. exfalso.
  assert (Hin : In l (nodup Nat.eq_dec (map fst ((l, a) :: d)))).
  { apply nodup_In. now left. }
  destruct (nodup Nat.eq_dec (map fst ((l, a) :: d))); [contradiction | discriminate].
Qed.

Lemma predict_empty (s : Learner.State Activation Result) (c : Learner.Closure) (readyState : option nat)
    (activation : Activation) :
  Learner.numExamples (Learner.knn s) = 0%nat ->
  Learner.predict c readyState activation s = Learner.requestAnimationFrame c s.
Proof.
  intros He. unfold Learner.predict. rewrite (knnGetNumClasses_empty _ He).
  cbn [Nat.ltb Nat.leb]. now rewrite andb_false_r.
Qed.

Lemma untouched_step (s s' : Learner.State Activation Result) (a : Learner.Action Activation Result) :
  untouched s -> Learner.step s a = Some s' -> untouched s'.
Proof.
  intros Hu Hstep. unfold untouched in *.
  destruct a as [h readyState activation|k o| |classId readyState activation| |randomColor];
    cbn in Hstep.
  - destruct (take h (Learner.animationFrames s)) as [[c rest]|] eqn:Et; [|discriminate Hstep].
    injection Hstep as <-. unfold Learner.predict.
    destruct (isSome (Learner.p_classifier c)) eqn:Ec.
    + destruct (_ && _ && _ && _); cbn; intros Hnone;
        destruct (Hu Hnone) as (_ & _ & _ & _ & Hfr);
        destruct (@take_Forall _ _ _ _ _ _ Et Hfr) as [Hc _]; cbn in Hc;
        rewrite Hc in Ec; discriminate Ec.
    + cbn. intros Hnone. destruct (Hu Hnone) as (Hk & Hcl & Hr & Hp & Hfr).
      destruct (@take_Forall _ _ _ _ _ _ Et Hfr) as [Hc Hrest]. cbn in Hc.
      repeat split; try assumption.
      apply Forall_app. split; [exact Hrest|]. now repeat constructor.
  - destruct (take k (Learner.pending s)) as [[c rest]|] eqn:Et; [|discriminate Hstep].
    injection Hstep as <-. unfold Learner.predictResume.
    destruct o; cbn; intros Hnone; destruct (Hu Hnone) as (_ & _ & _ & Hp & _);
      rewrite Hp in Et; discriminate Et.
  - destruct (Learner.classifier s); [discriminate Hstep|].
    injection Hstep as <-. unfold Learner.rerunEffect, Learner.effect,
      Learner.cancelAnimationFrame.
    destruct (Learner.requestRef _); cbn; discriminate.
  - injection Hstep as <-. unfold Learner.addExample.
    destruct (isSome (Learner.net s)); cbn [andb]; [|exact Hu].
    destruct (isSome (Learner.classifier s)) eqn:Ec; cbn [andb]; [|exact Hu].
    destruct (Learner.webcamIsReady readyState); [|exact Hu].
    cbn. intros Hnone. rewrite Hnone in Ec. discriminate Ec.
  - injection Hstep as <-. unfold Learner.clearAll.
    destruct (isSome (Learner.classifier s)) eqn:Ec; [|exact Hu].
    cbn. intros Hnone. rewrite Hnone in Ec. discriminate Ec.
  - injection Hstep as <-. unfold Learner.addClass. cbn.
    intros Hnone. destruct (Hu Hnone) as (Hk & Hcl & Hr & Hp & Hfr).
    repeat split; try assumption.
    apply Forall_app. split; [exact Hcl|]. now repeat constructor.
Qed.

Lemma untouched_run (trace : list (Learner.Action Activation Result)) (s s' : Learner.State Activation Result) :
  untouched s -> Learner.run s trace = Some s' -> untouched s'.
Proof.
  revert s. induction trace as [|a trace IH]; intros s Hu Hrun; cbn in Hrun.
  - now injection Hrun as <-.
  - destruct (Learner.step s a) as [s1|] eqn:Hstep; [|discriminate Hrun].
    apply (IH s1); [|exact Hrun]. eapply untouched_step; eauto.
Qed.

Lemma untouched_mounted : untouched (Learner.mounted Activation Result).
Proof.
  unfold untouched. cbn. intros _. repeat split; repeat constructor.
Qed.

(** A press of no Train button leaves an empty store empty, with no call
    outstanding and no result. *)
Lemma cleared_step (s s' : Learner.State Activation Result) (a : Learner.Action Activation Result) :
  Learner.isTrain a = false ->
  Learner.knn s = [] /\ Learner.result s = None /\ Learner.pending s = [] ->
  Learner.step s a = Some s' ->
  Learner.knn s' = [] /\ Learner.result s' = None /\ Learner.pending s' = [].
Proof.
  intros Ha (Hk & Hr & Hp) Hstep.
  destruct a as [h readyState activation|k o| |classId readyState activation| |randomColor];
    cbn in Hstep.
  - destruct (take h (Learner.animationFrames s)) as [[c rest]|]; [|discriminate Hstep].
    injection Hstep as <-.
    rewrite predict_empty by (cbn; now rewrite Hk). now repeat split.
  - rewrite Hp in Hstep. discriminate Hstep.
  - destruct (Learner.classifier s); [discriminate Hstep|].
    injection Hstep as <-.
    unfold Learner.rerunEffect, Learner.effect, Learner.cancelAnimationFrame.
    destruct (Learner.requestRef _); cbn; now repeat split.
  - discriminate Ha.
  - injection Hstep as <-. unfold Learner.clearAll.
    destruct (isSome _); cbn; now repeat split.
  - injection Hstep as <-. now repeat split.
Qed.

Lemma cleared_run (trace : list (Learner.Action Activation Result))
    (s s' : Learner.State Activation Result) :
  forallb (fun a => negb (Learner.isTrain a)) trace = true ->
  Learner.knn s = [] /\ Learner.result s = None /\ Learner.pending s = [] ->
  Learner.run s trace = Some s' ->
  Learner.knn s' = [] /\ Learner.result s' = None /\ Learner.pending s' = [].
Proof.
  revert s. induction trace as [|a trace IH]; intros s Hall Hs Hrun; cbn [Learner.run] in Hrun.
  - now injection Hrun as <-.
  - cbn in Hall. apply andb_true_iff in Hall. destruct Hall as [Ha Hall].
    apply negb_true_iff in Ha.
    destruct (Learner.step s a) as [s1|] eqn:Hstep; [|discriminate Hrun].
    apply (IH s1 Hall); [|exact Hrun]. exact (@cleared_step s s1 a Ha Hs Hstep).
Qed.

(** C6 (amended).  For every query vector, a [predict] step that finds the
    store with zero examples in all classes makes no prediction and cannot
    throw: it reaches neither [net.infer] nor [predictClass], leaves
    [result] as it is (null, the empty sentinel, only if it was null) and
    only re-arms itself.  [clearAll], in one step, empties the example list
    of every class, resets every count to zero and sets [result] to null; a
    [predict] step right after it, on any vector, leaves [result] null and
    issues no call; and when no [predictClass] call was outstanding at the
    [clearAll], [result] stays null, the store empty and no call is issued
    through everything that follows short of a press of Train. *)
Theorem predict_on_empty_store_keeps_result :
  (forall (s : Learner.State Activation Result) (c : Learner.Closure) (readyState : option nat) (activation : Activation),
      Learner.numExamples (Learner.knn s) = 0%nat ->
      Learner.predict c readyState activation s = Learner.requestAnimationFrame c s
      /\ Learner.result (Learner.predict c readyState activation s) = Learner.result s
      /\ Learner.pending (Learner.predict c readyState activation s) = Learner.pending s
      /\ Learner.nextCall (Learner.predict c readyState activation s) = Learner.nextCall s)
  /\ (forall (trace : list (Learner.Action Activation Result)) (s : Learner.State Activation Result),
        Learner.run (Learner.mounted Activation Result) trace = Some s ->
        Learner.step s (Learner.Reset Activation Result) = Some (Learner.clearAll s)
        /\ Learner.numExamples (Learner.knn (Learner.clearAll s)) = 0%nat
        /\ (forall classId, Learner.examplesOf classId (Learner.knn (Learner.clearAll s)) = [])
        /\ Forall (fun row => Learner.count row = 0%nat) (Learner.classes (Learner.clearAll s))
        /\ map Learner.id (Learner.classes (Learner.clearAll s)) = map Learner.id (Learner.classes s)
        /\ Learner.result (Learner.clearAll s) = None
        /\ (forall (c : Learner.Closure) (readyState : option nat) (activation : Activation),
             Learner.result (Learner.predict c readyState activation (Learner.clearAll s)) = None
             /\ Learner.pending (Learner.predict c readyState activation (Learner.clearAll s))
                = Learner.pending (Learner.clearAll s))
        /\ (Learner.pending s = [] ->
            forall (after : list (Learner.Action Activation Result))
                   (s' : Learner.State Activation Result),
              forallb (fun a => negb (Learner.isTrain a)) after = true ->
              Learner.run (Learner.clearAll s) after = Some s' ->
              Learner.result s' = None
              /\ Learner.numExamples (Learner.knn s') = 0%nat
              /\ Learner.pending s' = [])).
Proof.
  split.
  - intros s c readyState activation He.
    rewrite (predict_empty s c readyState activation He). now repeat split.
  - intros trace s Hrun.
    pose proof (untouched_run trace untouched_mounted Hrun) as Hu.
    assert (H : Learner.knn (Learner.clearAll s) = []
                /\ Forall (fun row => Learner.count row = 0%nat)
                          (Learner.classes (Learner.clearAll s))
                /\ map Learner.id (Learner.classes (Learner.clearAll s))
                   = map Learner.id (Learner.classes s)
                /\ Learner.result (Learner.clearAll s) = None
                /\ Learner.pending (Learner.clearAll s) = Learner.pending s).
    { unfold Learner.clearAll. destruct (Learner.classifier s) eqn:Ec; cbn [isSome].
      - cbn. repeat split.
        + apply Forall_forall. intros row Hrow. apply in_map_iff in Hrow.
          destruct Hrow as (r & <- & _). reflexivity.
        + rewrite map_map. reflexivity.
      - destruct (Hu Ec) as (Hk & Hcl & Hr & _). now repeat split. }
    destruct H as (Hk & Hcl & Hid & Hr & Hp).
    split; [reflexivity|]. split; [now rewrite Hk|].
    split; [intros classId; now rewrite Hk|]. split; [exact Hcl|].
    split; [exact Hid|]. split; [exact Hr|]. split.
    + intros c readyState activation.
      rewrite predict_empty by now rewrite Hk.
      split; [exact Hr | reflexivity].
    + intros Hnone after s' Hall Hafter.
      assert (Hs : Learner.knn (Learner.clearAll s) = []
                   /\ Learner.result (Learner.clearAll s) = None
                   /\ Learner.pending (Learner.clearAll s) = []).
      { split; [exact Hk|]. split; [exact Hr|]. now rewrite Hp. }
      destruct (@cleared_run after _ s' Hall Hs Hafter) as (Hk' & Hr' & Hp').
      split; [exact Hr'|]. split; [now rewrite Hk' | exact Hp'].
Qed.

End LearnerProperties.

(** The claim C6 as stated fails when the Reset button is pressed while a
    [predictClass] call is outstanding: the call is not cancelled, it
    resolves after [clearAll] and sets [result]; the [predict] step that
    follows finds the store empty and leaves that result in place.  The
    store is empty and every count is zero, yet a prediction is shown. *)
Lemma cleared_store_shows_result_counterexample :
  exists s : Learner.State (list Q) nat,
    Learner.run (Learner.mounted (list Q) nat) resetDuringPrediction = Some s
    /\ Learner.numExamples (Learner.knn s) = 0%nat
    /\ Forall (fun row => Learner.count row = 0%nat) (Learner.classes s)
    /\ Learner.pending s = []
    /\ Learner.result s = Some 7%nat.
Proof.
  eexists. split; [vm_compute; reflexivity|].
  repeat split; repeat constructor.
Qed.

Lemma predict_on_empty_store_keeps_result_witness :
  exists s s' : Learner.State (list Q) nat,
    Learner.run (Learner.mounted (list Q) nat)
      [Learner.Initialised (list Q) nat;
       Learner.Train nat 0 (Some 4%nat) [1; 0];
       Learner.Train nat 0 (Some 4%nat) [0; 1]] = Some s
    /\ Learner.run (Learner.clearAll s) afterReset = Some s'
    /\ Learner.result (Learner.predict (Learner.currentPredict s) (Some 4%nat) [1; 0]
                         (Learner.clearAll s)) = None
    /\ Learner.result s' = None
    /\ Learner.numExamples (Learner.knn s') = 0%nat.
Proof.
  destruct (Learner.run (Learner.mounted (list Q) nat) [Learner.Initialised (list Q) nat;
              Learner.Train nat 0 (Some 4%nat) [1; 0];
              Learner.Train nat 0 (Some 4%nat) [0; 1]]) as [s|] eqn:E0;
    [|vm_compute in E0; discriminate E0].
  destruct (Learner.run (Learner.clearAll s) afterReset) as [s'|] eqn:E1;
    [|vm_compute in E0; injection E0 as <-; vm_compute in E1; discriminate E1].
  destruct (proj2 (predict_on_empty_store_keeps_result (list Q) nat) _ s E0)
    as (_ & _ & _ & _ & _ & _ & Hp & Hafter).
  assert (Hnone : Learner.pending s = []).
  { pose proof E0 as E'. vm_compute in E'. injection E' as <-. reflexivity. }
  destruct (Hafter Hnone afterReset s' eq_refl E1) as (Hr & Hn & _).
  exists s, s'. split; [reflexivity|]. split; [exact E1|].
  split; [apply Hp|]. split; [exact Hr | exact Hn].
Defined.

(* ================================================================== *)
(** * Part III: further properties of the code                         *)
(* ================================================================== *)

(** ** A proof principle for the detection loop *)

(** A property that scheduling does not touch holds in every execution when
    the handlers' state changes, the passing of time, [detect] and its
    continuation keep it. *)
Lemma run_invariant (P : State -> Prop) :
  (forall s s', reschedules s s' -> P s -> P s') ->
  (forall s now, clock s <= now -> P s -> P (set_clock now s)) ->
  (forall s v, P s -> P (set_model v s)) ->
  (forall s v, P s -> P (set_mode v s)) ->
  (forall s v, P s -> P (set_mediaFile v s)) ->
  (forall s v, P s -> P (set_isPaused v s)) ->
  (forall s v, P s -> P (set_settings v s)) ->
  (forall s, P s -> P (set_predictions [] s)) ->
  (forall c now refs s, clock s = now -> P s -> P (detect c now refs s)) ->
  (forall s k c rest o,
      take k (pending s) = Some (c, rest) -> P s ->
      P (detectResume c k o (set_pending rest s))) ->
  P mounted ->
  forall trace s, run mounted trace = Some s -> P s.
Proof.
  intros Hres Hclock Hmodel Hmode Hmedia Hpause Hsettings Hpred Hdetect Hsettle Hinit.
  assert (Hq : forall s rest, P s -> P (set_animationFrames rest s)).
  { intros s rest. apply Hres. unfold reschedules. repeat split. }
  assert (Ht : forall s rest, P s -> P (set_timeouts rest s)).
  { intros s rest. apply Hres. unfold reschedules. repeat split. }
  assert (Heff : forall s, P s -> P (rerunEffect s)).
  { intros s. apply Hres. apply reschedules_rerunEffect. }
  assert (Hstep : forall s e s', P s -> step s e = Some s' -> P s').
  { intros s [now a] s' Hp Hs. unfold step in Hs.
    destruct (Qlt_bool now (clock s)) eqn:Etime; [discriminate Hs|].
    apply Qlt_bool_false in Etime. pose proof (Hclock s now Etime Hp) as Hp0.
    destruct a as [h refs|h refs|k o| | | |t url| | |v|v]; cbn in Hs.
    - destruct (take h (animationFrames s)) as [[c rest]|]; [|discriminate Hs].
      injection Hs as <-. apply Hdetect; [reflexivity|]. now apply Hq.
    - destruct (take h (timeouts s)) as [[[due c] rest]|]; [|discriminate Hs].
      destruct (Qlt_bool now due); [discriminate Hs|].
      injection Hs as <-. apply Hdetect; [reflexivity|]. now apply Ht.
    - destruct (take k (pending s)) as [[c rest]|] eqn:Ek; [|discriminate Hs].
      injection Hs as <-. apply (Hsettle (set_clock now s)); assumption.
    - destruct (model s); [discriminate Hs|].
      injection Hs as <-. now apply Heff, Hmodel.
    - injection Hs as <-. now apply Heff, Hpred, Hmode.
    - injection Hs as <-. now apply Heff, Hpause.
    - destruct (isUpload (mode s) && negb (isSome (mediaFile s))); [|discriminate Hs].
      injection Hs as <-. now apply Heff, Hpred, Hmode, Hmedia.
    - destruct (isUpload (mode s) && isSome (mediaFile s)); [|discriminate Hs].
      injection Hs as <-. now apply Heff, Hpred, Hmode, Hmedia.
    - destruct (isUpload (mode s) && isVideo (mediaFile s)); [|discriminate Hs].
      destruct (isPaused s); injection Hs as <-.
      + now apply Heff, Hpause.
      + exact Hp0.
    - injection Hs as <-. now apply Heff, Hsettings.
    - injection Hs as <-. now apply Heff, Hsettings.
  }
  assert (Hrun : forall trace s s', P s -> run s trace = Some s' -> P s').
  { induction trace as [|e trace IH]; intros s s' Hp Hr; cbn in Hr.
    - now injection Hr as <-.
    - destruct (step s e) as [s1|] eqn:Es; [|discriminate Hr].
      apply (IH s1); [|exact Hr]. eapply Hstep; eauto. }
  intros trace s. now apply Hrun.
Qed.

(** ** The published rate *)

Lemma natQ_S (n : nat) : natQ (S n) == natQ n + 1.
Proof.
  unfold natQ. rewrite Nat2Z.inj_succ. unfold Z.succ.
  rewrite inject_Z_plus. reflexivity.
Qed.

Lemma natQ_le (n m : nat) : (n <= m)%nat -> natQ n <= natQ m.
Proof.
  intros Hle. unfold natQ. rewrite <- Zle_Qle. lia.
Qed.

Lemma metered_ext (s s' : State) :
  lastFpsTime s' = lastFpsTime s -> lastFrameTime s' = lastFrameTime s ->
  frameCount s' = frameCount s -> fps s' = fps s ->
  metered s -> metered s'.
Proof. unfold metered. intros -> -> -> ->. auto. Qed.

Lemma metered_detect (c : Closure) (now : Q) (refs : Refs) (s : State) :
  metered s -> metered (detect c now refs s).
Proof.
  intros (Hord & Hback & Hcount & Hfps). unfold detect.
  destruct (c_isPaused c || negb (isSome (c_model c))); [now repeat split|].
  destruct (Qlt_bool (now - lastFrameTime s) 41) eqn:Ethrottle; [now repeat split|].
  apply Qlt_bool_false in Ethrottle.
  destruct (selectVideoEl c refs) as [videoEl|].
  - unfold modelDetect. cbn -[Qle_bool Qminus].
    destruct (Qle_bool 1000 (now - lastFpsTime s)) eqn:Ewindow; unfold metered; cbn.
    + split; [lra|]. split; [change (natQ 0) with 0; lra|]. split; lia.
    + assert (Hlt : now - lastFpsTime s < 1000).
      { apply Qnot_le_lt. intros Hle. apply Qle_bool_iff in Hle. congruence. }
      pose proof (natQ_S (frameCount s)) as HS.
      assert (Hnew : 41 * natQ (S (frameCount s)) <= now - lastFpsTime s).
      { rewrite HS. lra. }
      repeat split; try assumption; try lra.
      destruct (le_lt_dec (S (frameCount s)) 24) as [Hok|Hbig]; [exact Hok|].
      exfalso. apply (natQ_le (n := 25)) in Hbig.
      change (natQ 25) with 25 in Hbig. lra.
  - apply (metered_ext (s := set_lastFrameTime now s)).
    + apply (reschedules_rearm c).
    + apply (reschedules_rearm c).
    + apply (reschedules_rearm c).
    + apply (reschedules_rearm c).
    + unfold metered. cbn. repeat split; try assumption; lra.
Qed.

Lemma run_metered (trace : list Event) (s : State) :
  run mounted trace = Some s -> metered s.
Proof.
  revert trace s. apply run_invariant.
  - intros s s' R. apply metered_ext; apply R.
  - intros s now _. apply metered_ext; reflexivity.
  - intros s v. apply metered_ext; reflexivity.
  - intros s v. apply metered_ext; reflexivity.
  - intros s v. apply metered_ext; reflexivity.
  - intros s v. apply metered_ext; reflexivity.
  - intros s v. apply metered_ext; reflexivity.
  - intros s. apply metered_ext; reflexivity.
  - intros c now refs s _. apply metered_detect.
  - intros s k c rest o _ Hm. unfold detectResume.
    destruct o.
    + apply (metered_ext (s := s)); try exact Hm;
        apply (reschedules_rearm c
                 (set_applied (k :: applied (set_pending rest s))
                    (set_predictions results (set_pending rest s)))).
    + apply (metered_ext (s := s)); try exact Hm;
        apply (reschedules_rearm c
                 (set_errors (k :: errors (set_pending rest s)) (set_pending rest s))).
  - unfold metered. split; [vm_compute; discriminate|].
    split; [vm_compute; discriminate|]. cbn. split; lia.
Qed.

(** X1.  In every execution the published rate [fps] is at most 25 and the
    frame counter at most 24; and 25 is reached: a loop running at full
    speed, one call every 41 ms, publishes 25 although the cap is named 24
    frames per second. *)
Theorem published_rate_at_most_25 :
  (forall (trace : list Event) (s : State),
      run mounted trace = Some s -> (fps s <= 25)%nat /\ (frameCount s <= 24)%nat)
  /\ (exists s, run mounted fullSpeed = Some s /\ fps s = 25%nat).
Proof.
  split.
  - intros trace s Hrun. destruct (run_metered trace Hrun) as (_ & _ & Hc & Hf). now split.
  - eexists. split; [vm_compute; reflexivity | reflexivity].
Qed.

Lemma published_rate_at_most_25_witness :
  exists s,
    run mounted fullSpeed = Some s
    /\ (fps s <= 25)%nat /\ (frameCount s <= 24)%nat.
Proof.
  destruct (run mounted fullSpeed) as [s|] eqn:E; [|vm_compute in E; discriminate E].
  exists s. split; [reflexivity|].
  exact (proj1 published_rate_at_most_25 fullSpeed s E).
Defined.

(** ** Every call is accounted for *)

Lemma take_Permutation {A} (h : nat) (q : list (nat * A)) (a : A) (rest : list (nat * A)) :
  take h q = Some (a, rest) -> Permutation (map fst q) (h :: map fst rest).
Proof.
  revert rest. induction q as [|[h' b] q IH]; intros rest E; cbn in E.
  - discriminate E.
  - destruct (Nat.eqb h' h) eqn:Eh.
    + injection E as <- <-. apply Nat.eqb_eq in Eh. subst h'. reflexivity.
    + destruct (take h q) as [[b' rest']|]; [|discriminate E].
      injection E as <- <-. cbn. rewrite (IH rest' eq_refl). apply perm_swap.
Qed.

Lemma accounted_ext (s s' : State) :
  calls s' = calls s -> pending s' = pending s -> applied s' = applied s ->
  errors s' = errors s -> nextCall s' = nextCall s ->
  accounted s -> accounted s'.
Proof. unfold accounted. intros -> -> -> -> ->. auto. Qed.

Lemma accounted_reschedules (s s' : State) : reschedules s s' -> accounted s -> accounted s'.
Proof. intros R. apply accounted_ext; apply R. Qed.

Lemma accounted_modelDetect (c : Closure) (now : Q) (videoEl : VideoEl) (s : State) :
  accounted s -> accounted (modelDetect c now videoEl s).
Proof.
  intros (Hperm & Hlt & Hnd). unfold accounted, modelDetect. cbn.
  split; [|split].
  - rewrite map_app. cbn. rewrite <- app_assoc. cbn.
    apply Permutation_cons_app. exact Hperm.
  - constructor; [cbn; lia|]. eapply Forall_impl; [|exact Hlt]. cbn. intros call H. lia.
  - constructor; [|exact Hnd]. intros Hin. apply in_map_iff in Hin.
    destruct Hin as (call & Hid & Hcall). rewrite Forall_forall in Hlt.
    specialize (Hlt call Hcall). lia.
Qed.

Lemma accounted_detect (c : Closure) (now : Q) (refs : Refs) (s : State) :
  accounted s -> accounted (detect c now refs s).
Proof.
  intros Ha. unfold detect.
  destruct (c_isPaused c || negb (isSome (c_model c))); [exact Ha|].
  destruct (Qlt_bool (now - lastFrameTime s) 41).
  - exact (accounted_reschedules (reschedules_requestAnimationFrame c s) Ha).
  - destruct (selectVideoEl c refs) as [videoEl|].
    + apply accounted_modelDetect.
      destruct (Qle_bool 1000 _); revert Ha; apply accounted_ext; reflexivity.
    + apply (accounted_reschedules (reschedules_rearm c (set_lastFrameTime now s))).
      revert Ha. apply accounted_ext; reflexivity.
Qed.

Lemma accounted_detectResume (s : State) (k : nat) (c : Closure) (rest : list (nat * Closure))
    (o : Outcome) :
  take k (pending s) = Some (c, rest) -> accounted s ->
  accounted (detectResume c k o (set_pending rest s)).
Proof.
  intros Ht (Hperm & Hlt & Hnd). apply take_Permutation in Ht.
  unfold detectResume.
  destruct o.
  - apply (accounted_reschedules
             (reschedules_rearm c
                (set_applied (k :: applied (set_pending rest s))
                   (set_predictions results (set_pending rest s))))).
    unfold accounted. cbn. repeat split; try assumption.
    rewrite Hperm, Ht. cbn. apply Permutation_middle.
  - apply (accounted_reschedules
             (reschedules_rearm c
                (set_errors (k :: errors (set_pending rest s)) (set_pending rest s)))).
    unfold accounted. cbn. repeat split; try assumption.
    rewrite Hperm, Ht. cbn. rewrite app_assoc.
    etransitivity; [apply Permutation_middle|]. now rewrite <- app_assoc.
Qed.

Lemma run_accounted (trace : list Event) (s : State) :
  run mounted trace = Some s -> accounted s.
Proof.
  revert trace s. apply run_invariant.
  - apply accounted_reschedules.
  - intros s now _. apply accounted_ext; reflexivity.
  - intros s v. apply accounted_ext; reflexivity.
  - intros s v. apply accounted_ext; reflexivity.
  - intros s v. apply accounted_ext; reflexivity.
  - intros s v. apply accounted_ext; reflexivity.
  - intros s v. apply accounted_ext; reflexivity.
  - intros s. apply accounted_ext; reflexivity.
  - intros c now refs s _. apply accounted_detect.
  - intros s k c rest o. apply accounted_detectResume.
  - unfold accounted. cbn. repeat split; constructor.
Qed.

(** X2.  In every execution each call of [model.detect] that was issued is in
    exactly one of three places: outstanding, applied with [setPredictions],
    or logged with [console.error].  No result is dropped and none is applied
    or logged twice. *)
Theorem every_call_is_accounted_for :
  forall (trace : list Event) (s : State),
    run mounted trace = Some s ->
    NoDup (map fst (pending s) ++ applied s ++ errors s)
    /\ forall k,
         In k (map callId (calls s))
         <-> In k (map fst (pending s)) \/ In k (applied s) \/ In k (errors s).
Proof.
  intros trace s Hrun. destruct (run_accounted trace Hrun) as (Hperm & _ & Hnd).
  split.
  - eapply Permutation_NoDup; [exact Hperm | exact Hnd].
  - intros k. split.
    + intros Hin. apply (Permutation_in _ Hperm) in Hin.
      apply in_app_or in Hin. destruct Hin as [H|H]; [now left|].
      apply in_app_or in H. tauto.
    + intros Hin. apply (Permutation_in _ (Permutation_sym Hperm)).
      apply in_or_app. destruct Hin as [H|[H|H]]; [now left| |];
        right; apply in_or_app; tauto.
Qed.

Lemma every_call_is_accounted_for_witness :
  exists s,
    run mounted failedCall = Some s
    /\ NoDup (map fst (pending s) ++ applied s ++ errors s)
    /\ In 0%nat (errors s).
Proof.
  destruct (run mounted failedCall) as [s|] eqn:E; [|vm_compute in E; discriminate E].
  exists s. split; [reflexivity|].
  split; [exact (proj1 (every_call_is_accounted_for failedCall E))|].
  vm_compute in E. injection E as <-. now left.
Defined.

(** ** What the callbacks close over *)

Lemma tracked_mono (s s0 : State) (c : Closure) :
  (model s0 = None -> model s = None) -> tracked s c -> tracked s0 c.
Proof. unfold tracked. intros Hm [H1 H2]. split; auto. Qed.

Lemma Forall_tracked_mono {A} (f : A -> Closure) (s s0 : State) (q : list A) :
  (model s0 = None -> model s = None) ->
  Forall (fun e => tracked s (f e)) q -> Forall (fun e => tracked s0 (f e)) q.
Proof.
  intros Hm. apply Forall_impl. intros e. now apply tracked_mono.
Qed.

Lemma tracked_currentDetect (s : State) :
  maxObjects (settings s) = 10%nat -> tracked s (currentDetect s).
Proof. intros H. unfold tracked, currentDetect. cbn. auto. Qed.

Lemma closuresTracked_ext (s s' : State) :
  model s' = model s -> settings s' = settings s ->
  animationFrames s' = animationFrames s -> timeouts s' = timeouts s ->
  pending s' = pending s -> calls s' = calls s ->
  predictions s' = predictions s -> fps s' = fps s ->
  closuresTracked s -> closuresTracked s'.
Proof.
  unfold closuresTracked, tracked. intros -> -> -> -> -> -> -> ->. auto.
Qed.

Lemma closuresTracked_build (s s' : State) :
  model s' = model s ->
  maxObjects (settings s') = 10%nat ->
  Forall (fun e => tracked s (snd e)) (animationFrames s') ->
  Forall (fun e => tracked s (snd (snd e))) (timeouts s') ->
  Forall (fun e => tracked s (snd e)) (pending s') ->
  Forall (fun call => callMaxObjects call = 10%nat) (calls s') ->
  (model s = None ->
   calls s' = [] /\ pending s' = [] /\ predictions s' = [] /\ fps s' = 0%nat) ->
  closuresTracked s'.
Proof.
  intros Hm Hs Hf Ht Hp Hc Hno. unfold closuresTracked, tracked in *.
  rewrite Hm. auto 10.
Qed.

Lemma closuresTracked_requestAnimationFrame (c : Closure) (s : State) :
  tracked s c -> closuresTracked s -> closuresTracked (requestAnimationFrame c s).
Proof.
  intros Hc (Hs & Hf & Ht & Hp & Hcalls & Hno).
  apply (closuresTracked_build (s := s)); try assumption; try reflexivity.
  unfold requestAnimationFrame. cbn.
  apply Forall_app. split; [exact Hf|]. constructor; [exact Hc | constructor].
Qed.

Lemma closuresTracked_rearm (c : Closure) (s : State) :
  tracked s c -> closuresTracked s -> closuresTracked (rearm c s).
Proof.
  intros Hc Hs. unfold rearm. destruct (isLive (c_mode c) || _); [|exact Hs].
  now apply closuresTracked_requestAnimationFrame.
Qed.

Lemma closuresTracked_rerunEffect (s : State) :
  closuresTracked s -> closuresTracked (rerunEffect s).
Proof.
  intros Hs.
  assert (Hc : closuresTracked (cancelAnimationFrame s)).
  { unfold cancelAnimationFrame. destruct (requestRef s) as [h|]; [|exact Hs].
    destruct Hs as (Hs & Hf & Ht & Hp & Hcalls & Hno).
    apply (closuresTracked_build (s := s)); try assumption; try reflexivity. cbn.
    unfold without. apply Forall_forall. intros e He. apply filter_In in He.
    rewrite Forall_forall in Hf. now apply Hf. }
  unfold rerunEffect, effect.
  assert (Hcur : tracked (cancelAnimationFrame s) (currentDetect (cancelAnimationFrame s))).
  { apply tracked_currentDetect. apply Hc. }
  destruct (isUpload _ && isImage _ && isSome _).
  - destruct Hc as (Hs' & Hf & Ht & Hp & Hcalls & Hno).
    apply (closuresTracked_build (s := cancelAnimationFrame s));
      try assumption; try reflexivity.
    unfold setTimeout. cbn.
    apply Forall_app. split; [exact Ht|]. constructor; [exact Hcur | constructor].
  - destruct (negb _); [|exact Hc].
    now apply closuresTracked_requestAnimationFrame.
Qed.

Lemma closuresTracked_detect (c : Closure) (now : Q) (refs : Refs) (s : State) :
  tracked s c -> closuresTracked s -> closuresTracked (detect c now refs s).
Proof.
  intros Hc Hs. unfold detect.
  destruct (c_isPaused c); [exact Hs|]. cbn [orb].
  destruct (isSome (c_model c)) eqn:Hmodel; [|exact Hs]. cbn [negb].
  assert (Hloaded : model s <> None).
  { intros Hnone. destruct Hc as [Hc _]. rewrite (Hc Hnone) in Hmodel. discriminate Hmodel. }
  destruct (Qlt_bool _ 41); [now apply closuresTracked_requestAnimationFrame|].
  destruct (selectVideoEl c refs) as [videoEl|].
  - destruct Hs as (Hs & Hf & Ht & Hp & Hcalls & Hno). pose proof Hc as [Hc1 Hc2].
    apply (closuresTracked_build (s := s));
      unfold modelDetect; destruct (Qle_bool 1000 _); cbn;
      try assumption; try reflexivity; try (intros Hnone; contradiction);
      try (apply Forall_app; split; [exact Hp|]; constructor; [exact Hc | constructor]);
      try (constructor; [exact Hc2 | exact Hcalls]).
  - apply closuresTracked_rearm.
    + exact Hc.
    + revert Hs. apply closuresTracked_ext; reflexivity.
Qed.

Lemma closuresTracked_detectResume (c : Closure) (k : nat) (o : Outcome) (s : State) :
  tracked s c -> model s <> None -> closuresTracked s ->
  closuresTracked (detectResume c k o s).
Proof.
  intros Hc Hloaded Hs. unfold detectResume. apply closuresTracked_rearm.
  - destruct o; exact Hc.
  - destruct Hs as (Hs & Hf & Ht & Hp & Hcalls & Hno).
    destruct o; apply (closuresTracked_build (s := s));
      try assumption; try reflexivity; intros Hnone; contradiction.
Qed.

Lemma closuresTracked_took (s : State) (frames : list (nat * Closure))
    (timers : list (nat * (Q * Closure))) (calls' : list (nat * Closure)) (now : Q) :
  incl frames (animationFrames s) -> incl timers (timeouts s) -> incl calls' (pending s) ->
  (model s = None -> calls' = []) ->
  closuresTracked s ->
  closuresTracked
    (set_pending calls' (set_timeouts timers (set_animationFrames frames (set_clock now s)))).
Proof.
  intros If It Ip Hnone (Hs & Hf & Ht & Hp & Hcalls & Hno).
  apply (closuresTracked_build (s := s)); try assumption; try reflexivity; cbn.
  - apply Forall_forall. intros e He. rewrite Forall_forall in Hf. now apply Hf, If.
  - apply Forall_forall. intros e He. rewrite Forall_forall in Ht. now apply Ht, It.
  - apply Forall_forall. intros e He. rewrite Forall_forall in Hp. now apply Hp, Ip.
  - intros Hn. destruct (Hno Hn) as (H1 & H2 & H3 & H4). auto.
Qed.

(** The state changes of the handlers: the model may appear, [maxObjects] is
    kept, predictions may be emptied. *)
Lemma closuresTracked_rerender (s s0 : State) :
  (model s0 = None -> model s = None) ->
  maxObjects (settings s0) = 10%nat ->
  animationFrames s0 = animationFrames s -> timeouts s0 = timeouts s ->
  pending s0 = pending s -> calls s0 = calls s -> fps s0 = fps s ->
  (predictions s0 = predictions s \/ predictions s0 = []) ->
  closuresTracked s -> closuresTracked (rerunEffect s0).
Proof.
  intros Hm Hs0 Ef Et Ep Ec Efps Epred (Hs & Hf & Ht & Hp & Hcalls & Hno).
  apply closuresTracked_rerunEffect. unfold closuresTracked.
  rewrite Ef, Et, Ep, Ec, Efps.
  split; [exact Hs0|].
  split; [eapply Forall_tracked_mono; [exact Hm | exact Hf]|].
  split; [eapply Forall_tracked_mono; [exact Hm | exact Ht]|].
  split; [eapply Forall_tracked_mono; [exact Hm | exact Hp]|].
  split; [exact Hcalls|].
  intros Hnone. destruct (Hno (Hm Hnone)) as (H1 & H2 & H3 & H4).
  repeat split; try assumption.
  destruct Epred as [-> | ->]; [exact H3 | reflexivity].
Qed.

Ltac rerender_tracked s Hs :=
  apply (closuresTracked_rerender (s := s));
  [ cbn; first [ discriminate | intros H; exact H ]
  | cbn; apply Hs
  | reflexivity | reflexivity | reflexivity | reflexivity | reflexivity
  | first [ left; reflexivity | right; reflexivity ]
  | exact Hs ].

Lemma step_closuresTracked (s s' : State) (e : Event) :
  closuresTracked s -> step s e = Some s' -> closuresTracked s'.
Proof.
  intros Hs Hstep. destruct e as [now a]. unfold step in Hstep.
  destruct (Qlt_bool now (clock s)); [discriminate Hstep|].
  destruct a as [h refs|h refs|k o| | | |t url| | |v|v]; cbn in Hstep.
  - destruct (take h (animationFrames s)) as [[c rest]|] eqn:Et; [|discriminate Hstep].
    injection Hstep as <-.
    destruct (take_incl _ _ Et) as [Hin Hincl].
    assert (Hc : tracked s c).
    { destruct Hs as (_ & Hf & _). rewrite Forall_forall in Hf. exact (Hf _ Hin). }
    apply closuresTracked_detect; [exact Hc|].
    apply (closuresTracked_took (s := s) (frames := rest) (timers := timeouts s)
             (calls' := pending s) now); auto using incl_refl.
    intros Hnone. now apply Hs.
  - destruct (take h (timeouts s)) as [[[due c] rest]|] eqn:Et; [|discriminate Hstep].
    destruct (Qlt_bool now due); [discriminate Hstep|].
    injection Hstep as <-.
    destruct (take_incl _ _ Et) as [Hin Hincl].
    assert (Hc : tracked s c).
    { destruct Hs as (_ & _ & Ht & _). rewrite Forall_forall in Ht. exact (Ht _ Hin). }
    apply closuresTracked_detect; [exact Hc|].
    apply (closuresTracked_took (s := s) (frames := animationFrames s) (timers := rest)
             (calls' := pending s) now); auto using incl_refl.
    intros Hnone. now apply Hs.
  - destruct (take k (pending s)) as [[c rest]|] eqn:Et; [|discriminate Hstep].
    injection Hstep as <-.
    destruct (take_incl _ _ Et) as [Hin Hincl].
    assert (Hc : tracked s c).
    { destruct Hs as (_ & _ & _ & Hp & _). rewrite Forall_forall in Hp. exact (Hp _ Hin). }
    assert (Hloaded : model s <> None).
    { intros Hnone. destruct Hs as (_ & _ & _ & _ & _ & Hno).
      destruct (Hno Hnone) as (_ & Hp & _). rewrite Hp in Hin. contradiction. }
    apply closuresTracked_detectResume; [exact Hc | exact Hloaded |].
    apply (closuresTracked_took (s := s) (frames := animationFrames s)
             (timers := timeouts s) (calls' := rest) now); auto using incl_refl.
    intros Hnone. contradiction.
  - destruct (model s); [discriminate Hstep|].
    injection Hstep as <-. rerender_tracked s Hs.
  - injection Hstep as <-. rerender_tracked s Hs.
  - injection Hstep as <-. rerender_tracked s Hs.
  - destruct (isUpload (mode s) && negb (isSome (mediaFile s))); [|discriminate Hstep].
    injection Hstep as <-. rerender_tracked s Hs.
  - destruct (isUpload (mode s) && isSome (mediaFile s)); [|discriminate Hstep].
    injection Hstep as <-. rerender_tracked s Hs.
  - destruct (isUpload (mode s) && isVideo (mediaFile s)); [|discriminate Hstep].
    destruct (isPaused s); injection Hstep as <-.
    + rerender_tracked s Hs.
    + revert Hs. apply closuresTracked_ext; reflexivity.
  - injection Hstep as <-. rerender_tracked s Hs.
  - injection Hstep as <-. rerender_tracked s Hs.
Qed.

Lemma run_closuresTracked (trace : list Event) (s s' : State) :
  closuresTracked s -> run s trace = Some s' -> closuresTracked s'.
Proof.
  revert s. induction trace as [|e trace IH]; intros s Hs Hrun; cbn in Hrun.
  - now injection Hrun as <-.
  - destruct (step s e) as [s1|] eqn:Hstep; [|discriminate Hrun].
    apply (IH s1); [|exact Hrun]. eapply step_closuresTracked; eauto.
Qed.

Lemma mounted_closuresTracked : closuresTracked mounted.
Proof.
  unfold closuresTracked, tracked. cbn.
  repeat split; repeat constructor; auto.
Qed.

(** X3.  Until the model has loaded, in every execution, no call of
    [model.detect] has been issued or is outstanding, there are no
    predictions and no rate has been published: callbacks that run before
    the model is there return at once. *)
Theorem nothing_happens_before_model_loads :
  forall (trace : list Event) (s : State),
    run mounted trace = Some s ->
    model s = None ->
    calls s = [] /\ pending s = [] /\ predictions s = [] /\ fps s = 0%nat.
Proof.
  intros trace s Hrun Hnone.
  now apply (run_closuresTracked trace mounted_closuresTracked Hrun).
Qed.

Lemma nothing_happens_before_model_loads_witness :
  exists s,
    run mounted [(16, AnimationFrame 0 webcamReady); (33, ToggleMode); (50, TogglePause)]
      = Some s
    /\ calls s = [] /\ predictions s = [].
Proof.
  destruct (run mounted [(16, AnimationFrame 0 webcamReady); (33, ToggleMode);
                         (50, TogglePause)]) as [s|] eqn:E;
    [|vm_compute in E; discriminate E].
  exists s. split; [reflexivity|].
  destruct (nothing_happens_before_model_loads _ E) as (Hc & _ & Hp & _).
  - vm_compute in E. injection E as <-. reflexivity.
  - now split.
Defined.

(** X4.  In every execution each call of [model.detect] is made with
    [maxObjects] 10: no handler changes that setting, whatever the sliders
    do. *)
Theorem every_call_asks_for_ten_objects :
  forall (trace : list Event) (s : State),
    run mounted trace = Some s ->
    maxObjects (settings s) = 10%nat
    /\ Forall (fun call => callMaxObjects call = 10%nat) (calls s).
Proof.
  intros trace s Hrun.
  destruct (run_closuresTracked trace mounted_closuresTracked Hrun)
    as (Hs & _ & _ & _ & Hcalls & _).
  now split.
Qed.

Lemma every_call_asks_for_ten_objects_witness :
  exists s,
    run mounted sliderDuringCall = Some s
    /\ Forall (fun call => callMaxObjects call = 10%nat) (calls s).
Proof.
  destruct (run mounted sliderDuringCall) as [s|] eqn:E; [|vm_compute in E; discriminate E].
  exists s. split; [reflexivity|]. exact (proj2 (every_call_asks_for_ten_objects _ E)).
Defined.

(** ** Pause *)

Lemma halted_effect (s : State) :
  isPaused s = true -> animationFrames s = [] -> pending s = [] ->
  Forall (fun e => c_isPaused (snd (snd e)) = true) (timeouts s) ->
  halted (effect s).
Proof.
  intros Hp Hf Hq Ht. unfold halted, effect.
  destruct (isUpload (mode s) && isImage (mediaFile s) && isSome (model s)).
  - cbn. repeat split; try assumption.
    apply Forall_app. split; [exact Ht|]. constructor; [exact Hp | constructor].
  - rewrite Hp. cbn. now repeat split.
Qed.

Lemma halted_rerunEffect (s : State) : halted s -> halted (rerunEffect s).
Proof.
  intros (Hp & Hf & Hq & Ht). unfold rerunEffect, cancelAnimationFrame.
  destruct (requestRef s); apply halted_effect; cbn; try assumption.
  now rewrite Hf.
Qed.

Lemma calls_rerunEffect (s : State) : calls (rerunEffect s) = calls s.
Proof. apply (reschedules_rerunEffect s). Qed.

Lemma halted_ext (s s' : State) :
  isPaused s' = isPaused s -> animationFrames s' = animationFrames s ->
  pending s' = pending s -> timeouts s' = timeouts s ->
  halted s -> halted s'.
Proof. unfold halted. intros -> -> -> ->. auto. Qed.

Ltac halted_rerender s Hh :=
  split;
  [ apply halted_rerunEffect; apply (halted_ext (s := s)); [reflexivity .. | exact Hh]
  | rewrite calls_rerunEffect; reflexivity ].

Lemma halted_step (s s' : State) (now : Q) (a : Action) :
  halted s -> resumes a = false -> step s (now, a) = Some s' ->
  halted s' /\ calls s' = calls s.
Proof.
  intros Hh Ha Hstep. pose proof Hh as (Hp & Hf & Hq & Ht).
  unfold step in Hstep. destruct (Qlt_bool now (clock s)); [discriminate Hstep|].
  destruct a as [h refs|h refs|k o| | | |t url| | |v|v]; cbn in Hstep.
  - rewrite Hf in Hstep. discriminate Hstep.
  - destruct (take h (timeouts s)) as [[[due c] rest]|] eqn:Et; [|discriminate Hstep].
    destruct (Qlt_bool now due); [discriminate Hstep|]. injection Hstep as <-.
    destruct (@take_Forall _ _ _ _ _ _ Et Ht) as [Hc Hrest]. cbn in Hc.
    unfold detect. rewrite Hc. cbn. now repeat split.
  - rewrite Hq in Hstep. discriminate Hstep.
  - destruct (model s); [discriminate Hstep|]. injection Hstep as <-.
    halted_rerender s Hh.
  - injection Hstep as <-. halted_rerender s Hh.
  - discriminate Ha.
  - destruct (_ && _); [|discriminate Hstep]. injection Hstep as <-.
    halted_rerender s Hh.
  - destruct (_ && _); [|discriminate Hstep]. injection Hstep as <-.
    halted_rerender s Hh.
  - discriminate Ha.
  - injection Hstep as <-. halted_rerender s Hh.
  - injection Hstep as <-. halted_rerender s Hh.
Qed.

Lemma halted_run (trace : list Event) (s s' : State) :
  halted s -> forallb (fun e => negb (resumes (snd e))) trace = true ->
  run s trace = Some s' -> halted s' /\ calls s' = calls s.
Proof.
  revert s. induction trace as [|[now a] trace IH]; intros s Hh Hall Hrun; cbn [run] in Hrun.
  - injection Hrun as <-. now split.
  - cbn in Hall. apply andb_true_iff in Hall. destruct Hall as [Ha Hall].
    apply negb_true_iff in Ha.
    destruct (step s (now, a)) as [s1|] eqn:Hstep; [|discriminate Hrun].
    destruct (@halted_step _ _ _ _ Hh Ha Hstep) as [Hh1 Hc1].
    destruct (IH s1 Hh1 Hall Hrun) as [Hh' Hc']. split; [exact Hh' | congruence].
Qed.

(** X5.  When the pause button is pressed in a calm execution while no call
    is outstanding and no timer is set, inference stops: whatever follows
    short of a resume (the pause button again, or playing the uploaded
    video), the component stays paused, no frame callback is requested and
    [model.detect] is not called again. *)
Theorem pause_when_quiet_stops_inference :
  forall (before after : list Event) (s s1 s' : State) (t : Q),
    runCalm mounted before = Some s ->
    isPaused s = false -> pending s = [] -> timeouts s = [] ->
    step s (t, TogglePause) = Some s1 ->
    forallb (fun e => negb (resumes (snd e))) after = true ->
    run s1 after = Some s' ->
    isPaused s' = true /\ calls s' = calls s
    /\ animationFrames s' = [] /\ pending s' = [].
Proof.
  intros before after s s1 s' t Hrun Hp Hq Ht Hstep Hall Hafter.
  pose proof (runCalm_singleFlow before mounted_singleFlow Hrun) as Hs.
  unfold step in Hstep. destruct (Qlt_bool t (clock s)); [discriminate Hstep|].
  injection Hstep as <-.
  assert (Hh : halted (rerunEffect (set_isPaused (negb (isPaused s)) (set_clock t s)))).
  { unfold rerunEffect.
    destruct (@quiet_cancel (set_isPaused (negb (isPaused s)) (set_clock t s)) Hs Hq Ht)
      as (Hf' & Ht' & Hq').
    apply halted_effect.
    - unfold cancelAnimationFrame. destruct (requestRef _); cbn; now rewrite Hp.
    - exact Hf'.
    - exact Hq'.
    - rewrite Ht'. constructor. }
  destruct (@halted_run after _ _ Hh Hall Hafter) as [(Hp' & Hf' & Hq' & _) Hc].
  rewrite calls_rerunEffect in Hc. cbn in Hc. now repeat split.
Qed.

Lemma pause_when_quiet_stops_inference_witness :
  exists s s1 s',
    runCalm mounted oneCycle = Some s
    /\ step s (2050, TogglePause) = Some s1
    /\ run s1 pausedSession = Some s'
    /\ isPaused s' = true /\ calls s' = calls s /\ animationFrames s' = [].
Proof.
  destruct (runCalm mounted oneCycle) as [s|] eqn:E; [|vm_compute in E; discriminate E].
  destruct (step s (2050, TogglePause)) as [s1|] eqn:E1;
    [|vm_compute in E; injection E as <-; vm_compute in E1; discriminate E1].
  destruct (run s1 pausedSession) as [s'|] eqn:E2;
    [|vm_compute in E; injection E as <-; vm_compute in E1; injection E1 as <-;
      vm_compute in E2; discriminate E2].
  exists s, s1, s'. split; [reflexivity|]. split; [exact E1|]. split; [exact E2|].
  assert (H : isPaused s = false /\ pending s = [] /\ timeouts s = []).
  { pose proof E as E'. vm_compute in E'. injection E' as <-. now repeat split. }
  destruct H as (Hp & Hq & Ht).
  destruct (@pause_when_quiet_stops_inference oneCycle pausedSession s s1 s' 2050
              E Hp Hq Ht E1 eq_refl E2) as (H1 & H2 & H3 & _).
  now repeat split.
Defined.

(** X6.  After a pause pressed in a quiet moment, and whatever followed
    short of a resume, pressing the pause button again starts exactly one
    loop again: one frame callback is requested, or, for an uploaded image
    with the model loaded, one timer of 500 ms is set, in either case with the
    [detect] of the render after the resume.  Timers left from the pause
    hold callbacks that close over the pause, and no call is outstanding. *)
Theorem resume_restarts_one_loop :
  forall (before after : list Event) (s s1 s2 s3 : State) (t t' : Q),
    runCalm mounted before = Some s ->
    isPaused s = false -> pending s = [] -> timeouts s = [] ->
    step s (t, TogglePause) = Some s1 ->
    forallb (fun e => negb (resumes (snd e))) after = true ->
    run s1 after = Some s2 ->
    step s2 (t', TogglePause) = Some s3 ->
    isPaused s3 = false /\ pending s3 = []
    /\ Forall (fun e => c_isPaused (snd (snd e)) = true) (timeouts s2)
    /\ ((animationFrames s3 = [(nextHandle s2, currentDetect s3)]
         /\ timeouts s3 = timeouts s2)
        \/ (animationFrames s3 = []
            /\ timeouts s3 = timeouts s2 ++ [(nextHandle s2, (t' + 500, currentDetect s3))])).
Proof.
  intros before after s s1 s2 s3 t t' Hrun Hp Hq Ht Hstep Hall Hafter Hresume.
  pose proof (runCalm_singleFlow before mounted_singleFlow Hrun) as Hs.
  unfold step in Hstep. destruct (Qlt_bool t (clock s)); [discriminate Hstep|].
  injection Hstep as <-.
  assert (Hh : halted (rerunEffect (set_isPaused (negb (isPaused s)) (set_clock t s)))).
  { unfold rerunEffect.
    destruct (@quiet_cancel (set_isPaused (negb (isPaused s)) (set_clock t s)) Hs Hq Ht)
      as (Hf' & Ht' & Hq').
    apply halted_effect.
    - unfold cancelAnimationFrame. destruct (requestRef _); cbn; now rewrite Hp.
    - exact Hf'.
    - exact Hq'.
    - rewrite Ht'. constructor. }
  destruct (@halted_run after _ _ Hh Hall Hafter) as [(Hp2 & Hf2 & Hq2 & Ht2) _].
  clear Hh Hafter.
  unfold step in Hresume. destruct (Qlt_bool t' (clock s2)); [discriminate Hresume|].
  injection Hresume as <-.
  unfold rerunEffect, cancelAnimationFrame, effect.
  destruct (requestRef (set_isPaused (negb (isPaused s2)) (set_clock t' s2)));
    cbn -[Qplus]; rewrite ?Hf2, Hp2; cbn -[Qplus];
    (destruct (isUpload (mode s2) && isImage (mediaFile s2) && isSome (model s2));
     cbn -[Qplus]; rewrite ?Hf2, ?Hp2;
     (split; [reflexivity|]); (split; [exact Hq2|]); (split; [exact Ht2|]);
     [right | left]; split; reflexivity).
Qed.

Lemma resume_restarts_one_loop_witness :
  exists s s1 s2 s3,
    runCalm mounted oneCycle = Some s
    /\ step s (2050, TogglePause) = Some s1
    /\ run s1 pausedSession = Some s2
    /\ step s2 (2400, TogglePause) = Some s3
    /\ isPaused s3 = false
    /\ animationFrames s3 = [(nextHandle s2, currentDetect s3)].
Proof.
  destruct (runCalm mounted oneCycle) as [s|] eqn:E; [|vm_compute in E; discriminate E].
  destruct (step s (2050, TogglePause)) as [s1|] eqn:E1;
    [|vm_compute in E; injection E as <-; vm_compute in E1; discriminate E1].
  destruct (run s1 pausedSession) as [s2|] eqn:E2;
    [|vm_compute in E; injection E as <-; vm_compute in E1; injection E1 as <-;
      vm_compute in E2; discriminate E2].
  destruct (step s2 (2400, TogglePause)) as [s3|] eqn:E3;
    [|vm_compute in E; injection E as <-; vm_compute in E1; injection E1 as <-;
      vm_compute in E2; injection E2 as <-; vm_compute in E3; discriminate E3].
  exists s, s1, s2, s3.
  split; [reflexivity|]. split; [exact E1|]. split; [exact E2|]. split; [exact E3|].
  assert (H : isPaused s = false /\ pending s = [] /\ timeouts s = []).
  { pose proof E as E'. vm_compute in E'. injection E' as <-. now repeat split. }
  destruct H as (Hp & Hq & Ht).
  destruct (@resume_restarts_one_loop oneCycle pausedSession s s1 s2 s3 2050 2400
              E Hp Hq Ht E1 eq_refl E2 E3) as (H1 & _ & _ & [[Hf _]|[Hf Hto]]).
  - split; [exact H1 | exact Hf].
  - exfalso. vm_compute in E. injection E as <-. vm_compute in E1. injection E1 as <-.
    vm_compute in E2. injection E2 as <-. vm_compute in E3. injection E3 as <-.
    discriminate Hf.
Defined.

(** ** Callbacks of the current render *)

Ltac upToDate_solve :=
  unfold upToDate, currentDetect in *; cbn;
  repeat match goal with |- _ /\ _ => split end;
  try assumption;
  try (apply Forall_app; split; [assumption | constructor; [reflexivity | constructor]]).

Lemma upToDate_rearm (s : State) :
  upToDate s -> upToDate (rearm (currentDetect s) s).
Proof.
  intros (Hf & Ht & Hp). unfold rearm.
  destruct (_ || _); [unfold requestAnimationFrame|]; upToDate_solve.
Qed.

Lemma upToDate_detect (now : Q) (refs : Refs) (s : State) :
  upToDate s -> upToDate (detect (currentDetect s) now refs s).
Proof.
  intros Hu. pose proof Hu as (Hf & Ht & Hp). unfold detect.
  destruct (_ || _); [exact Hu|].
  destruct (Qlt_bool _ 41); [unfold requestAnimationFrame; upToDate_solve|].
  destruct (selectVideoEl _ refs).
  - unfold modelDetect. destruct (Qle_bool 1000 _); upToDate_solve.
  - apply (upToDate_rearm (s := set_lastFrameTime now s)). upToDate_solve.
Qed.

Lemma upToDate_detectResume (k : nat) (o : Outcome) (s : State) :
  upToDate s -> upToDate (detectResume (currentDetect s) k o s).
Proof.
  intros Hu. pose proof Hu as (Hf & Ht & Hp). unfold detectResume.
  destruct o as [results|].
  - apply (upToDate_rearm (s := set_applied (k :: applied s) (set_predictions results s))).
    upToDate_solve.
  - apply (upToDate_rearm (s := set_errors (k :: errors s) s)). upToDate_solve.
Qed.

Lemma upToDate_effect_idle (s : State) : idle s -> upToDate (effect s).
Proof.
  intros (Hf & Ht & Hp). unfold effect.
  destruct (_ && _ && _); [unfold setTimeout|destruct (negb _); [unfold requestAnimationFrame|]];
    unfold upToDate, currentDetect; cbn; rewrite ?Hf, ?Ht, ?Hp; cbn;
    repeat split; repeat constructor.
Qed.

Lemma upToDate_quiet_rerunEffect (s s0 : State) :
  singleFlow s -> pending s = [] -> timeouts s = [] ->
  animationFrames s0 = animationFrames s -> timeouts s0 = timeouts s ->
  pending s0 = pending s -> requestRef s0 = requestRef s ->
  upToDate (rerunEffect s0).
Proof.
  intros Hs Hp Ht Ea Et Ep Er. unfold rerunEffect. apply upToDate_effect_idle.
  apply quiet_cancel.
  - unfold singleFlow. rewrite Ea, Et, Ep, Er. exact Hs.
  - congruence.
  - congruence.
Qed.

Ltac quiet_rerender s Hs Hp Ht :=
  eapply (@upToDate_quiet_rerunEffect s); [exact Hs | exact Hp | exact Ht | reflexivity ..].

Lemma step_upToDate (s s' : State) (e : Event) :
  singleFlow s -> upToDate s -> calm s (snd e) = true -> step s e = Some s' ->
  upToDate s'.
Proof.
  intros Hs Hu Hcalm Hstep. pose proof Hu as (Hf & Ht & Hp).
  destruct e as [now a]. cbn [snd] in Hcalm.
  unfold step in Hstep.
  destruct (Qlt_bool now (clock s)); [discriminate Hstep|].
  destruct a as [h refs|h refs|k o| | | |t url| | |v|v].
  - cbn in Hstep. destruct (take h (animationFrames s)) as [[c rest]|] eqn:Et;
      [|discriminate Hstep].
    injection Hstep as <-.
    destruct (@take_Forall _ _ _ _ _ _ Et Hf) as [Hc Hrest]. cbn in Hc. subst c.
    apply (upToDate_detect now refs (s := set_animationFrames rest (set_clock now s))).
    upToDate_solve.
  - cbn in Hstep. destruct (take h (timeouts s)) as [[[due c] rest]|] eqn:Et;
      [|discriminate Hstep].
    destruct (Qlt_bool now due); [discriminate Hstep|].
    injection Hstep as <-.
    destruct (@take_Forall _ _ _ _ _ _ Et Ht) as [Hc Hrest]. cbn in Hc. subst c.
    apply (upToDate_detect now refs (s := set_timeouts rest (set_clock now s))).
    upToDate_solve.
  - cbn in Hstep. destruct (take k (pending s)) as [[c rest]|] eqn:Et;
      [|discriminate Hstep].
    injection Hstep as <-.
    destruct (@take_Forall _ _ _ _ _ _ Et Hp) as [Hc Hrest]. cbn in Hc. subst c.
    apply (upToDate_detectResume k o (s := set_pending rest (set_clock now s))).
    upToDate_solve.
  - destruct (calm_quiet s ModelLoaded Hcalm eq_refl) as [Hq Hn].
    cbn in Hstep. destruct (model s); [discriminate Hstep|].
    injection Hstep as <-. quiet_rerender s Hs Hq Hn.
  - destruct (calm_quiet s ToggleMode Hcalm eq_refl) as [Hq Hn].
    injection Hstep as <-. quiet_rerender s Hs Hq Hn.
  - destruct (calm_quiet s TogglePause Hcalm eq_refl) as [Hq Hn].
    injection Hstep as <-. quiet_rerender s Hs Hq Hn.
  - destruct (calm_quiet s (Drop t url) Hcalm eq_refl) as [Hq Hn].
    cbn in Hstep.
    destruct (isUpload (mode s) && negb (isSome (mediaFile s))); [|discriminate Hstep].
    injection Hstep as <-. quiet_rerender s Hs Hq Hn.
  - destruct (calm_quiet s ClearMedia Hcalm eq_refl) as [Hq Hn].
    cbn in Hstep.
    destruct (isUpload (mode s) && isSome (mediaFile s)); [|discriminate Hstep].
    injection Hstep as <-. quiet_rerender s Hs Hq Hn.
  - cbn in Hstep.
    destruct (isUpload (mode s) && isVideo (mediaFile s)); [|discriminate Hstep].
    destruct (isPaused s) eqn:Ep.
    + assert (Hr : rerunsEffect s VideoPlay = true) by exact Ep.
      destruct (calm_quiet s VideoPlay Hcalm Hr) as [Hq Hn].
      injection Hstep as <-. quiet_rerender s Hs Hq Hn.
    + injection Hstep as <-. upToDate_solve.
  - destruct (calm_quiet s (SetMinConfidence v) Hcalm eq_refl) as [Hq Hn].
    injection Hstep as <-. quiet_rerender s Hs Hq Hn.
  - destruct (calm_quiet s (SetIouThreshold v) Hcalm eq_refl) as [Hq Hn].
    injection Hstep as <-. quiet_rerender s Hs Hq Hn.
Qed.

Lemma runCalm_upToDate (trace : list Event) (s s' : State) :
  singleFlow s -> upToDate s -> runCalm s trace = Some s' -> upToDate s'.
Proof.
  revert s. induction trace as [|e trace IH]; intros s Hs Hu Hrun; cbn [runCalm] in Hrun.
  - now injection Hrun as <-.
  - destruct (calm s (snd e)) eqn:Hc; [|discriminate Hrun].
    destruct (step s e) as [s1|] eqn:Hstep; [|discriminate Hrun].
    apply (IH s1); [| |exact Hrun].
    + eapply step_singleFlow; eauto.
    + eapply step_upToDate; eauto.
Qed.

Lemma mounted_upToDate : upToDate mounted.
Proof. unfold upToDate. cbn. repeat split; repeat constructor. Qed.

(** The call that a step of [detect] issues, when it issues one. *)
Lemma detect_call (c : Closure) (now : Q) (refs : Refs) (s : State) :
  calls (detect c now refs s) <> calls s ->
  exists call,
    calls (detect c now refs s) = call :: calls s
    /\ callTime call = now
    /\ callMinConfidence call = minConfidence (c_settings c)
    /\ selectVideoEl c refs = Some (callVideoEl call).
Proof.
  unfold detect. intros Hne.
  destruct (_ || _); [now contradiction Hne|].
  destruct (Qlt_bool _ 41); [now contradiction Hne|].
  destruct (selectVideoEl c refs) as [videoEl|].
  - unfold modelDetect. destruct (Qle_bool 1000 _); cbn; eexists; repeat split.
  - unfold rearm in Hne. destruct (_ || _); now contradiction Hne.
Qed.

(** X7.  In a calm execution nothing is stale: every frame callback that is
    requested, every timer callback and every callback that awaits a call is
    the [detect] of the current render.  So a call that a callback issues is
    made with the confidence threshold the slider shows and on the element of
    the mode and media that are displayed. *)
Theorem calm_callbacks_are_current :
  forall (trace : list Event) (s : State),
    runCalm mounted trace = Some s ->
    (forall h c, In (h, c) (animationFrames s) -> c = currentDetect s)
    /\ (forall h due c, In (h, (due, c)) (timeouts s) -> c = currentDetect s)
    /\ (forall k c, In (k, c) (pending s) -> c = currentDetect s)
    /\ (forall now h refs s',
          step s (now, AnimationFrame h refs) = Some s'
          \/ step s (now, Timeout h refs) = Some s' ->
          calls s' <> calls s ->
          exists call,
            calls s' = call :: calls s
            /\ callTime call = now
            /\ callMinConfidence call = minConfidence (settings s)
            /\ selectVideoEl (currentDetect s) refs = Some (callVideoEl call)).
Proof.
  intros trace s Hrun.
  pose proof (@runCalm_upToDate trace _ _ mounted_singleFlow mounted_upToDate Hrun)
    as (Hf & Ht & Hp).
  split; [|split; [|split]].
  - intros h c Hin. rewrite Forall_forall in Hf. exact (Hf _ Hin).
  - intros h due c Hin. rewrite Forall_forall in Ht. exact (Ht _ Hin).
  - intros k c Hin. rewrite Forall_forall in Hp. exact (Hp _ Hin).
  - intros now h refs s' Hstep Hne. unfold step in Hstep.
    destruct (Qlt_bool now (clock s)); [destruct Hstep as [H|H]; discriminate H|].
    destruct Hstep as [Hstep|Hstep]; cbn in Hstep.
    + destruct (take h (animationFrames s)) as [[c rest]|] eqn:Et; [|discriminate Hstep].
      injection Hstep as <-.
      destruct (@take_Forall _ _ _ _ _ _ Et Hf) as [Hc _]. cbn in Hc. subst c.
      exact (@detect_call (currentDetect s) now refs
               (set_animationFrames rest (set_clock now s)) Hne).
    + destruct (take h (timeouts s)) as [[[due c] rest]|] eqn:Et; [|discriminate Hstep].
      destruct (Qlt_bool now due); [discriminate Hstep|].
      injection Hstep as <-.
      destruct (@take_Forall _ _ _ _ _ _ Et Ht) as [Hc _]. cbn in Hc. subst c.
      exact (@detect_call (currentDetect s) now refs
               (set_timeouts rest (set_clock now s)) Hne).
Qed.

Lemma calm_callbacks_are_current_witness :
  exists s s' call,
    runCalm mounted sliderThenFrame = Some s
    /\ step s (2100, AnimationFrame 2 webcamReady) = Some s'
    /\ calls s' = call :: calls s
    /\ callMinConfidence call = 7 # 10.
Proof.
  destruct (runCalm mounted sliderThenFrame) as [s|] eqn:E; [|vm_compute in E; discriminate E].
  destruct (step s (2100, AnimationFrame 2 webcamReady)) as [s'|] eqn:E1;
    [|vm_compute in E; injection E as <-; vm_compute in E1; discriminate E1].
  destruct (calm_callbacks_are_current _ E) as (_ & _ & _ & Hcall).
  destruct (Hcall 2100 2%nat webcamReady s' (or_introl E1)) as (call & Hc & _ & Hm & _).
  { pose proof E as E'. vm_compute in E'. injection E' as <-.
    pose proof E1 as E1'. vm_compute in E1'. injection E1' as <-. discriminate. }
  exists s, s', call. split; [reflexivity|]. split; [exact E1|]. split; [exact Hc|].
  rewrite Hm. vm_compute in E. injection E as <-. reflexivity.
Defined.

(** ** Teardown *)

(** X8.  When the component is unmounted in a calm execution while no call is
    outstanding and no timer is set, the clean-up cancels the only requested
    callback: nothing remains scheduled.  A call that is outstanding at the
    unmount is not cancelled: when it settles, its callback, if it closes
    over a live or uploaded-video source, is requested again. *)
Theorem unmount_stops_the_loop_when_quiet :
  forall (trace : list Event) (s : State),
    runCalm mounted trace = Some s ->
    (pending s = [] -> timeouts s = [] -> idle (unmount s))
    /\ (forall k c rest o now,
          take k (pending s) = Some (c, rest) -> clock s <= now -> continuous c = true ->
          exists s',
            step (unmount s) (now, Settle k o) = Some s'
            /\ animationFrames s' = [(nextHandle s, c)]).
Proof.
  intros trace s Hrun.
  pose proof (runCalm_singleFlow trace mounted_singleFlow Hrun) as Hs.
  split.
  - intros Hp Ht. unfold unmount. now apply quiet_cancel.
  - intros k c rest o now Ht Hnow Hcont.
    assert (Hfr : animationFrames s = []).
    { destruct Hs as [Hlen _]. apply take_length in Ht.
      destruct (animationFrames s); [reflexivity|]. cbn in Hlen. lia. }
    assert (Hu : unmount s = s).
    { unfold unmount, cancelAnimationFrame. destruct (requestRef s) as [h|]; [|reflexivity].
      destruct s. cbn in *. subst. reflexivity. }
    rewrite Hu. unfold continuous in Hcont.
    destruct o as [results|].
    + destruct (@settle_resolved s k c rest results now Ht Hnow) as (s' & Hstep & Heq & _).
      exists s'. split; [exact Hstep|]. rewrite Heq. unfold rearm. rewrite Hcont.
      unfold requestAnimationFrame. cbn. now rewrite Hfr.
    + destruct (@settle_rejected s k c rest now Ht Hnow) as (s' & Hstep & Heq & _).
      exists s'. split; [exact Hstep|]. rewrite Heq. unfold rearm. rewrite Hcont.
      unfold requestAnimationFrame. cbn. now rewrite Hfr.
Qed.

Lemma unmount_stops_the_loop_when_quiet_witness :
  exists s, runCalm mounted oneCycle = Some s /\ idle (unmount s).
Proof.
  destruct (runCalm mounted oneCycle) as [s|] eqn:E; [|vm_compute in E; discriminate E].
  exists s. split; [reflexivity|].
  apply (proj1 (unmount_stops_the_loop_when_quiet _ E));
    vm_compute in E; injection E as <-; reflexivity.
Defined.

(** ** The one-shot inference of an image *)

Lemma effect_image (s : State) :
  isUpload (mode s) = true -> isImage (mediaFile s) = true -> isSome (model s) = true ->
  effect s = setTimeout (currentDetect s) 500 s.
Proof. intros Hm Hi Hl. unfold effect. now rewrite Hm, Hi, Hl. Qed.

(** What a step of [detect] that calls the model leaves behind. *)
Lemma detect_issue_shape (c : Closure) (now : Q) (refs : Refs) (videoEl : VideoEl)
    (s : State) :
  c_isPaused c = false -> isSome (c_model c) = true ->
  41 <= now - lastFrameTime s ->
  selectVideoEl c refs = Some videoEl ->
  animationFrames (detect c now refs s) = animationFrames s
  /\ timeouts (detect c now refs s) = timeouts s
  /\ pending (detect c now refs s) = pending s ++ [(nextCall s, c)]
  /\ nextCall (detect c now refs s) = S (nextCall s)
  /\ clock (detect c now refs s) = clock s
  /\ predictions (detect c now refs s) = predictions s
  /\ exists call,
       calls (detect c now refs s) = call :: calls s
       /\ callTime call = now /\ callVideoEl call = videoEl.
Proof.
  intros Hpause Hmodel Helapsed Hsel. unfold detect.
  rewrite Hpause, Hmodel, (Qlt_bool_ge Helapsed), Hsel. cbn [negb orb].
  unfold modelDetect. cbn -[Qle_bool Qminus].
  destruct (Qle_bool 1000 (now - lastFpsTime s)); cbn; repeat split; eauto.
Qed.

(** X9.  In a calm execution, when an image is dropped while the model is
    loaded, the component is not paused and nothing is outstanding, the
    effect sets one timer of 500 ms and requests no frame; when the timer
    fires with the image mounted, the callback calls the model once on the
    media element; and when that call settles, resolved or rejected, nothing
    is scheduled any more: the image is inferred exactly once, and a resolved
    result is what is displayed. *)
Theorem image_is_inferred_once :
  forall (trace : list Event) (s s1 : State) (t0 : Q) (url : nat),
    runCalm mounted trace = Some s ->
    pending s = [] -> timeouts s = [] ->
    isSome (model s) = true -> isPaused s = false ->
    step s (t0, Drop Image url) = Some s1 ->
    animationFrames s1 = [] /\ pending s1 = [] /\ predictions s1 = []
    /\ timeouts s1 = [(nextHandle s, (t0 + 500, imageDetect s url))]
    /\ forall t1 refs,
         t0 + 500 <= t1 -> isSome (mediaCurrent refs) = true ->
         exists s2,
           step s1 (t1, Timeout (nextHandle s) refs) = Some s2
           /\ animationFrames s2 = [] /\ timeouts s2 = []
           /\ pending s2 = [(nextCall s, imageDetect s url)]
           /\ (exists call,
                 calls s2 = call :: calls s
                 /\ callTime call = t1 /\ callVideoEl call = MediaRefCurrent)
           /\ forall t2 o,
                t1 <= t2 ->
                exists s3,
                  step s2 (t2, Settle (nextCall s) o) = Some s3
                  /\ idle s3
                  /\ calls s3 = calls s2
                  /\ forall results, o = Resolved results -> predictions s3 = results.
Proof.
  intros trace s s1 t0 url Hrun Hp Ht Hmodel Hpause Hstep.
  pose proof (runCalm_singleFlow trace mounted_singleFlow Hrun) as Hflow.
  pose proof (run_paced trace mounted_paced (runCalm_run _ _ Hrun)) as (_ & _ & Hlast).
  unfold step in Hstep.
  destruct (Qlt_bool t0 (clock s)) eqn:Etime; [discriminate Hstep|].
  apply Qlt_bool_false in Etime. cbn in Hstep.
  destruct (isUpload (mode s) && negb (isSome (mediaFile s))); [|discriminate Hstep].
  injection Hstep as <-.
  set (X := set_predictions []
              (set_mode Upload
                 (set_mediaFile (Some {| mediaType := Image; mediaUrl := url |})
                    (set_clock t0 s)))).
  assert (HX : singleFlow X) by exact Hflow.
  pose proof (quiet_cancel HX Hp Ht) as (Hf0 & Ht0 & Hp0).
  set (Y := cancelAnimationFrame X) in *.
  assert (HY : model Y = model s /\ mode Y = Upload
               /\ mediaFile Y = Some {| mediaType := Image; mediaUrl := url |}
               /\ isPaused Y = isPaused s /\ settings Y = settings s
               /\ nextHandle Y = nextHandle s /\ nextCall Y = nextCall s
               /\ clock Y = t0 /\ predictions Y = [] /\ calls Y = calls s
               /\ lastFrameTime Y = lastFrameTime s).
  { unfold Y, cancelAnimationFrame. destruct (requestRef X); cbn; repeat split. }
  destruct HY as (Ym & Ymode & Ymedia & Ypause & Yset & Yh & Yk & Yclock & Ypred & Ycalls & Ylast).
  assert (Hc : currentDetect Y = imageDetect s url).
  { unfold currentDetect, imageDetect. now rewrite Ym, Ymode, Ymedia, Ypause, Yset. }
  unfold rerunEffect. fold Y.
  rewrite effect_image by (rewrite ?Ymode, ?Ymedia, ?Ym; auto).
  rewrite Hc. unfold setTimeout. cbn [animationFrames pending predictions timeouts
                                      set_nextHandle set_timeouts].
  rewrite Hf0, Ht0, Hp0, Ypred, Yh, Yclock. cbn [app].
  do 4 (split; [reflexivity|]).
  intros t1 refs Hdue Hmounted.
  set (c := imageDetect s url) in *.
  set (S1 := set_nextHandle (S (nextHandle s))
               (set_timeouts [(nextHandle s, (t0 + 500, c))] Y)).
  assert (Hsel : selectVideoEl c refs = Some MediaRefCurrent).
  { unfold selectVideoEl, c, imageDetect. cbn. now rewrite Hmounted. }
  assert (Hcp : c_isPaused c = false) by exact Hpause.
  assert (Hcm : isSome (c_model c) = true) by exact Hmodel.
  set (S1' := set_timeouts [] (set_clock t1 S1)).
  assert (Hel : 41 <= t1 - lastFrameTime S1').
  { change (lastFrameTime S1') with (lastFrameTime Y). rewrite Ylast. lra. }
  destruct (@detect_issue_shape c t1 refs MediaRefCurrent S1' Hcp Hcm Hel Hsel)
    as (Df & Dt & Dp & Dk & Dclock & Dpred & call & Dcalls & Dtime & Dvid).
  change (animationFrames S1') with (animationFrames Y) in Df.
  change (pending S1') with (pending Y) in Dp.
  change (nextCall S1') with (nextCall Y) in Dp, Dk.
  change (calls S1') with (calls Y) in Dcalls.
  change (timeouts S1') with (@nil (nat * (Q * Closure))) in Dt.
  change (clock S1') with t1 in Dclock.
  rewrite Hf0 in Df. rewrite Hp0, Yk in Dp. rewrite Yk in Dk. rewrite Ycalls in Dcalls.
  cbn [app] in Dp.
  exists (detect c t1 refs S1'). split.
  { unfold step. change (clock S1) with (clock Y). rewrite Yclock.
    rewrite Qlt_bool_ge by lra.
    cbn [timeouts set_clock S1 set_nextHandle set_timeouts take].
    change (timeouts (set_clock t1 S1)) with [(nextHandle s, (t0 + 500, c))].
    cbn [take]. rewrite Nat.eqb_refl. rewrite Qlt_bool_ge by lra. reflexivity. }
  split; [exact Df|]. split; [exact Dt|]. split; [exact Dp|].
  split; [exists call; auto|].
  intros t2 o Ht2.
  set (S2 := detect c t1 refs S1') in *.
  assert (Htake : take (nextCall s) (pending S2) = Some (c, [])).
  { rewrite Dp. cbn. now rewrite Nat.eqb_refl. }
  assert (Hclock2 : clock S2 <= t2) by (rewrite Dclock; exact Ht2).
  assert (Hnore : forall s', rearm c s' = s').
  { intros s'. unfold rearm, c, imageDetect. reflexivity. }
  destruct o as [results|].
  - destruct (@settle_resolved S2 (nextCall s) c [] results t2 Htake Hclock2)
      as (s3 & Hs3 & Heq & Hpred3 & _).
    exists s3. split; [exact Hs3|]. rewrite Hnore in Heq.
    split; [|split].
    + rewrite Heq. unfold idle. cbn. now rewrite Df, Dt.
    + now rewrite Heq.
    + intros results' E. injection E as <-. exact Hpred3.
  - destruct (@settle_rejected S2 (nextCall s) c [] t2 Htake Hclock2)
      as (s3 & Hs3 & Heq & _).
    exists s3. split; [exact Hs3|]. rewrite Hnore in Heq.
    split; [|split].
    + rewrite Heq. unfold idle. cbn. now rewrite Df, Dt.
    + now rewrite Heq.
    + intros results' E. discriminate E.
Qed.

Lemma image_is_inferred_once_witness :
  exists s s1,
    runCalm mounted imageSession = Some s
    /\ step s (3000, Drop Image 7) = Some s1
    /\ timeouts s1 = [(nextHandle s, (3000 + 500, imageDetect s 7))]
    /\ animationFrames s1 = [].
Proof.
  destruct (runCalm mounted imageSession) as [s|] eqn:E; [|vm_compute in E; discriminate E].
  destruct (step s (3000, Drop Image 7)) as [s1|] eqn:E1;
    [|vm_compute in E; injection E as <-; vm_compute in E1; discriminate E1].
  exists s, s1. split; [reflexivity|]. split; [exact E1|].
  destruct (@image_is_inferred_once imageSession s s1 3000 7 E) as (Hf & _ & _ & Ht & _);
    try exact E1; try (vm_compute in E; injection E as <-; reflexivity).
  now split.
Defined.

(** ** Geometry of the overlay *)

(** The cover fit in exact arithmetic. *)
Lemma cover_fit_exact :
  forall (e : DOM.Element Q) (p : Prediction Q) (vw vh : Q) (c : DOM.Container Q),
    JS.or_else (DOM.videoWidth (finElement e)) (DOM.naturalWidth (finElement e))
      = Some (Fin vw) ->
    JS.or_else (DOM.videoHeight (finElement e)) (DOM.naturalHeight (finElement e))
      = Some (Fin vh) ->
    0 < vw -> 0 < vh ->
    DOM.parentElement e = Some c ->
    let cw := DOM.clientWidth c in
    let ch := DOM.clientHeight c in
    exists o k ox oy rl rt rw rh,
      boundingBox (Some (finElement e)) (finPrediction p) = Some o
      /\ scale o = Fin k /\ offsetX o = Fin ox /\ offsetY o = Fin oy
      /\ CSS.left (rawStyle o) = Fin rl /\ CSS.top (rawStyle o) = Fin rt
      /\ CSS.width (rawStyle o) = Fin rw /\ CSS.height (rawStyle o) = Fin rh
      /\ cw <= vw * k /\ ch <= vh * k
      /\ ox <= 0 /\ oy <= 0 /\ (ox == 0 \/ oy == 0)
      /\ rl + rw / 2 - cw / 2 == k * (bbox0 p + bbox2 p / 2 - vw / 2)
      /\ rt + rh / 2 - ch / 2 == k * (bbox1 p + bbox3 p / 2 - vh / 2)
      /\ rw * bbox3 p == rh * bbox2 p.
Proof.
  intros e p vw vh c Hw Hh Pw Ph Hc cw ch.
  assert (Nw : ~ vw == 0) by lra. assert (Nh : ~ vh == 0) by lra.
  do 8 eexists.
  split; [exact (boundingBox_exact e p Hw Hh Nw Nh Hc)|].
  cbn [exactOverlay scale offsetX offsetY rawStyle CSS.left CSS.top CSS.width CSS.height].
  do 7 (split; [reflexivity|]).
  fold cw ch. change (inject_Z 2) with 2.
  assert (Ea : vw * (cw / vw) == cw) by (apply Qmult_div_r; exact Nw).
  assert (Eb : vh * (ch / vh) == ch) by (apply Qmult_div_r; exact Nh).
  assert (Hk : (qmax (cw / vw) (ch / vh) == cw / vw /\ ch / vh <= cw / vw)
               \/ (qmax (cw / vw) (ch / vh) == ch / vh /\ cw / vw <= ch / vh)).
  { unfold qmax. qcases; [right | left]; split; (reflexivity || lra). }
  set (k := qmax (cw / vw) (ch / vh)) in *.
  assert (Hcw : cw <= vw * k).
  { destruct Hk as [[E _]|[E L]].
    - rewrite E, Ea. lra.
    - rewrite <- Ea. apply Qmult_le_l; [exact Pw|]. rewrite E. exact L. }
  assert (Hch : ch <= vh * k).
  { destruct Hk as [[E L]|[E _]].
    - rewrite <- Eb. apply Qmult_le_l; [exact Ph|]. rewrite E. exact L.
    - rewrite E, Eb. lra. }
  split; [exact Hcw|]. split; [exact Hch|].
  assert (Hox : (cw - vw * k) / 2 <= 0).
  { apply Qle_shift_div_r; [reflexivity|]. generalize dependent (vw * k). intros P HP. lra. }
  assert (Hoy : (ch - vh * k) / 2 <= 0).
  { apply Qle_shift_div_r; [reflexivity|]. generalize dependent (vh * k). intros P HP. lra. }
  split; [exact Hox|]. split; [exact Hoy|]. split.
  - destruct Hk as [[E _]|[E _]].
    + left. rewrite E, Ea. field.
    + right. rewrite E, Eb. field.
  - split; [field|]. split; [field | ring].
Qed.

(** X10.  In binary64, the arithmetic of the code, the scale of a rendered
    box is one of the two container/source ratios and not below either of
    them (when both are numbers), and the offsets are half of what the
    container exceeds the scaled source by.  In exact arithmetic, for a
    source of positive size, this makes the scaled source cover the
    container ([videoWidth * scale >= containerWidth], [videoHeight * scale
    >= containerHeight]), both offsets at most 0 and one of them 0, and the
    map centred and uniform.  In binary64 that holds up to rounding only: for
    a 1280x720 source in a 736x414 container the scaled height is
    413.99999999999994, below 414, and [offsetY] is 2.8e-14, above 0. *)
Theorem cover_fit_covers_the_container :
  (forall (element : DOM.Element float) (p : Prediction float) (c : DOM.Container float)
          (o : Overlay float) (vw vh : float),
      boundingBox (Some element) p = Some o ->
      DOM.parentElement element = Some c ->
      JS.or_else (DOM.videoWidth element) (DOM.naturalWidth element) = Some vw ->
      JS.or_else (DOM.videoHeight element) (DOM.naturalHeight element) = Some vh ->
      let ratioX := (DOM.clientWidth c / vw)%float in
      let ratioY := (DOM.clientHeight c / vh)%float in
      PrimFloat.is_nan ratioX = false -> PrimFloat.is_nan ratioY = false ->
      (scale o = ratioX \/ scale o = ratioY)
      /\ PrimFloat.leb ratioX (scale o) = true
      /\ PrimFloat.leb ratioY (scale o) = true
      /\ offsetX o = ((DOM.clientWidth c - vw * scale o) / 2)%float
      /\ offsetY o = ((DOM.clientHeight c - vh * scale o) / 2)%float)
  /\ (forall (e : DOM.Element Q) (p : Prediction Q) (vw vh : Q) (c : DOM.Container Q),
    JS.or_else (DOM.videoWidth (finElement e)) (DOM.naturalWidth (finElement e))
      = Some (Fin vw) ->
    JS.or_else (DOM.videoHeight (finElement e)) (DOM.naturalHeight (finElement e))
      = Some (Fin vh) ->
    0 < vw -> 0 < vh ->
    DOM.parentElement e = Some c ->
    let cw := DOM.clientWidth c in
    let ch := DOM.clientHeight c in
    exists o k ox oy rl rt rw rh,
      boundingBox (Some (finElement e)) (finPrediction p) = Some o
      /\ scale o = Fin k /\ offsetX o = Fin ox /\ offsetY o = Fin oy
      /\ CSS.left (rawStyle o) = Fin rl /\ CSS.top (rawStyle o) = Fin rt
      /\ CSS.width (rawStyle o) = Fin rw /\ CSS.height (rawStyle o) = Fin rh
      /\ cw <= vw * k /\ ch <= vh * k
      /\ ox <= 0 /\ oy <= 0 /\ (ox == 0 \/ oy == 0)
      /\ rl + rw / 2 - cw / 2 == k * (bbox0 p + bbox2 p / 2 - vw / 2)
      /\ rt + rh / 2 - ch / 2 == k * (bbox1 p + bbox3 p / 2 - vh / 2)
      /\ rw * bbox3 p == rh * bbox2 p)
  /\ (exists o,
        boundingBox (Some coverElementF) specBoxF = Some o
        /\ PrimFloat.ltb (720 * scale o)%float 414 = true
        /\ PrimFloat.ltb 0 (offsetY o) = true).
Proof.
  split; [|split].
  - intros element p c o vw vh Hb Hc Hw Hh ratioX ratioY Nx Ny.
    destruct (@boundingBox_shape _ _ element p o Hb)
      as (vw' & vh' & c' & Hw' & _ & Hh' & _ & Hc' & Hs & Hox & Hoy & _).
    assert (c' = c) by congruence. assert (vw' = vw) by congruence.
    assert (vh' = vh) by congruence. subst c' vw' vh'.
    change (scale o = float_max ratioX ratioY) in Hs.
    destruct (@float_max_spec ratioX ratioY Nx Ny) as (Hm & Nm & L1 & L2).
    rewrite <- Hs in Hm, Nm, L1, L2.
    split; [exact Hm|]. split; [to_keys; exact L1|]. split; [to_keys; exact L2|].
    split; [exact Hox | exact Hoy].
  - exact cover_fit_exact.
  - eexists. split; [reflexivity|]. split; reflexivity.
Qed.

Lemma cover_fit_covers_the_container_witness :
  exists o,
    boundingBox (Some coverElementF) specBoxF = Some o
    /\ PrimFloat.leb (736 / 1280)%float (scale o) = true
    /\ PrimFloat.leb (414 / 720)%float (scale o) = true.
Proof.
  destruct (boundingBox (Some coverElementF) specBoxF) as [o|] eqn:E;
    [|vm_compute in E; discriminate E].
  exists o. split; [reflexivity|].
  destruct (proj1 cover_fit_covers_the_container coverElementF specBoxF
              {| DOM.clientWidth := 736%float; DOM.clientHeight := 414%float |} o
              1280%float 720%float E eq_refl eq_refl eq_refl eq_refl eq_refl)
    as (_ & H1 & H2 & _).
  split; assumption.
Defined.

(** The moves of the clamp in exact arithmetic. *)
Lemma clamp_moves_exact :
  forall (e : DOM.Element Q) (p : Prediction Q) (c : DOM.Container Q) (o : Overlay num),
    boundingBox (Some (finElement e)) (finPrediction p) = Some o ->
    DOM.parentElement e = Some c ->
    let cw := DOM.clientWidth c in
    let ch := DOM.clientHeight c in
    exists rl rt w h l t,
      CSS.left (rawStyle o) = Fin rl /\ CSS.top (rawStyle o) = Fin rt
      /\ CSS.width (rawStyle o) = Fin w /\ CSS.height (rawStyle o) = Fin h
      /\ CSS.left (clampedStyle o) = Fin l /\ CSS.top (clampedStyle o) = Fin t
      /\ (10 <= rl -> rl + w <= cw - 10 -> l == rl)
      /\ (rl <= 10 -> l == 10)
      /\ (cw - 10 <= rl + w -> 10 + w <= cw - 10 -> l + w == cw - 10)
      /\ (10 <= rt -> rt + h <= ch - 10 -> t == rt)
      /\ (rt <= 10 -> t == 10)
      /\ (ch - 10 <= rt + h -> 10 + h <= ch - 10 -> t + h == ch - 10).
Proof.
  intros e p c o Hb Hc cw ch.
  destruct (boundingBox_inv e p Hb) as (vw & vh & c' & _ & _ & _ & _ & Hc' & ->).
  assert (c' = c) by congruence. subst c'.
  do 6 eexists.
  cbn [exactOverlay rawStyle clampedStyle CSS.left CSS.top CSS.width CSS.height].
  do 6 (split; [reflexivity|]).
  fold cw ch. change (inject_Z 10) with 10. change (inject_Z 2) with 2.
  set (k := qmax (cw / vw) (ch / vh)).
  set (w := bbox2 p * k). set (h := bbox3 p * k).
  set (rl := bbox0 p * k + (cw - vw * k) / 2). set (rt := bbox1 p * k + (ch - vh * k) / 2).
  clearbody w h rl rt.
  repeat split; intros; unfold qmin; qcases; unfold qmax; qcases; lra.
Qed.

(** X11.  In binary64, the arithmetic of the code, with the far bound
    [containerWidth - width - 10] as the code computes it, and for a raw left
    and a far bound that are numbers: a box with [10 <= rawLeft <= far bound]
    keeps its raw left; a box that starts at or before 10 is put at 10; a box
    at or past the far bound, when that is at least 10, is put at the far
    bound; and when the far bound is below 10 the box is put at 10.  The same
    holds for top with the height.  In exact arithmetic a box put at the far
    bound ends at [containerWidth - 10]; in binary64 it ends there up to
    rounding only: the box (638,100,2,50) of a 640x480 source in a 516x290
    container is put at the far bound and ends at 506.00000000000006. *)
Theorem clamp_moves_only_what_overflows :
  (forall (element : DOM.Element float) (p : Prediction float) (c : DOM.Container float)
          (o : Overlay float),
      boundingBox (Some element) p = Some o ->
      DOM.parentElement element = Some c ->
      let farLeft := (DOM.clientWidth c - CSS.width (rawStyle o) - 10)%float in
      let farTop := (DOM.clientHeight c - CSS.height (rawStyle o) - 10)%float in
      (PrimFloat.is_nan (CSS.left (rawStyle o)) = false ->
       PrimFloat.is_nan farLeft = false ->
       (PrimFloat.leb 10 (CSS.left (rawStyle o)) = true ->
        PrimFloat.leb (CSS.left (rawStyle o)) farLeft = true ->
        PrimFloat.eqb (CSS.left (clampedStyle o)) (CSS.left (rawStyle o)) = true)
       /\ (PrimFloat.leb (CSS.left (rawStyle o)) 10 = true ->
           PrimFloat.eqb (CSS.left (clampedStyle o)) 10 = true)
       /\ (PrimFloat.leb farLeft (CSS.left (rawStyle o)) = true ->
           PrimFloat.leb 10 farLeft = true ->
           PrimFloat.eqb (CSS.left (clampedStyle o)) farLeft = true)
       /\ (PrimFloat.ltb farLeft 10 = true -> CSS.left (clampedStyle o) = 10%float))
      /\ (PrimFloat.is_nan (CSS.top (rawStyle o)) = false ->
          PrimFloat.is_nan farTop = false ->
          (PrimFloat.leb 10 (CSS.top (rawStyle o)) = true ->
           PrimFloat.leb (CSS.top (rawStyle o)) farTop = true ->
           PrimFloat.eqb (CSS.top (clampedStyle o)) (CSS.top (rawStyle o)) = true)
          /\ (PrimFloat.leb (CSS.top (rawStyle o)) 10 = true ->
              PrimFloat.eqb (CSS.top (clampedStyle o)) 10 = true)
          /\ (PrimFloat.leb farTop (CSS.top (rawStyle o)) = true ->
              PrimFloat.leb 10 farTop = true ->
              PrimFloat.eqb (CSS.top (clampedStyle o)) farTop = true)
          /\ (PrimFloat.ltb farTop 10 = true -> CSS.top (clampedStyle o) = 10%float)))
  /\ (forall (e : DOM.Element Q) (p : Prediction Q) (c : DOM.Container Q) (o : Overlay num),
    boundingBox (Some (finElement e)) (finPrediction p) = Some o ->
    DOM.parentElement e = Some c ->
    let cw := DOM.clientWidth c in
    let ch := DOM.clientHeight c in
    exists rl rt w h l t,
      CSS.left (rawStyle o) = Fin rl /\ CSS.top (rawStyle o) = Fin rt
      /\ CSS.width (rawStyle o) = Fin w /\ CSS.height (rawStyle o) = Fin h
      /\ CSS.left (clampedStyle o) = Fin l /\ CSS.top (clampedStyle o) = Fin t
      /\ (10 <= rl -> rl + w <= cw - 10 -> l == rl)
      /\ (rl <= 10 -> l == 10)
      /\ (cw - 10 <= rl + w -> 10 + w <= cw - 10 -> l + w == cw - 10)
      /\ (10 <= rt -> rt + h <= ch - 10 -> t == rt)
      /\ (rt <= 10 -> t == 10)
      /\ (ch - 10 <= rt + h -> 10 + h <= ch - 10 -> t + h == ch - 10))
  /\ (exists o,
        boundingBox (Some roundingElementF) roundingBoxF = Some o
        /\ PrimFloat.eqb (CSS.left (clampedStyle o))
                         (516 - CSS.width (rawStyle o) - 10)%float = true
        /\ PrimFloat.eqb (CSS.left (clampedStyle o) + CSS.width (clampedStyle o))%float
                         (516 - 10)%float = false
        /\ PrimFloat.ltb (516 - 10)%float
                         (CSS.left (clampedStyle o) + CSS.width (clampedStyle o))%float = true).
Proof.
  split; [|split].
  - intros element p c o Hb Hc farLeft farTop.
    destruct (@float_clamp_of element p c o Hb Hc) as (Hl & Ht & _).
    split.
    + intros N1 N2. rewrite Hl. fold farLeft.
      destruct (@float_clamp 10 (CSS.left (rawStyle o)) farLeft eq_refl N1 N2)
        as (_ & _ & _ & H4 & H5 & H6 & H7).
      repeat split; assumption.
    + intros N1 N2. rewrite Ht. fold farTop.
      destruct (@float_clamp 10 (CSS.top (rawStyle o)) farTop eq_refl N1 N2)
        as (_ & _ & _ & H4 & H5 & H6 & H7).
      repeat split; assumption.
  - exact clamp_moves_exact.
  - eexists. split; [reflexivity|]. repeat split; reflexivity.
Qed.

Lemma clamp_moves_only_what_overflows_witness :
  exists o,
    boundingBox (Some roundingElementF) roundingBoxF = Some o
    /\ PrimFloat.eqb (CSS.left (clampedStyle o))
                     (516 - CSS.width (rawStyle o) - 10)%float = true
    /\ PrimFloat.eqb (CSS.top (clampedStyle o)) (CSS.top (rawStyle o)) = true.
Proof.
  destruct (boundingBox (Some roundingElementF) roundingBoxF) as [o|] eqn:E;
    [|vm_compute in E; discriminate E].
  exists o. split; [reflexivity|].
  destruct (proj1 clamp_moves_only_what_overflows roundingElementF roundingBoxF
              {| DOM.clientWidth := 516%float; DOM.clientHeight := 290%float |} o E eq_refl)
    as (Hx & Hy).
  assert (N : PrimFloat.is_nan (CSS.left (rawStyle o)) = false
              /\ PrimFloat.is_nan (516 - CSS.width (rawStyle o) - 10)%float = false
              /\ PrimFloat.is_nan (CSS.top (rawStyle o)) = false
              /\ PrimFloat.is_nan (290 - CSS.height (rawStyle o) - 10)%float = false
              /\ PrimFloat.leb (516 - CSS.width (rawStyle o) - 10)%float
                               (CSS.left (rawStyle o)) = true
              /\ PrimFloat.leb 10 (516 - CSS.width (rawStyle o) - 10)%float = true
              /\ PrimFloat.leb 10 (CSS.top (rawStyle o)) = true
              /\ PrimFloat.leb (CSS.top (rawStyle o))
                               (290 - CSS.height (rawStyle o) - 10)%float = true).
  { pose proof E as E'. vm_compute in E'. injection E' as <-. repeat split; reflexivity. }
  destruct N as (N1 & N2 & N3 & N4 & L1 & L2 & L3 & L4).
  destruct (Hx N1 N2) as (_ & _ & Hfar & _). destruct (Hy N3 N4) as (Hkeep & _).
  split; [exact (Hfar L1 L2) | exact (Hkeep L3 L4)].
Defined.



(** ** The page of the transfer learner *)

Section LearnerPageProperties.

Variables Activation Result : Type.

Lemma hasRow_In (classId : nat) (s : Learner.State Activation Result) :
  LearnerUI.hasRow classId s = true ->
  exists row, In row (Learner.classes s) /\ Learner.id row = classId.
Proof.
  unfold LearnerUI.hasRow. intros H. apply existsb_exists in H.
  destruct H as (row & Hin & Heq). apply Nat.eqb_eq in Heq. eauto.
Qed.

Lemma id_below_length (s : Learner.State Activation Result) (row : Learner.ClassRow) :
  map Learner.id (Learner.classes s) = seq 0 (List.length (Learner.classes s)) ->
  In row (Learner.classes s) ->
  (Learner.id row < List.length (Learner.classes s))%nat.
Proof.
  intros Hids Hin. apply (in_map Learner.id) in Hin. rewrite Hids in Hin.
  apply in_seq in Hin. lia.
Qed.

Lemma examplesOf_app (classId : nat) (d d' : Learner.Dataset Activation) :
  Learner.examplesOf classId (d ++ d')
  = Learner.examplesOf classId d ++ Learner.examplesOf classId d'.
Proof. unfold Learner.examplesOf. now rewrite filter_app, map_app. Qed.

Lemma examplesOf_absent (classId : nat) (d : Learner.Dataset Activation) :
  Forall (fun e => fst e <> classId) d -> Learner.examplesOf classId d = [].
Proof.
  unfold Learner.examplesOf. induction 1 as [|e d Hne _ IH]; [reflexivity|]. cbn.
  apply Nat.eqb_neq in Hne. now rewrite Hne.
Qed.

Lemma examplesOf_single (classId l : nat) (a : Activation) :
  Learner.examplesOf classId [(l, a)] = if Nat.eqb l classId then [a] else [].
Proof. unfold Learner.examplesOf. cbn. now destruct (Nat.eqb l classId). Qed.

Lemma consistent_ext (s s' : Learner.State Activation Result) :
  Learner.classes s' = Learner.classes s -> Learner.knn s' = Learner.knn s ->
  LearnerUI.consistent s -> LearnerUI.consistent s'.
Proof. unfold LearnerUI.consistent. intros -> ->. auto. Qed.

Lemma consistent_predict (c : Learner.Closure) (readyState : option nat)
    (activation : Activation) (s : Learner.State Activation Result) :
  LearnerUI.consistent s -> LearnerUI.consistent (Learner.predict c readyState activation s).
Proof.
  apply consistent_ext; unfold Learner.predict; destruct (_ && _ && _ && _); reflexivity.
Qed.

Lemma consistent_addExample (classId : nat) (readyState : option nat)
    (activation : Activation) (s : Learner.State Activation Result) :
  LearnerUI.hasRow classId s = true ->
  LearnerUI.consistent s ->
  LearnerUI.consistent (Learner.addExample classId readyState activation s).
Proof.
  intros Hrow (Hids & Hlab & Hcount). unfold Learner.addExample.
  destruct (_ && _ && _); [|now repeat split].
  destruct (hasRow_In _ _ Hrow) as (row & Hin & Hid).
  pose proof (id_below_length s row Hids Hin) as Hlt. rewrite Hid in Hlt.
  unfold LearnerUI.consistent, Learner.knnAddExample. cbn -[Learner.examplesOf].
  rewrite length_map, map_map.
  split; [|split].
  - rewrite <- Hids. apply map_ext. intros r. now destruct (Nat.eqb (Learner.id r) classId).
  - apply Forall_app. split; [exact Hlab|]. now repeat constructor.
  - apply Forall_forall. intros r Hr. apply in_map_iff in Hr.
    destruct Hr as (r0 & <- & Hr0). rewrite Forall_forall in Hcount.
    specialize (Hcount r0 Hr0). rewrite examplesOf_app.
    destruct (Nat.eqb (Learner.id r0) classId) eqn:E; cbn [Learner.id Learner.count].
    + apply Nat.eqb_eq in E. rewrite length_app, Hcount, E.
      rewrite examplesOf_single, Nat.eqb_refl. cbn. lia.
    + rewrite length_app, Hcount.
      rewrite examplesOf_single, Nat.eqb_sym, E. cbn. lia.
Qed.

Lemma consistent_clearAll (s : Learner.State Activation Result) :
  LearnerUI.consistent s -> LearnerUI.consistent (Learner.clearAll s).
Proof.
  intros (Hids & Hlab & Hcount). unfold Learner.clearAll.
  destruct (isSome (Learner.classifier s)); [|now repeat split].
  unfold LearnerUI.consistent. cbn -[Learner.examplesOf]. rewrite length_map, map_map.
  split; [exact Hids|]. split; [constructor|].
  apply Forall_forall. intros r Hr. apply in_map_iff in Hr.
  destruct Hr as (r0 & <- & _). reflexivity.
Qed.

Lemma consistent_addClass (randomColor : string) (s : Learner.State Activation Result) :
  LearnerUI.consistent s -> LearnerUI.consistent (Learner.addClass randomColor s).
Proof.
  intros (Hids & Hlab & Hcount). unfold LearnerUI.consistent, Learner.addClass. cbn -[Learner.examplesOf].
  rewrite length_app, map_app, Nat.add_1_r, seq_S, Hids. cbn.
  split; [reflexivity|]. split.
  - eapply Forall_impl; [|exact Hlab]. cbn. intros e He. lia.
  - apply Forall_app. split; [exact Hcount|]. constructor; [|constructor]. cbn.
    rewrite examplesOf_absent; [reflexivity|].
    eapply Forall_impl; [|exact Hlab]. cbn. intros e He. lia.
Qed.

Lemma consistent_rename (classId : nat) (value : string)
    (s : Learner.State Activation Result) :
  LearnerUI.consistent s -> LearnerUI.consistent (LearnerUI.rename classId value s).
Proof.
  intros (Hids & Hlab & Hcount). unfold LearnerUI.consistent, LearnerUI.rename. cbn -[Learner.examplesOf].
  rewrite length_map, map_map.
  split; [|split].
  - rewrite <- Hids. apply map_ext. intros r. now destruct (Nat.eqb (Learner.id r) classId).
  - exact Hlab.
  - apply Forall_forall. intros r Hr. apply in_map_iff in Hr.
    destruct Hr as (r0 & <- & Hr0). rewrite Forall_forall in Hcount.
    specialize (Hcount r0 Hr0).
    now destruct (Nat.eqb (Learner.id r0) classId).
Qed.

Lemma untouched_rename (classId : nat) (value : string)
    (s : Learner.State Activation Result) :
  untouched s -> untouched (LearnerUI.rename classId value s).
Proof.
  unfold untouched, LearnerUI.rename. cbn. intros Hu Hnone.
  destruct (Hu Hnone) as (Hk & Hcl & Hr & Hp & Hfr).
  repeat split; try assumption.
  apply Forall_forall. intros r Hr'. apply in_map_iff in Hr'.
  destruct Hr' as (r0 & <- & Hr0). rewrite Forall_forall in Hcl.
  specialize (Hcl r0 Hr0). now destruct (Nat.eqb (Learner.id r0) classId).
Qed.

Lemma untouched_page_step (s s' : Learner.State Activation Result)
    (g : LearnerUI.Gesture Activation Result) :
  untouched s -> LearnerUI.step s g = Some s' -> untouched s'.
Proof.
  intros Hu Hstep. unfold LearnerUI.step in Hstep.
  destruct (LearnerUI.onPage s g); [|discriminate Hstep].
  destruct g as [a|classId value].
  - eapply untouched_step; eauto.
  - injection Hstep as <-. now apply untouched_rename.
Qed.

Lemma consistent_page_step (s s' : Learner.State Activation Result)
    (g : LearnerUI.Gesture Activation Result) :
  untouched s -> LearnerUI.consistent s -> LearnerUI.step s g = Some s' ->
  LearnerUI.consistent s'.
Proof.
  intros Hu Hc Hstep. unfold LearnerUI.step in Hstep.
  destruct (LearnerUI.onPage s g) eqn:Hpage; [|discriminate Hstep].
  destruct g as [a|classId value].
  - destruct a as [h readyState activation|k o| |classId readyState activation|
                   |randomColor]; cbn in Hstep.
    + destruct (take h (Learner.animationFrames s)) as [[c rest]|]; [|discriminate Hstep].
      injection Hstep as <-. apply consistent_predict.
      revert Hc. apply consistent_ext; reflexivity.
    + destruct (take k (Learner.pending s)) as [[c rest]|]; [|discriminate Hstep].
      injection Hstep as <-. revert Hc.
      apply consistent_ext; unfold Learner.predictResume; destruct o; reflexivity.
    + destruct (Learner.classifier s) eqn:Ec; [discriminate Hstep|].
      injection Hstep as <-. destruct (Hu Ec) as (Hk & Hcl & _).
      destruct Hc as (Hids & Hlab & Hcount).
      assert (H0 : LearnerUI.consistent
                     (Learner.set_knn (Learner.knnCreate Activation)
                        (Learner.set_classifier (Some Learner.Knn)
                           (Learner.set_net (Some Learner.MobileNet) s)))).
      { unfold LearnerUI.consistent. cbn. split; [exact Hids|]. split; [constructor|].
        eapply Forall_impl; [|exact Hcl]. cbn. intros r Hr. exact Hr. }
      revert H0. apply consistent_ext;
        unfold Learner.rerunEffect, Learner.effect, Learner.cancelAnimationFrame;
        destruct (Learner.requestRef _); reflexivity.
    + injection Hstep as <-. now apply consistent_addExample.
    + injection Hstep as <-. now apply consistent_clearAll.
    + injection Hstep as <-. now apply consistent_addClass.
  - injection Hstep as <-. now apply consistent_rename.
Qed.

Lemma page_run_invariants (trace : list (LearnerUI.Gesture Activation Result))
    (s s' : Learner.State Activation Result) :
  untouched s -> LearnerUI.consistent s -> LearnerUI.run s trace = Some s' ->
  untouched s' /\ LearnerUI.consistent s'.
Proof.
  revert s. induction trace as [|g trace IH]; intros s Hu Hc Hrun; cbn in Hrun.
  - injection Hrun as <-. now split.
  - destruct (LearnerUI.step s g) as [s1|] eqn:Hstep; [|discriminate Hrun].
    apply (IH s1); [| |exact Hrun].
    + eapply untouched_page_step; eauto.
    + eapply consistent_page_step; eauto.
Qed.

Lemma consistent_mounted : LearnerUI.consistent (Learner.mounted Activation Result).
Proof.
  unfold LearnerUI.consistent. cbn. repeat split; repeat constructor.
Qed.


(** *** Counts *)

Lemma list_sum_cons (x : nat) (q : list nat) : list_sum (x :: q) = (x + list_sum q)%nat.
Proof. reflexivity. Qed.

Lemma indicator_sum (l start n : nat) :
  list_sum (map (fun i => if Nat.eqb l i then 1%nat else 0%nat) (seq start n))
  = if Nat.leb start l && Nat.ltb l (start + n) then 1%nat else 0%nat.
Proof.
  revert start. induction n as [|n IH]; intros start; cbn [seq map].
  - change (list_sum (@nil nat)) with 0%nat.
    destruct (Nat.leb start l) eqn:E1; cbn [andb]; [|reflexivity].
    destruct (Nat.ltb l (start + 0)) eqn:E2; [|reflexivity].
    apply Nat.leb_le in E1. apply Nat.ltb_lt in E2. lia.
  - change (list_sum (?x :: ?q)) with (x + list_sum q)%nat. rewrite IH.
    destruct (Nat.eqb l start) eqn:E.
    + apply Nat.eqb_eq in E. subst l.
      assert (H1 : Nat.leb (S start) start = false) by (apply Nat.leb_gt; lia).
      assert (H2 : Nat.leb start start = true) by (apply Nat.leb_le; lia).
      assert (H3 : Nat.ltb start (start + S n) = true) by (apply Nat.ltb_lt; lia).
      now rewrite H1, H2, H3.
    + apply Nat.eqb_neq in E.
      destruct (Nat.leb (S start) l) eqn:E1, (Nat.leb start l) eqn:E2,
               (Nat.ltb l (S start + n)) eqn:E3, (Nat.ltb l (start + S n)) eqn:E4;
        try reflexivity; exfalso;
        repeat match goal with
        | H : Nat.leb _ _ = true |- _ => apply Nat.leb_le in H
        | H : Nat.leb _ _ = false |- _ => apply Nat.leb_gt in H
        | H : Nat.ltb _ _ = true |- _ => apply Nat.ltb_lt in H
        | H : Nat.ltb _ _ = false |- _ => apply Nat.ltb_ge in H
        end; lia.
Qed.

Lemma list_sum_map_add {A} (f g : A -> nat) (l : list A) :
  list_sum (map (fun x => (f x + g x)%nat) l) = (list_sum (map f l) + list_sum (map g l))%nat.
Proof.
  induction l as [|x l IH]; [reflexivity|].
  cbn [map]. rewrite !list_sum_cons, IH. lia.
Qed.

(** The examples of the classes [0 .. n-1] are all the examples when every
    label is below [n]. *)
Lemma examples_by_class (d : Learner.Dataset Activation) (n : nat) :
  Forall (fun e => (fst e < n)%nat) d ->
  list_sum (map (fun i => List.length (Learner.examplesOf i d)) (seq 0 n))
  = Learner.numExamples d.
Proof.
  unfold Learner.numExamples.
  induction 1 as [|[l a] d Hl _ IH]; cbn [List.length].
  - unfold Learner.examplesOf. cbn. induction (seq 0 n); cbn; auto.
  - cbn in Hl. rewrite <- IH.
    rewrite (map_ext (fun i => List.length (Learner.examplesOf i ((l, a) :: d)))
               (fun i => ((if Nat.eqb l i then 1%nat else 0%nat)
                          + List.length (Learner.examplesOf i d))%nat)).
    + rewrite list_sum_map_add, indicator_sum. cbn [Nat.leb andb Nat.add].
      assert (H : Nat.ltb l n = true) by (apply Nat.ltb_lt; lia). now rewrite H.
    + intros i. change ((l, a) :: d) with ([(l, a)] ++ d).
      rewrite examplesOf_app, examplesOf_single, length_app.
      now destruct (Nat.eqb l i).
Qed.

Lemma seq_nth_error (a n j : nat) : (j < n)%nat -> nth_error (seq a n) j = Some (a + j)%nat.
Proof.
  revert a j. induction n as [|n IH]; intros a j Hj; [lia|].
  destruct j as [|j]; cbn; [f_equal; lia|].
  rewrite IH by lia. f_equal. lia.
Qed.

Lemma row_at_its_id (classes : list Learner.ClassRow) (row : Learner.ClassRow) :
  map Learner.id classes = seq 0 (List.length classes) ->
  In row classes -> nth_error classes (Learner.id row) = Some row.
Proof.
  intros Hids Hin. apply In_nth_error in Hin. destruct Hin as [j Hj].
  assert (Hlt : (j < List.length classes)%nat).
  { apply nth_error_Some. congruence. }
  pose proof (map_nth_error Learner.id _ _ Hj) as Hm.
  rewrite Hids, seq_nth_error in Hm by exact Hlt.
  injection Hm as Hm. cbn in Hm. now rewrite <- Hm.
Qed.

(** X13.  On the page, whatever is trained, reset, added or renamed, the
    number of samples a class row shows is the number of examples the
    classifier holds under that class, and the counts of all rows add up to
    the examples held in all. *)
Theorem counts_agree_with_the_store :
  forall (trace : list (LearnerUI.Gesture Activation Result))
         (s : Learner.State Activation Result),
    LearnerUI.run (Learner.mounted Activation Result) trace = Some s ->
    Forall (fun row => Learner.count row
                       = List.length (Learner.examplesOf (Learner.id row) (Learner.knn s)))
           (Learner.classes s)
    /\ list_sum (map Learner.count (Learner.classes s)) = Learner.numExamples (Learner.knn s).
Proof.
  intros trace s Hrun.
  destruct (page_run_invariants trace (@untouched_mounted Activation Result)
              consistent_mounted Hrun) as (_ & Hids & Hlab & Hcount).
  split; [exact Hcount|].
  rewrite <- (examples_by_class Hlab), <- Hids, map_map.
  f_equal. apply map_ext_in. intros row Hrow.
  rewrite Forall_forall in Hcount. now apply Hcount.
Qed.

(** X14.  On the page the id of a class row is always its position in
    [classes].  So [classes[label]] is the row of the class with that id: a
    prediction for a label is shown under the name of that class, unless the
    name has been emptied, and under the fallback when no class has that
    id. *)
Theorem label_finds_its_class :
  forall (trace : list (LearnerUI.Gesture Activation Result))
         (s : Learner.State Activation Result),
    LearnerUI.run (Learner.mounted Activation Result) trace = Some s ->
    (forall row, In row (Learner.classes s) ->
                 nth_error (Learner.classes s) (Learner.id row) = Some row)
    /\ (forall row fallback,
          In row (Learner.classes s) -> Learner.name row <> ""%string ->
          LearnerUI.displayName (Learner.classes s) fallback (Learner.id row)
          = Learner.name row)
    /\ (forall label fallback,
          (forall row, In row (Learner.classes s) -> Learner.id row <> label) ->
          LearnerUI.displayName (Learner.classes s) fallback label = fallback).
Proof.
  intros trace s Hrun.
  destruct (page_run_invariants trace (@untouched_mounted Activation Result)
              consistent_mounted Hrun) as (_ & Hids & _ & _).
  split; [|split].
  - intros row Hin. now apply row_at_its_id.
  - intros row fallback Hin Hname. unfold LearnerUI.displayName.
    rewrite (row_at_its_id _ _ Hids Hin).
    destruct (String.eqb (Learner.name row) "") eqn:E; [|reflexivity].
    apply String.eqb_eq in E. contradiction.
  - intros label fallback Hnone. unfold LearnerUI.displayName.
    destruct (nth_error (Learner.classes s) label) as [row|] eqn:E; [|reflexivity].
    exfalso. pose proof (nth_error_In _ _ E) as Hin.
    assert (Hlt : (label < List.length (Learner.classes s))%nat).
    { apply nth_error_Some. congruence. }
    pose proof (map_nth_error Learner.id _ _ E) as Hm.
    rewrite Hids, seq_nth_error in Hm by exact Hlt.
    injection Hm as Hm. cbn in Hm. apply (Hnone row Hin). now rewrite <- Hm.
Qed.

(** *** The prediction loop *)

Lemma oneLoop_ext (s s' : Learner.State Activation Result) :
  Learner.animationFrames s' = Learner.animationFrames s ->
  Learner.pending s' = Learner.pending s ->
  Learner.requestRef s' = Learner.requestRef s ->
  LearnerUI.oneLoop s -> LearnerUI.oneLoop s'.
Proof. unfold LearnerUI.oneLoop. intros -> -> ->. auto. Qed.

Lemma oneLoop_request (c : Learner.Closure) (s : Learner.State Activation Result) :
  Learner.animationFrames s = [] -> Learner.pending s = [] ->
  LearnerUI.oneLoop (Learner.requestAnimationFrame c s).
Proof.
  intros Hf Hp. unfold LearnerUI.oneLoop, Learner.requestAnimationFrame. cbn.
  rewrite Hf, Hp. cbn. split; [reflexivity|].
  intros h c' [E|[]]. now injection E as <- <-.
Qed.

Lemma oneLoop_page_step (s s' : Learner.State Activation Result)
    (g : LearnerUI.Gesture Activation Result) :
  untouched s -> LearnerUI.oneLoop s -> LearnerUI.step s g = Some s' ->
  LearnerUI.oneLoop s'.
Proof.
  intros Hu [Hlen Hreq] Hstep. unfold LearnerUI.step in Hstep.
  destruct (LearnerUI.onPage s g); [|discriminate Hstep].
  destruct g as [a|classId value].
  - destruct a as [h readyState activation|k o| |classId readyState activation|
                   |randomColor]; cbn in Hstep.
    + destruct (take h (Learner.animationFrames s)) as [[c rest]|] eqn:Et;
        [|discriminate Hstep].
      injection Hstep as <-. apply take_length in Et.
      assert (Hrest : rest = []) by (destruct rest; [reflexivity | cbn in Et; lia]).
      assert (Hp : Learner.pending s = []).
      { destruct (Learner.pending s); [reflexivity | cbn in Hlen; lia]. }
      subst rest. unfold Learner.predict.
      destruct (_ && _ && _ && _).
      * unfold LearnerUI.oneLoop. cbn. rewrite Hp. cbn. split; [reflexivity|].
        intros h' c' [].
      * now apply oneLoop_request.
    + destruct (take k (Learner.pending s)) as [[c rest]|] eqn:Et; [|discriminate Hstep].
      injection Hstep as <-. apply take_length in Et.
      assert (Hrest : rest = []) by (destruct rest; [reflexivity | cbn in Et; lia]).
      assert (Hf : Learner.animationFrames s = []).
      { destruct (Learner.animationFrames s); [reflexivity | cbn in Hlen; lia]. }
      subst rest. unfold Learner.predictResume.
      apply oneLoop_request; destruct o; cbn; auto.
    + destruct (Learner.classifier s) eqn:Ec; [discriminate Hstep|].
      injection Hstep as <-. destruct (Hu Ec) as (_ & _ & _ & Hp & _).
      unfold Learner.rerunEffect, Learner.effect. apply oneLoop_request.
      * unfold Learner.cancelAnimationFrame. cbn.
        destruct (Learner.requestRef s) as [h|] eqn:Er; cbn.
        -- apply without_named. intros h' c' Hin. specialize (Hreq h' c' Hin). congruence.
        -- destruct (Learner.animationFrames s) as [|[h c] q]; [reflexivity|].
           specialize (Hreq h c (or_introl eq_refl)). discriminate Hreq.
      * unfold Learner.cancelAnimationFrame. cbn.
        destruct (Learner.requestRef s); exact Hp.
    + injection Hstep as <-. apply (oneLoop_ext (s := s)); try (now split);
        unfold Learner.addExample; destruct (_ && _ && _); reflexivity.
    + injection Hstep as <-. apply (oneLoop_ext (s := s)); try (now split);
        unfold Learner.clearAll; destruct (isSome _); reflexivity.
    + injection Hstep as <-. apply (oneLoop_ext (s := s)); try (now split); reflexivity.
  - injection Hstep as <-. apply (oneLoop_ext (s := s)); try (now split); reflexivity.
Qed.

(** X15.  On the page the prediction loop always has exactly one
    continuation: either one frame callback is requested or one
    [predictClass] call is outstanding, never both and never two of a kind.
    The loop is neither duplicated by the initialisation nor ended by a
    rejected prediction. *)
Theorem prediction_loop_is_single :
  forall (trace : list (LearnerUI.Gesture Activation Result))
         (s : Learner.State Activation Result),
    LearnerUI.run (Learner.mounted Activation Result) trace = Some s ->
    (List.length (Learner.animationFrames s) + List.length (Learner.pending s) = 1)%nat.
Proof.
  intros trace s Hrun.
  assert (H : forall tr s0,
             untouched s0 -> LearnerUI.oneLoop s0 -> LearnerUI.run s0 tr = Some s ->
             LearnerUI.oneLoop s).
  { induction tr as [|g tr IH]; intros s0 Hu Ho Hr; cbn in Hr.
    - now injection Hr as <-.
    - destruct (LearnerUI.step s0 g) as [s1|] eqn:Hstep; [|discriminate Hr].
      apply (IH s1); [| |exact Hr].
      + eapply untouched_page_step; eauto.
      + eapply oneLoop_page_step; eauto. }
  apply (H trace (Learner.mounted Activation Result)); [| |exact Hrun].
  - apply untouched_mounted.
  - unfold LearnerUI.oneLoop. cbn. split; [reflexivity|].
    intros h c [E|[]]. now injection E as <- <-.
Qed.

(** X16.  As long as no Train button has been pressed, the store stays
    empty, no [predictClass] call is issued and [result] stays null: the page
    keeps saying that it waits for prediction data. *)
Theorem no_prediction_without_training :
  forall (trace : list (LearnerUI.Gesture Activation Result))
         (s : Learner.State Activation Result),
    LearnerUI.run (Learner.mounted Activation Result) trace = Some s ->
    forallb (fun g => negb (LearnerUI.isTrain g)) trace = true ->
    Learner.knn s = [] /\ Learner.result s = None
    /\ Learner.pending s = [] /\ Learner.nextCall s = 0%nat.
Proof.
  intros trace s Hrun Hno.
  assert (H : forall tr s0,
             forallb (fun g => negb (LearnerUI.isTrain g)) tr = true ->
             (Learner.knn s0 = [] /\ Learner.result s0 = None
              /\ Learner.pending s0 = [] /\ Learner.nextCall s0 = 0%nat) ->
             LearnerUI.run s0 tr = Some s ->
             Learner.knn s = [] /\ Learner.result s = None
             /\ Learner.pending s = [] /\ Learner.nextCall s = 0%nat).
  { induction tr as [|g tr IH]; intros s0 Hall Hs0 Hr; cbn in Hr.
    - now injection Hr as <-.
    - cbn in Hall. apply andb_true_iff in Hall. destruct Hall as [Hg Hall].
      destruct (LearnerUI.step s0 g) as [s1|] eqn:Hstep; [|discriminate Hr].
      apply (IH s1 Hall); [|exact Hr].
      destruct Hs0 as (Hk & Hres & Hp & Hn).
      unfold LearnerUI.step in Hstep.
      destruct (LearnerUI.onPage s0 g); [|discriminate Hstep].
      destruct g as [a|classId value].
      + destruct a as [h readyState activation|k o| |classId readyState activation|
                       |randomColor]; cbn in Hstep.
        * destruct (take h (Learner.animationFrames s0)) as [[c rest]|];
            [|discriminate Hstep].
          injection Hstep as <-.
          rewrite predict_empty by (cbn; now rewrite Hk).
          now repeat split.
        * rewrite Hp in Hstep. discriminate Hstep.
        * destruct (Learner.classifier s0); [discriminate Hstep|].
          injection Hstep as <-.
          unfold Learner.rerunEffect, Learner.effect, Learner.cancelAnimationFrame.
          destruct (Learner.requestRef _); cbn; now repeat split.
        * discriminate Hg.
        * injection Hstep as <-. unfold Learner.clearAll.
          destruct (isSome _); cbn; now repeat split.
        * injection Hstep as <-. now repeat split.
      + injection Hstep as <-. now repeat split. }
  apply (H trace (Learner.mounted Activation Result) Hno); [|exact Hrun].
  now repeat split.
Qed.

End LearnerPageProperties.

Lemma counts_agree_with_the_store_witness :
  exists s,
    LearnerUI.run (Learner.mounted (list Q) nat) teaching = Some s
    /\ map Learner.count (Learner.classes s) = [2; 0; 1; 0]%nat
    /\ list_sum (map Learner.count (Learner.classes s)) = Learner.numExamples (Learner.knn s).
Proof.
  destruct (LearnerUI.run (Learner.mounted (list Q) nat) teaching) as [s|] eqn:E;
    [|vm_compute in E; discriminate E].
  exists s. split; [reflexivity|].
  split; [|exact (proj2 (@counts_agree_with_the_store _ _ teaching s E))].
  vm_compute in E. injection E as <-. reflexivity.
Defined.

Lemma label_finds_its_class_witness :
  exists s,
    LearnerUI.run (Learner.mounted (list Q) nat) teaching = Some s
    /\ LearnerUI.displayName (Learner.classes s) "Class 3" 3 = "Fist"%string
    /\ LearnerUI.displayName (Learner.classes s) "Class 7" 7 = "Class 7"%string.
Proof.
  destruct (LearnerUI.run (Learner.mounted (list Q) nat) teaching) as [s|] eqn:E;
    [|vm_compute in E; discriminate E].
  exists s. split; [reflexivity|].
  destruct (@label_finds_its_class _ _ teaching s E) as (_ & Hname & Hnone).
  vm_compute in E. injection E as <-. split.
  - apply (Hname {| Learner.id := 3; Learner.name := "Fist"; Learner.count := 0;
                    Learner.color := "bg-pink-500" |} "Class 3"%string).
    + cbn. tauto.
    + discriminate.
  - apply Hnone. cbn. intros row [<-|[<-|[<-|[<-|[]]]]]; discriminate.
Defined.

Lemma prediction_loop_is_single_witness :
  exists s,
    LearnerUI.run (Learner.mounted (list Q) nat) browsing = Some s
    /\ (List.length (Learner.animationFrames s) + List.length (Learner.pending s) = 1)%nat.
Proof.
  destruct (LearnerUI.run (Learner.mounted (list Q) nat) browsing) as [s|] eqn:E;
    [|vm_compute in E; discriminate E].
  exists s. split; [reflexivity|].
  exact (@prediction_loop_is_single _ _ browsing s E).
Defined.

Lemma no_prediction_without_training_witness :
  exists s,
    LearnerUI.run (Learner.mounted (list Q) nat) browsing = Some s
    /\ Learner.knn s = [] /\ Learner.result s = None.
Proof.
  destruct (LearnerUI.run (Learner.mounted (list Q) nat) browsing) as [s|] eqn:E;
    [|vm_compute in E; discriminate E].
  exists s. split; [reflexivity|].
  destruct (@no_prediction_without_training _ _ browsing s E eq_refl) as (Hk & Hr & _).
  now split.
Defined.

(** *** The list of live predictions *)

Lemma insertItem_perm (x : LearnerUI.Item) (l : list LearnerUI.Item) :
  Permutation (LearnerUI.insertItem x l) (x :: l).
Proof.
  induction l as [|y l IH]; cbn [LearnerUI.insertItem]; [reflexivity|].
  destruct (Qle_bool _ 0); [reflexivity|].
  rewrite IH. apply perm_swap.
Qed.

Lemma insertItem_sorted (x : LearnerUI.Item) (l : list LearnerUI.Item) :
  StronglySorted LearnerUI.byConfidence l -> StronglySorted LearnerUI.byConfidence (LearnerUI.insertItem x l).
Proof.
  induction 1 as [|y l Hs IH Hy]; cbn [LearnerUI.insertItem].
  - constructor; constructor.
  - destruct (Qle_bool (LearnerUI.confidence y - LearnerUI.confidence x) 0) eqn:E.
    + apply Qle_bool_iff in E.
      assert (Hyx : LearnerUI.confidence y <= LearnerUI.confidence x) by lra.
      constructor; [constructor; assumption|].
      constructor; [exact Hyx|].
      eapply Forall_impl; [|exact Hy]. unfold LearnerUI.byConfidence. intros z Hz. lra.
    + assert (Hxy : LearnerUI.confidence x <= LearnerUI.confidence y).
      { destruct (Qlt_le_dec (LearnerUI.confidence y) (LearnerUI.confidence x)) as [Hlt|Hle];
          [|exact Hle].
        exfalso. assert (Hb : Qle_bool (LearnerUI.confidence y - LearnerUI.confidence x) 0 = true).
        { apply Qle_bool_iff. lra. }
        congruence. }
      constructor; [exact IH|].
      eapply Permutation_Forall; [symmetry; apply insertItem_perm|].
      constructor; assumption.
Qed.

Lemma sortByConfidence_perm (l : list LearnerUI.Item) :
  Permutation (LearnerUI.sortByConfidence l) l.
Proof.
  induction l as [|x l IH]; cbn; [reflexivity|].
  rewrite insertItem_perm. now constructor.
Qed.

Lemma sortByConfidence_sorted (l : list LearnerUI.Item) :
  StronglySorted LearnerUI.byConfidence (LearnerUI.sortByConfidence l).
Proof.
  induction l as [|x l IH]; cbn; [constructor | now apply insertItem_sorted].
Qed.

Lemma aboveFivePercent_spec (item : LearnerUI.Item) :
  LearnerUI.aboveFivePercent item = true <-> 5 # 100 < LearnerUI.confidence item.
Proof.
  unfold LearnerUI.aboveFivePercent. split.
  - apply Qlt_bool_true.
  - intros H. destruct (Qlt_bool (5 # 100) (LearnerUI.confidence item)) eqn:E; [reflexivity|].
    apply Qlt_bool_false in E. lra.
Qed.

(** X17.  The Live Predictions list shows exactly the entries of
    [result.confidences] whose confidence is above 0.05, each as often as it
    occurs, ordered from the highest confidence to the lowest; it is empty
    exactly when no confidence is above 0.05. *)
Theorem live_predictions_are_filtered_and_ranked :
  forall entries : list (nat * Q),
    let items := LearnerUI.resultsList entries in
    Forall (fun item => 5 # 100 < LearnerUI.confidence item) items
    /\ StronglySorted (fun a b => LearnerUI.confidence b <= LearnerUI.confidence a) items
    /\ Permutation items
         (filter LearnerUI.aboveFivePercent
            (map (fun e => {| LearnerUI.label := fst e; LearnerUI.confidence := snd e |})
               entries))
    /\ (forall e, In e entries -> 5 # 100 < snd e ->
                  In {| LearnerUI.label := fst e; LearnerUI.confidence := snd e |} items)
    /\ (items = [] <-> Forall (fun e => snd e <= 5 # 100) entries).
Proof.
  intros entries items. subst items. unfold LearnerUI.resultsList.
  set (all := map (fun e => {| LearnerUI.label := fst e; LearnerUI.confidence := snd e |})
                entries).
  pose proof (sortByConfidence_perm (filter LearnerUI.aboveFivePercent all)) as Hperm.
  split; [|split; [|split; [|split]]].
  - eapply Permutation_Forall; [symmetry; exact Hperm|].
    apply Forall_forall. intros item Hin. apply filter_In in Hin.
    now apply aboveFivePercent_spec.
  - apply sortByConfidence_sorted.
  - exact Hperm.
  - intros e Hin He. eapply Permutation_in; [symmetry; exact Hperm|].
    apply filter_In. split.
    + unfold all. apply in_map_iff. now exists e.
    + now apply aboveFivePercent_spec.
  - split.
    + intros Hnil. rewrite Hnil in Hperm. apply Permutation_nil in Hperm.
      apply Forall_forall. intros e Hin.
      destruct (Qlt_le_dec (5 # 100) (snd e)) as [Hlt|Hle]; [|exact Hle].
      exfalso.
      assert (Hf : In {| LearnerUI.label := fst e; LearnerUI.confidence := snd e |}
                      (filter LearnerUI.aboveFivePercent all)).
      { apply filter_In. split.
        - unfold all. apply in_map_iff. now exists e.
        - now apply aboveFivePercent_spec. }
      rewrite Hperm in Hf. exact Hf.
    + intros Hall.
      assert (Hf : filter LearnerUI.aboveFivePercent all = []).
      { unfold all. clear Hperm. induction Hall as [|e q He _ IH]; [reflexivity|].
        cbn [map filter].
        destruct (LearnerUI.aboveFivePercent _) eqn:E; [|exact IH].
        apply aboveFivePercent_spec in E. cbn in E. lra. }
      rewrite Hf. reflexivity.
Qed.

Lemma live_predictions_are_filtered_and_ranked_witness :
  LearnerUI.resultsList [(0%nat, 4 # 100); (1%nat, 26 # 100); (2%nat, 7 # 10)]
  = [ {| LearnerUI.label := 2; LearnerUI.confidence := 7 # 10 |};
      {| LearnerUI.label := 1; LearnerUI.confidence := 26 # 100 |} ]
  /\ In {| LearnerUI.label := 1; LearnerUI.confidence := 26 # 100 |}
        (LearnerUI.resultsList [(0%nat, 4 # 100); (1%nat, 26 # 100); (2%nat, 7 # 10)]).
Proof.
  split; [reflexivity|].
  apply (proj1 (proj2 (proj2 (proj2
           (live_predictions_are_filtered_and_ranked
              [(0%nat, 4 # 100); (1%nat, 26 # 100); (2%nat, 7 # 10)]))))
           (1%nat, 26 # 100)).
  - cbn. tauto.
  - reflexivity.
Defined.
